(** * ueberzug/process.py: locating the pty slave of a process

    A shallow embedding of [src/ueberzug/process.py].  Python integers are
    unbounded and are modelled by [Z]; [bytes] objects are [list byte];
    [str] objects are [string]s holding their UTF-8 encoding; exceptions
    are an explicit result type; the file system ([open], [os.stat]) is a
    read-only environment and the [functools.lru_cache] of
    [get_pty_slave_folders] is explicit state. *)

From Stdlib Require Import ZArith List Strings.String Strings.Ascii Strings.Byte Bool Lia.
From Stdlib Require Import DecimalString.
Import ListNotations.

Local Open Scope Z_scope.

(** ** The minor device number ([calculate_minor_device_number]) *)

Module Decode.

Definition TTY_NR_BITS : Z := 32.
Definition FIRST_BITS : Z := 8.
Definition SHIFTED_BITS : Z := 12.
Definition FIRST_BITS_MASK : Z := 0xFF.
Definition SHIFTED_BITS_MASK : Z := 0xFFF00000.

(** Lines 105-125.  [&] is [Z.land], [>>] is [Z.shiftr]; Python integers
    do not wrap, so neither does the sum. *)
Definition calculate_minor_device_number (tty_nr : Z) : Z :=
  let minor_device_number :=
    Z.land tty_nr FIRST_BITS_MASK +
    Z.shiftr (Z.land tty_nr SHIFTED_BITS_MASK)
             (TTY_NR_BITS - SHIFTED_BITS - FIRST_BITS) in
  minor_device_number.

End Decode.

Import Decode.

(** ** Python values: bytes, exceptions, integers, strings *)

Definition bytes : Type := list byte.

(** A bytes literal [b'...']. *)
Definition b (s : string) : bytes := list_byte_of_string s.

Definition code (c : byte) : N := Byte.to_N c.

Definition bytes_eqb (x y : bytes) : bool :=
  if list_eq_dec Byte.byte_eq_dec x y then true else false.

(** The exceptions that can occur.  [open] and [os.stat] raise the
    subclass of [OSError] that belongs to the error number:
    [FileNotFoundError] for [ENOENT], [PermissionError] for [EACCES] and
    [EPERM]; [OSError errno] stands for any other one. *)
Inductive exn : Type :=
| FileNotFoundError
| PermissionError
| OSError (errno : Z)
| AttributeError
| KeyError
| ValueError
| UnicodeDecodeError
| RecursionError.

Inductive result (A : Type) : Type :=
| Return (a : A)
| Raise (e : exn).
Arguments Return {A} a.
Arguments Raise {A} e.

(** [except FileNotFoundError] catches this class only: it has no
    subclasses, and it is itself a subclass of [OSError]. *)
Definition is_FileNotFoundError (e : exn) : bool :=
  match e with FileNotFoundError => true | _ => false end.

(** *** Character classes of [re] on bytes patterns (ASCII only) *)

Definition is_digit (c : byte) : bool :=
  ((48 <=? code c) && (code c <=? 57))%N.

Definition is_sign (c : byte) : bool :=
  ((code c =? 45) || (code c =? 43))%N.

(** [\s] is [ \t\n\r\f\v]. *)
Definition is_space (c : byte) : bool :=
  ((code c =? 32) || ((9 <=? code c) && (code c <=? 13)))%N.

(** [\S]. *)
Definition is_nonspace (c : byte) : bool := negb (is_space c).

(** [.] without [re.DOTALL]: anything but a newline. *)
Definition is_dot (c : byte) : bool := negb (code c =? 10)%N.

(** [(\S| )]: the two alternatives are single bytes, so the alternation
    is the union of the classes. *)
Definition is_nonspace_or_blank (c : byte) : bool :=
  is_nonspace c || (code c =? 32)%N.

(** *** [int(b'...')]

    [int] on a bytes object.  Optional sign, then decimal digits.  Python
    also accepts surrounding whitespace and underscores between digits;
    the only arguments it is given here are groups captured by
    [[-+]?\d+], which contain neither.  A literal with more than
    [sys.get_int_max_str_digits()] digits, leading zeros counted and the
    sign not, is refused with [ValueError] (CPython 3.11 and later, and
    the security releases of 3.7 to 3.10); the module leaves the limit
    at its default. *)
Definition int_max_str_digits : nat := 4300.

Fixpoint digits_value (acc : Z) (s : bytes) : option Z :=
  match s with
  | [] => Some acc
  | c :: s' =>
      if is_digit c
      then digits_value (10 * acc + (Z.of_N (code c) - 48)) s'
      else None
  end.

Definition unsigned_value (s : bytes) : option Z :=
  match s with
  | [] => None
  | _ :: _ => digits_value 0 s
  end.

(** The digits of a literal: what follows the sign. *)
Definition digits_of (s : bytes) : bytes :=
  match s with
  | c :: s' => if is_sign c then s' else s
  | [] => []
  end.

Definition int (s : bytes) : result Z :=
  let signed :=
    match s with
    | c :: s' =>
        if (code c =? 45)%N then option_map Z.opp (unsigned_value s')
        else if (code c =? 43)%N then unsigned_value s'
        else unsigned_value s
    | [] => None
    end in
  match signed with
  | Some z =>
      if (List.length (digits_of s) <=? int_max_str_digits)%nat then Return z
      else Raise ValueError
  | None => Raise ValueError
  end.

(** *** [str(n)] for an integer, as used by f-strings

    The integers the module formats are the pid it is called with, the
    parent pids that [int] returned, and minor numbers below [2^20].
    CPython refuses to format an integer of more than
    [int_max_str_digits] digits: a parent pid that [int] accepted has no
    more than that, and the pid of the caller is taken to be a process
    id, which is far below it. *)
Definition str (n : Z) : string := NilZero.string_of_int (Z.to_int n).

(** *** [bytes.decode()]

    A [str] is represented by its UTF-8 encoding, so decoding is the strict
    UTF-8 well-formedness check (no overlong forms, no surrogates, nothing
    above U+10FFFF) followed by the identity. *)
Definition is_cont (c : N) : bool := ((0x80 <=? c) && (c <=? 0xBF))%N.

Definition second_ok3 (c0 c1 : N) : bool :=
  (if c0 =? 0xE0 then (0xA0 <=? c1) && (c1 <=? 0xBF)
   else if c0 =? 0xED then (0x80 <=? c1) && (c1 <=? 0x9F)
   else is_cont c1)%N.

Definition second_ok4 (c0 c1 : N) : bool :=
  (if c0 =? 0xF0 then (0x90 <=? c1) && (c1 <=? 0xBF)
   else if c0 =? 0xF4 then (0x80 <=? c1) && (c1 <=? 0x8F)
   else is_cont c1)%N.

Fixpoint utf8_valid (s : bytes) : bool :=
  match s with
  | [] => true
  | b0 :: t0 =>
      let c0 := code b0 in
      if (c0 <? 0x80)%N then utf8_valid t0
      else
        match t0 with
        | [] => false
        | b1 :: t1 =>
            let c1 := code b1 in
            if ((0xC2 <=? c0) && (c0 <=? 0xDF))%N
            then is_cont c1 && utf8_valid t1
            else
              match t1 with
              | [] => false
              | b2 :: t2 =>
                  let c2 := code b2 in
                  if ((0xE0 <=? c0) && (c0 <=? 0xEF))%N
                  then second_ok3 c0 c1 && is_cont c2 && utf8_valid t2
                  else
                    match t2 with
                    | [] => false
                    | b3 :: t3 =>
                        if ((0xF0 <=? c0) && (c0 <=? 0xF4))%N
                        then second_ok4 c0 c1 && is_cont c2
                             && is_cont (code b3) && utf8_valid t3
                        else false
                    end
              end
        end
  end.

Definition decode (s : bytes) : result string :=
  if utf8_valid s then Return (string_of_list_byte s)
  else Raise UnicodeDecodeError.

(** ** The fragment of [re] used by the module

    A backtracking matcher with Python's priorities: a greedy repetition
    first takes as many bytes as it may and gives them back one at a time,
    a lazy one first takes as few as it may.  Every repetition in the two
    patterns of the module ranges over a single-byte class. *)

Module Re.

Inductive regex : Type :=
| Lit (c : byte)                                      (* a literal byte *)
| Cls (p : byte -> bool)                              (* one byte of a class *)
| Greedy (p : byte -> bool) (lo : nat) (hi : option nat)  (* p{lo,hi}, p?, p+ *)
| Lazy (p : byte -> bool) (lo : nat)                  (* p{lo,}? *)
| Cat (r1 r2 : regex)
| Group (name : string) (r : regex).                  (* (?P<name>r) *)

(** The named groups of a match, as [groupdict()] returns them. *)
Definition groupdict : Type := list (string * bytes).

Fixpoint getitem (d : groupdict) (key : string) : result bytes :=
  match d with
  | [] => Raise KeyError
  | (k, v) :: d' => if String.eqb k key then Return v else getitem d' key
  end.

Definition may_take (hi : option nat) : bool :=
  match hi with Some O => false | _ => true end.

Fixpoint greedy {R} (p : byte -> bool) (lo : nat) (hi : option nat)
         (s : bytes) (k : bytes -> option R) : option R :=
  let stop := match lo with O => k s | S _ => None end in
  match s with
  | c :: s' =>
      if p c && may_take hi then
        match greedy p (Nat.pred lo) (option_map Nat.pred hi) s' k with
        | Some r => Some r
        | None => stop
        end
      else stop
  | [] => stop
  end.

Fixpoint lazy {R} (p : byte -> bool) (lo : nat)
         (s : bytes) (k : bytes -> option R) {struct s} : option R :=
  let more :=
    match s with
    | c :: s' => if p c then lazy p (Nat.pred lo) s' k else None
    | [] => None
    end in
  match lo with
  | O => match k s with Some r => Some r | None => more end
  | S _ => more
  end.

(** [exec r s caps k]: match [r] at the start of [s], then continue with
    [k] on what is left; [None] means every alternative failed. *)
Fixpoint exec (r : regex) (s : bytes) (caps : groupdict)
         (k : bytes -> groupdict -> option groupdict) : option groupdict :=
  match r with
  | Lit c =>
      match s with
      | c' :: s' => if Byte.eqb c' c then k s' caps else None
      | [] => None
      end
  | Cls p =>
      match s with
      | c' :: s' => if p c' then k s' caps else None
      | [] => None
      end
  | Greedy p lo hi => greedy p lo hi s (fun s' => k s' caps)
  | Lazy p lo => lazy p lo s (fun s' => k s' caps)
  | Cat r1 r2 => exec r1 s caps (fun s' caps' => exec r2 s' caps' k)
  | Group name r1 =>
      exec r1 s caps
           (fun s' caps' =>
              k s' ((name, List.firstn (List.length s - List.length s') s) :: caps'))
  end.

(** [re.search] for a pattern that starts with [^] (no [re.MULTILINE]):
    the only possible start of a match is the start of the data.
    [None] is Python's [None]. *)
Definition search_anchored (r : regex) (data : bytes) : option groupdict :=
  exec r data [] (fun _ caps => Some caps).

Fixpoint cat (rs : list regex) (last : regex) : regex :=
  match rs with
  | [] => last
  | r :: rs' => Cat r (cat rs' last)
  end.

Definition lit (s : string) : list regex := map Lit (list_byte_of_string s).

End Re.

Import Re.

(** ** [get_info]: the status record *)

Definition MAX_PROCESS_NAME_LENGTH : nat := 15.

(** [(?P<name>[-+]?\d+)] *)
Definition int_group (name : string) : regex :=
  Group name (Cat (Greedy is_sign 0 (Some 1%nat)) (Greedy is_digit 1 None)).

(** Lines 45-52. *)
Definition stat_pattern : regex :=
  cat ([int_group "pid"] ++ lit " (" ++
       [Group "comm" (Greedy is_dot 0 (Some MAX_PROCESS_NAME_LENGTH))] ++
       lit ") " ++
       [Group "state" (Cls is_dot)] ++ lit " " ++
       [int_group "ppid"] ++ lit " " ++
       [int_group "pgrp"] ++ lit " " ++
       [int_group "session"] ++ lit " ")
      (int_group "tty_nr").

(** [re.search(...).groupdict()]: [None] has no [groupdict]. *)
Definition parse_stat (data : bytes) : result groupdict :=
  match search_anchored stat_pattern data with
  | Some m => Return m
  | None => Raise AttributeError
  end.

(** Lines 77-78. *)
Definition driver_pattern : regex :=
  cat ([Group "name" (Lazy is_nonspace_or_blank 1);
        Greedy (fun c => (code c =? 32)%N) 1 None;
        Group "path" (cat (lit "/dev/") (Greedy is_nonspace 1 None))])
      (Lit " "%byte).

(** ** The operating system and the interpreter state

    The file system is read-only for this module.  [open_rb path] is the
    outcome of opening [path] in mode ['rb'] and reading it to the end
    (its content, or the exception raised on the way); [stat_rdev path] is
    the outcome of [os.stat(path).st_rdev].  A [world] is fixed for the
    duration of one call; two calls may see different worlds. *)
Record world : Type := {
  open_rb : string -> result bytes;
  stat_rdev : string -> result Z
}.

(** The system calls made so far, oldest first.  The program cannot
    observe this log; it is there to count lookups. *)
Inductive event : Type :=
| Opened (path : string)
| Statted (path : string).

(** [folders_cache] is the single entry of the [lru_cache] wrapped around
    [get_pty_slave_folders] (the function has no arguments, so the cache
    has one key and never evicts it). *)
Record state : Type := {
  folders_cache : option (list string);
  io_log : list event
}.

Definition initial_state : state :=
  {| folders_cache := None; io_log := [] |}.

(** Computations that read the world, update the state and may raise. *)
Definition M (A : Type) : Type := state -> result A * state.

Definition ret {A} (a : A) : M A := fun st => (Return a, st).

Definition raise {A} (e : exn) : M A := fun st => (Raise e, st).

Definition bind {A B} (m : M A) (f : A -> M B) : M B :=
  fun st =>
    match m st with
    | (Return a, st') => f a st'
    | (Raise e, st') => (Raise e, st')
    end.

Definition lift {A} (r : result A) : M A := fun st => (r, st).

Notation "x <- m ;; f" := (bind m (fun x => f))
  (at level 61, m at next level, right associativity).

Definition log (ev : event) (st : state) : state :=
  {| folders_cache := folders_cache st; io_log := io_log st ++ [ev] |}.

Definition read_file (w : world) (path : string) : M bytes :=
  fun st => (open_rb w path, log (Opened path) st).

Definition os_stat (w : world) (path : string) : M Z :=
  fun st => (stat_rdev w path, log (Statted path) st).

(** [try: body except FileNotFoundError: pass], giving [None] when the
    exception was swallowed. *)
Definition try_except_FileNotFoundError {A} (body : M A) : M (option A) :=
  fun st =>
    match body st with
    | (Return a, st') => (Return (Some a), st')
    | (Raise e, st') =>
        if is_FileNotFoundError e then (Return None, st')
        else (Raise e, st')
    end.

Definition stat_path (pid : Z) : string := "/proc/" ++ str pid ++ "/stat".

(** Lines 15-53. *)
Definition get_info (w : world) (pid : Z) : M groupdict :=
  data <- read_file w (stat_path pid) ;;
  lift (parse_stat data).

(** Lines 87-102. *)
Definition get_parent_pid (w : world) (pid : Z) : M Z :=
  process_info <- get_info w pid ;;
  lift (match getitem process_info "ppid" with
        | Return v => int v
        | Raise e => Raise e
        end).

(** ** [get_pty_slave_folders]: the directory table *)

(** Iterating over a file opened in binary mode: the lines, each with its
    terminating newline (the last one may lack it). *)
Fixpoint readlines (data : bytes) : list bytes :=
  match data with
  | [] => []
  | c :: rest =>
      if (code c =? 10)%N then [c] :: readlines rest
      else
        match readlines rest with
        | [] => [[c]]
        | l :: ls => (c :: l) :: ls
        end
  end.

(** The body of the loop, lines 75-82, for one line: the path to add to
    [paths], if any. *)
Definition driver_line (line : bytes) : result (option string) :=
  match search_anchored driver_pattern line with
  | None => Raise AttributeError
  | Some driver =>
      match getitem driver "name" with
      | Raise e => Raise e
      | Return name =>
          if bytes_eqb name (b "pty_slave") then
            match getitem driver "path" with
            | Raise e => Raise e
            | Return path =>
                match decode path with
                | Raise e => Raise e
                | Return p => Return (Some p)
                end
            end
          else Return None
      end
  end.

Fixpoint collect_folders (lines : list bytes) (paths : list string)
  : result (list string) :=
  match lines with
  | [] => Return paths
  | line :: rest =>
      match driver_line line with
      | Raise e => Raise e
      | Return (Some p) => collect_folders rest (paths ++ [p])
      | Return None => collect_folders rest paths
      end
  end.

Definition drivers_path : string := "/proc/tty/drivers".

(** Lines 57-84, the function under the decorator. *)
Definition get_pty_slave_folders_uncached (w : world) : M (list string) :=
  data <- read_file w drivers_path ;;
  lift (collect_folders (readlines data) []).

(** Line 56: [functools.lru_cache()].  A hit returns the stored list; a
    miss runs the function and stores its result; a call that raises
    stores nothing. *)
Definition get_pty_slave_folders (w : world) : M (list string) :=
  fun st =>
    match folders_cache st with
    | Some paths => (Return paths, st)
    | None =>
        match get_pty_slave_folders_uncached w st with
        | (Return paths, st') =>
            (Return paths,
             {| folders_cache := Some paths; io_log := io_log st' |})
        | (Raise e, st') => (Raise e, st')
        end
    end.

(** ** [get_pty_slave] *)

Definition device_path_of (folder : string) (minor_device_number : Z) : string :=
  folder ++ "/" ++ str minor_device_number.

(** The loop of lines 151-158.  [Some path] is the early [return] of line
    156, [None] is the loop running to its end. *)
Fixpoint scan_folders (w : world) (tty_nr minor_device_number : Z)
         (folders : list string) : M (option string) :=
  match folders with
  | [] => ret None
  | folder :: rest =>
      let device_path := device_path_of folder minor_device_number in
      matched <- try_except_FileNotFoundError
                   (rdev <- os_stat w device_path ;; ret (tty_nr =? rdev)) ;;
      match matched with
      | Some true => ret (Some device_path)
      | _ => scan_folders w tty_nr minor_device_number rest
      end
  end.

(** Lines 128-164.  [fuel] bounds the depth of the Python call stack; at
    [O] the interpreter raises [RecursionError]. *)
Fixpoint get_pty_slave_rec (fuel : nat) (w : world) (pid : Z)
         (parent_search_depth : Z) : M (option string) :=
  match fuel with
  | O => raise RecursionError
  | S fuel' =>
      pty_slave_folders <- get_pty_slave_folders w ;;
      process_info <- get_info w pid ;;
      tty_bytes <- lift (getitem process_info "tty_nr") ;;
      tty_nr <- lift (int tty_bytes) ;;
      let minor_device_number := calculate_minor_device_number tty_nr in
      found <- scan_folders w tty_nr minor_device_number pty_slave_folders ;;
      match found with
      | Some device_path => ret (Some device_path)
      | None =>
          if parent_search_depth =? 2 then ret None
          else
            ppid_bytes <- lift (getitem process_info "ppid") ;;
            ppid <- lift (int ppid_bytes) ;;
            get_pty_slave_rec fuel' w ppid (parent_search_depth + 1)
      end
  end.

(** The default of [sys.getrecursionlimit()]. *)
Definition recursion_limit : nat := 1000.

(** [get_pty_slave(pid)], with [parent_search_depth] at its default. *)
Definition get_pty_slave (w : world) (pid : Z) : M (option string) :=
  get_pty_slave_rec recursion_limit w pid 0.

(** An [open] of anything but the drivers table: the module opens that
    table and status records, nothing else. *)
Definition is_stat_open (ev : event) : bool :=
  match ev with
  | Opened path => negb (String.eqb path drivers_path)
  | Statted _ => false
  end.

(** The number of status records opened in a log. *)
Definition lookups (evs : list event) : nat :=
  List.length (filter is_stat_open evs).

(** ** Vocabulary of the statements *)

(** [int(process_info[key])]. *)
Definition field_int (info : groupdict) (key : string) : result Z :=
  match getitem info key with
  | Return v => int v
  | Raise e => Raise e
  end.

(** The status record of [pid] can be read and parsed, and carries the
    terminal identifier [tty_nr] and the parent pid [ppid]. *)
Definition has_record (w : world) (pid tty_nr ppid : Z) : Prop :=
  exists data info,
    open_rb w (stat_path pid) = Return data
    /\ parse_stat data = Return info
    /\ field_int info "tty_nr" = Return tty_nr
    /\ field_int info "ppid" = Return ppid.

(** What the scan does with one candidate that it does not accept: the
    node is absent, or its device identifier differs. *)
Definition skipped (w : world) (tty_nr : Z) (device_path : string) : Prop :=
  stat_rdev w device_path = Raise FileNotFoundError
  \/ exists rdev, stat_rdev w device_path = Return rdev /\ rdev <> tty_nr.

(** The candidate paths of a list of directories, in order. *)
Definition paths_of (folders : list string) (minor : Z) : list string :=
  map (fun folder => device_path_of folder minor) folders.

Definition candidates (folders : list string) (tty_nr : Z) : list string :=
  paths_of folders (calculate_minor_device_number tty_nr).

Definition no_match (w : world) (tty_nr : Z) (folders : list string) : Prop :=
  Forall (skipped w tty_nr) (candidates folders tty_nr).

(** The state after some more system calls. *)
Definition logs (st : state) (evs : list event) : state :=
  {| folders_cache := folders_cache st; io_log := io_log st ++ evs |}.

(** The state in which a level that found nothing hands over to the
    next one: the record was opened, then every candidate was examined. *)
Definition after_level (st1 : state) (pid tty_nr : Z) (folders : list string)
  : state :=
  logs st1 (Opened (stat_path pid) :: map Statted (candidates folders tty_nr)).

(** ** What a match of the matcher looks like

    [run r s g]: the bytes [s] are matched by [r], and the named groups
    closed on the way are [g], the most recent first. *)

Definition within (hi : option nat) (n : nat) : Prop :=
  match hi with Some h => (n <= h)%nat | None => True end.

Inductive run : regex -> bytes -> groupdict -> Prop :=
| run_lit c : run (Lit c) [c] []
| run_cls (p : byte -> bool) c : p c = true -> run (Cls p) [c] []
| run_greedy (p : byte -> bool) lo hi s :
    Forall (fun c => p c = true) s -> (lo <= List.length s)%nat ->
    within hi (List.length s) ->
    run (Greedy p lo hi) s []
| run_lazy (p : byte -> bool) lo s :
    Forall (fun c => p c = true) s -> (lo <= List.length s)%nat ->
    run (Lazy p lo) s []
| run_cat r1 r2 s1 s2 g1 g2 :
    run r1 s1 g1 -> run r2 s2 g2 -> run (Cat r1 r2) (s1 ++ s2) (g2 ++ g1)
| run_group name r s g :
    run r s g -> run (Group name r) s ((name, s) :: g).

(** ** Concrete machines to run the functions on *)

Module Machine.

Local Open Scope string_scope.

Fixpoint assoc {A} (key : string) (l : list (string * A)) : option A :=
  match l with
  | [] => None
  | (k, v) :: l' => if String.eqb k key then Some v else assoc key l'
  end.

(** A machine with the given files and device nodes and nothing else:
    whatever is not listed does not exist. *)
Definition make (files : list (string * result bytes))
           (nodes : list (string * result Z)) : world :=
  {| open_rb := fun path =>
       match assoc path files with
       | Some r => r
       | None => Raise FileNotFoundError
       end;
     stat_rdev := fun path =>
       match assoc path nodes with
       | Some r => r
       | None => Raise FileNotFoundError
       end |}.

Definition line (s : string) : bytes := (b s ++ [x0a])%list.

(** A usual [/proc/tty/drivers]. *)
Definition drivers : bytes :=
  List.concat
    [line "/dev/tty             /dev/tty        5       0 system:/dev/tty";
     line "/dev/console         /dev/console    5       1 system:console";
     line "/dev/ptmx            /dev/ptmx       5       2 system";
     line "serial               /dev/ttyS       4 64-95 serial";
     line "pty_slave            /dev/pts      136 0-1048575 pty:slave";
     line "pty_master           /dev/ptm      128 0-1048575 pty:master";
     line "unknown              /dev/tty        4 1-63 console"].

(** Pseudo-terminal 1 has major 136 and minor 1: [0x8801]. *)
Definition pts1 : Z := 0x8801.

(** A shell on [/dev/pts/1]. *)
Definition desktop : world :=
  make [("/proc/tty/drivers", Return drivers);
        ("/proc/4242/stat",
         Return (b "4242 (bash) S 4200 4242 4242 34817 4242 4194304 1 0"))]
       [("/dev/pts/0", Return 0x8800); ("/dev/pts/1", Return pts1)].

(** Pid 1 has no terminal and its parent is pid 0, which has no record;
    pid 77 is a daemon below pid 1. *)
Definition server : world :=
  make [("/proc/tty/drivers", Return drivers);
        ("/proc/1/stat", Return (b "1 (systemd) S 0 1 1 0 -1 4194560 1"));
        ("/proc/77/stat", Return (b "77 (cron) S 1 77 77 0 -1 4194560 1"))]
       [("/dev/pts/0", Return 0x8800)].

(** Three generations without a terminal. *)
Definition detached : world :=
  make [("/proc/tty/drivers", Return drivers);
        ("/proc/300/stat", Return (b "300 (worker) S 200 100 100 0 -1 64 0"));
        ("/proc/200/stat", Return (b "200 (master) S 100 100 100 0 -1 64 0"));
        ("/proc/100/stat", Return (b "100 (runsv) S 1 100 100 0 -1 64 0"));
        ("/proc/1/stat", Return (b "1 (init) S 0 1 1 0 -1 64 0"))]
       [("/dev/pts/0", Return 0x8800)].

End Machine.

(** Two status records: one whose command name holds a close-paren, and
    one whose command name holds a newline, which [.] does not match. *)
Definition close_paren_record : bytes := b "42 (my)cmd) S 1 42 42 34816".

Definition newline_record : bytes :=
  b "42 (my" ++ [x0a] ++ b "cmd) S 1 42 42 34816".

Module Broken.

Local Open Scope string_scope.

(** The drivers table exists but may not be read. *)
Definition locked : world :=
  Machine.make [("/proc/tty/drivers", Raise PermissionError)] [].

(** The drivers table has a line without a device path. *)
Definition garbled : world :=
  Machine.make
    [("/proc/tty/drivers", Return (Machine.line "pty_slave 136 0-1048575"))] [].

End Broken.

Module Changed.

Local Open Scope string_scope.

(** [Machine.desktop] after its drivers table changed. *)
Definition desktop : world :=
  Machine.make
    [("/proc/tty/drivers",
      Return (Machine.line
                "pty_slave            /dev/other    136 0-1048575 pty:slave"))]
    [].

End Changed.

Module Restricted.

Local Open Scope string_scope.

(** Legacy and Unix98 pseudo-terminals side by side; [/dev/pts] may not
    be searched, so [stat] on a node in it is refused. *)
Definition drivers : bytes :=
  List.concat
    [Machine.line "pty_slave            /dev/ttyp       3 0-255 pty:slave";
     Machine.line "pty_master           /dev/pty        2 0-255 pty:master";
     Machine.line "pty_slave            /dev/pts      136 0-1048575 pty:slave";
     Machine.line "pty_slave            /dev/vpts     136 0-1048575 pty:slave"].

Definition host : world :=
  Machine.make
    [("/proc/tty/drivers", Return drivers);
     ("/proc/500/stat", Return (b "500 (vim) S 499 500 499 34819 500 0 0"));
     ("/proc/499/stat", Return (b "499 (bash) S 1 499 499 34819 500 0 0"))]
    [("/dev/pts/3", Raise PermissionError);
     ("/dev/vpts/3", Return 34819)].

End Restricted.

(** * The rest of the module

    What follows serves the properties of the functions beyond the ones
    above: more vocabulary, no new code. *)

From Stdlib Require DecimalPos DecimalZ.

(** ** Counting system calls *)

Definition is_drivers_open (ev : event) : bool :=
  match ev with
  | Opened path => String.eqb path drivers_path
  | Statted _ => false
  end.

Definition is_stat_call (ev : event) : bool :=
  match ev with
  | Opened _ => false
  | Statted _ => true
  end.

(** How often the drivers table was opened, and how many nodes were
    examined. *)
Definition drivers_opens (evs : list event) : nat :=
  List.length (filter is_drivers_open evs).

Definition stat_calls (evs : list event) : nat :=
  List.length (filter is_stat_call evs).

(** ** The text of a status record *)

Definition nonempty_digits (ds : bytes) : bool :=
  match ds with
  | [] => false
  | _ :: _ => forallb is_digit ds
  end.

(** The bytes that [[-+]?\d+] matches in full. *)
Definition is_int_literal (v : bytes) : bool :=
  match v with
  | [] => false
  | c :: ds => if is_sign c then nonempty_digits ds else nonempty_digits v
  end.

(** The first seven fields of [/proc/<pid>/stat], as the kernel lays them
    out. *)
Definition record_text (pid comm : bytes) (state : byte)
           (ppid pgrp session tty_nr : bytes) : bytes :=
  pid ++ b " (" ++ comm ++ b ") " ++ [state] ++ b " " ++ ppid ++ b " "
      ++ pgrp ++ b " " ++ session ++ b " " ++ tty_nr.

(** The dictionary with these seven entries. *)
Definition record_dict (pid comm : bytes) (state : byte)
           (ppid pgrp session tty_nr : bytes) : groupdict :=
  [("pid"%string, pid); ("comm"%string, comm); ("state"%string, [state]);
   ("ppid"%string, ppid); ("pgrp"%string, pgrp); ("session"%string, session);
   ("tty_nr"%string, tty_nr)].

(** Two dictionaries with the same entries. *)
Definition same_entries (d1 d2 : groupdict) : Prop :=
  forall key, getitem d1 key = getitem d2 key.

Definition is_close_paren (c : byte) : bool := (code c =? 41)%N.

(** ** The text of the drivers table *)

(** One line of [/proc/tty/drivers]: the driver name, padding, the device
    path under [/dev/], a blank and the remaining columns. *)
Record driver_entry : Type := {
  drv_name : bytes;
  drv_padding : nat;
  drv_dev : bytes;
  drv_rest : bytes
}.

Definition blanks (n : nat) : bytes := repeat " "%byte n.

Definition render_entry (e : driver_entry) : bytes :=
  drv_name e ++ blanks (S (drv_padding e)) ++ b "/dev/" ++ drv_dev e
           ++ b " " ++ drv_rest e ++ [x0a].

Definition entry_path (e : driver_entry) : bytes := b "/dev/" ++ drv_dev e.

Definition is_pty_slave (e : driver_entry) : bool :=
  bytes_eqb (drv_name e) (b "pty_slave").

(** Name and device free of white space and not empty, no newline in the
    remaining columns; the path of a pty slave line is valid UTF-8. *)
Definition entry_ok (e : driver_entry) : Prop :=
  drv_name e <> []
  /\ Forall (fun c => is_nonspace c = true) (drv_name e)
  /\ drv_dev e <> []
  /\ Forall (fun c => is_nonspace c = true) (drv_dev e)
  /\ Forall (fun c => c <> x0a) (drv_rest e)
  /\ (is_pty_slave e = true -> utf8_valid (entry_path e) = true).

Definition pty_slave_paths (entries : list driver_entry) : list string :=
  map (fun e => string_of_list_byte (entry_path e)) (filter is_pty_slave entries).

(** A folder as the enumeration yields it: [/dev/] and then at least one
    byte, none of them white space. *)
Definition is_dev_folder (folder : string) : Prop :=
  exists dev,
    folder = string_of_list_byte (b "/dev/" ++ dev)
    /\ dev <> []
    /\ Forall (fun c => is_space c = false) dev.

Module Table.

(** The lines of [Machine.drivers], column by column. *)
Definition entries : list driver_entry :=
  [{| drv_name := b "/dev/tty"; drv_padding := 12; drv_dev := b "tty";
      drv_rest := b "       5       0 system:/dev/tty" |};
   {| drv_name := b "/dev/console"; drv_padding := 8; drv_dev := b "console";
      drv_rest := b "   5       1 system:console" |};
   {| drv_name := b "/dev/ptmx"; drv_padding := 11; drv_dev := b "ptmx";
      drv_rest := b "      5       2 system" |};
   {| drv_name := b "serial"; drv_padding := 14; drv_dev := b "ttyS";
      drv_rest := b "      4 64-95 serial" |};
   {| drv_name := b "pty_slave"; drv_padding := 11; drv_dev := b "pts";
      drv_rest := b "     136 0-1048575 pty:slave" |};
   {| drv_name := b "pty_master"; drv_padding := 10; drv_dev := b "ptm";
      drv_rest := b "     128 0-1048575 pty:master" |};
   {| drv_name := b "unknown"; drv_padding := 13; drv_dev := b "tty";
      drv_rest := b "       4 1-63 console" |}].

End Table.

(** ** Ancestors *)

(** [within_hops w n pid q]: [q] is [pid] or is reached from it by at most
    [n] parent links, each read from a status record. *)
Inductive within_hops (w : world) : nat -> Z -> Z -> Prop :=
| hops_here n pid : within_hops w n pid pid
| hops_up n pid tty_nr ppid q :
    has_record w pid tty_nr ppid ->
    within_hops w n ppid q ->
    within_hops w (S n) pid q.

Module Nested.

Local Open Scope string_scope.

(** A shell on [/dev/pts/1], an editor started from it, and a job that
    left the terminal. *)
Definition host : world :=
  Machine.make
    [("/proc/tty/drivers", Return Machine.drivers);
     ("/proc/900/stat", Return (b "900 (sleep) S 4242 900 900 0 -1 0 0"));
     ("/proc/4300/stat", Return (b "4300 (vim) S 4242 4300 4242 34817 4300 0 0"));
     ("/proc/4242/stat",
      Return (b "4242 (bash) S 4200 4242 4242 34817 4242 4194304 1 0"))]
    [("/dev/pts/0", Return 0x8800); ("/dev/pts/1", Return Machine.pts1)].

End Nested.

Module Bare.

Local Open Scope string_scope.

(** A machine without pseudo-terminals: no [pty_slave] driver. *)
Definition host : world :=
  Machine.make
    [("/proc/tty/drivers",
      Return (Machine.line "serial               /dev/ttyS       4 64-95 serial"));
     ("/proc/1/stat", Return (b "1 (init) S 0 1 1 0 -1 64 0"))]
    [("/dev/ttyS/0", Return 0)].

End Bare.

(** ** Where an exception comes from *)

(** The status record of [pid] can be read and parsed, and its [tty_nr]
    converts to [tty_nr]; nothing is asked of its [ppid]. *)
Definition has_tty (w : world) (pid tty_nr : Z) : Prop :=
  exists data info,
    open_rb w (stat_path pid) = Return data
    /\ parse_stat data = Return info
    /\ field_int info "tty_nr" = Return tty_nr.

(** The field [key] of the record of [pid] has more digits than [int]
    accepts. *)
Definition too_long (w : world) (pid : Z) (key : string) : Prop :=
  exists data info v,
    open_rb w (stat_path pid) = Return data
    /\ parse_stat data = Return info
    /\ getitem info key = Return v
    /\ is_int_literal v = true
    /\ (int_max_str_digits < List.length (digits_of v))%nat.

(** The sources of an exception of [get_pty_slave] that starts in the
    state [st] at the process [pid]: the enumeration of the table;
    opening the record of the process or of an ancestor; a record that
    does not parse; a [tty_nr] or [ppid] with too many digits for [int];
    or [os.stat] failing, otherwise than with [FileNotFoundError], on a
    candidate: a folder of the table joined with the decoded minor
    number of the process or of an ancestor. *)
Definition raised_by (w : world) (st : state) (pid : Z) (e : exn) : Prop :=
  (exists st1, get_pty_slave_folders w st = (Raise e, st1))
  \/ (exists q, within_hops w 2 pid q /\ open_rb w (stat_path q) = Raise e)
  \/ (exists q data,
         within_hops w 2 pid q
         /\ open_rb w (stat_path q) = Return data
         /\ search_anchored stat_pattern data = None
         /\ e = AttributeError)
  \/ (exists q,
         within_hops w 2 pid q
         /\ (too_long w q "tty_nr" \/ too_long w q "ppid")
         /\ e = ValueError)
  \/ (exists q tty_nr folders st1 folder,
         within_hops w 2 pid q
         /\ has_tty w q tty_nr
         /\ get_pty_slave_folders w st = (Return folders, st1)
         /\ In folder folders
         /\ stat_rdev w (device_path_of folder
                                        (calculate_minor_device_number tty_nr))
            = Raise e
         /\ e <> FileNotFoundError).

(** ** Fields with too many digits *)

Module Long.

Local Open Scope string_scope.

(** A number of 4301 digits. *)
Definition digits : bytes := repeat "1"%byte 4301.

(** A record whose [ppid] is that number. *)
Definition record : bytes := (b "7 (job) S " ++ digits ++ b " 7 7 34816")%list.

(** The process on [/dev/pts/0]. *)
Definition attached : world :=
  Machine.make
    [("/proc/tty/drivers", Return Machine.drivers);
     ("/proc/7/stat", Return record)]
    [("/dev/pts/0", Return 34816)].

(** The same process without a terminal. *)
Definition detached : world :=
  Machine.make
    [("/proc/tty/drivers", Return Machine.drivers);
     ("/proc/7/stat", Return record)]
    [].

(** Three generations without a terminal; the grandparent is that
    process. *)
Definition chain : world :=
  Machine.make
    [("/proc/tty/drivers", Return Machine.drivers);
     ("/proc/9/stat", Return (b "9 (sh) S 8 9 9 0"));
     ("/proc/8/stat", Return (b "8 (sh) S 7 8 8 0"));
     ("/proc/7/stat", Return record)]
    [].

End Long.

(** ** A malformed record behind an unreadable table *)

Module Locked.

Local Open Scope string_scope.

(** The drivers table may not be read, and the record of pid 42 has a
    newline in its command name. *)
Definition host : world :=
  Machine.make
    [("/proc/tty/drivers", Raise PermissionError);
     ("/proc/42/stat", Return newline_record)]
    [].

End Locked.

(** * media_layer/tmux_util.py

    The clients of the tmux pane the program runs in.  The environment
    and the [tmux] command are an environment of their own; [int] on a
    [str], which also accepts white space, underscores and the decimal
    digits of every script, is a parameter of the model. *)

Module Tmux.

Local Open Scope string_scope.

(** The exceptions of [process.py] and two more. *)
Inductive error : Type :=
| Os (e : exn)
| TypeError
| CalledProcessError (returncode : Z).

Inductive outcome (A : Type) : Type :=
| Done (a : A)
| Failed (e : error).
Arguments Done {A} a.
Arguments Failed {A} e.

(** [environ name] is [os.environ.get(name)]; [run argv] is what
    [subprocess.check_output(argv)] gives for a list of strings: the
    standard output of the command, or the exception raised (the command
    is missing, it exits with a status other than 0, ...). *)
Record host : Type := {
  environ : string -> option string;
  run : list string -> outcome bytes
}.

(** Lines 10-15. *)
Definition get_pane (h : host) : option string := environ h "TMUX_PANE".

(** Lines 5-7. *)
Definition is_used (h : host) : bool :=
  match get_pane h with
  | Some _ => true
  | None => false
  end.

Fixpoint all_strings (argv : list (option string)) : option (list string) :=
  match argv with
  | [] => Some []
  | Some a :: argv' => option_map (cons a) (all_strings argv')
  | None :: _ => None
  end.

(** [subprocess.check_output]: an argument that is [None] is refused with
    [TypeError] before anything is run. *)
Definition check_output (h : host) (argv : list (option string)) : outcome bytes :=
  match all_strings argv with
  | Some args => run h args
  | None => Failed TypeError
  end.

Definition decode_output (out : bytes) : outcome string :=
  match decode out with
  | Return text => Done text
  | Raise e => Failed (Os e)
  end.

(** [str.splitlines()]: the line boundaries are [\n], [\r], [\r\n], [\v],
    [\f], [\x1c], [\x1d], [\x1e], [\x85], [U+2028] and [U+2029]; the last
    three are the byte sequences [C2 85], [E2 80 A8] and [E2 80 A9] of
    the encoding.  The boundaries are not part of the lines, and nothing
    follows the last boundary. *)
Definition is_line_boundary (c : ascii) : bool :=
  let n := N_of_ascii c in
  ((n =? 10) || (n =? 11) || (n =? 12) || (n =? 28) || (n =? 29) || (n =? 30))%N.

Definition push (cur : string) (c : ascii) : string := cur ++ String c "".

Fixpoint splitlines_from (cur : string) (s : string) : list string :=
  match s with
  | "" => match cur with "" => [] | _ => [cur] end
  | String c rest =>
      if (N_of_ascii c =? 13)%N then
        match rest with
        | String c' rest' =>
            if (N_of_ascii c' =? 10)%N then cur :: splitlines_from "" rest'
            else cur :: splitlines_from "" rest
        | "" => cur :: splitlines_from "" rest
        end
      else if is_line_boundary c then cur :: splitlines_from "" rest
      else if (N_of_ascii c =? 0xC2)%N then
        match rest with
        | String c' rest' =>
            if (N_of_ascii c' =? 0x85)%N then cur :: splitlines_from "" rest'
            else splitlines_from (push cur c) rest
        | "" => splitlines_from (push cur c) rest
        end
      else if (N_of_ascii c =? 0xE2)%N then
        match rest with
        | String c1 (String c2 rest') =>
            if ((N_of_ascii c1 =? 0x80)
                && ((N_of_ascii c2 =? 0xA8) || (N_of_ascii c2 =? 0xA9)))%N
            then cur :: splitlines_from "" rest'
            else splitlines_from (push cur c) rest
        | _ => splitlines_from (push cur c) rest
        end
      else splitlines_from (push cur c) rest
  end.

Definition splitlines (s : string) : list string := splitlines_from "" s.

(** [str.split(',')]. *)
Fixpoint split_from (cur : string) (s : string) : list string :=
  match s with
  | "" => [cur]
  | String c rest =>
      if (N_of_ascii c =? 44)%N then cur :: split_from "" rest
      else split_from (push cur c) rest
  end.

Definition split_comma (s : string) : list string := split_from "" s.

(** A [dict] with integer keys: setting a key that is present replaces
    its value in place, a new key goes to the end. *)
Definition dict : Type := list (Z * string).

Fixpoint dict_set (d : dict) (key : Z) (value : string) : dict :=
  match d with
  | [] => [(key, value)]
  | (k, v) :: d' =>
      if (k =? key)%Z then (key, value) :: d' else (k, v) :: dict_set d' key value
  end.

Fixpoint dict_get (d : dict) (key : Z) : option string :=
  match d with
  | [] => None
  | (k, v) :: d' => if (k =? key)%Z then Some v else dict_get d' key
  end.

Section Clients.

(** [int] applied to a [str]. *)
Variable py_int : string -> result Z.

(** The list comprehension of lines 22-27. *)
Fixpoint ints_of (lines : list string) : outcome (list Z) :=
  match lines with
  | [] => Done []
  | pid :: rest =>
      match py_int pid with
      | Raise e => Failed (Os e)
      | Return n =>
          match ints_of rest with
          | Done ns => Done (n :: ns)
          | Failed e => Failed e
          end
      end
  end.

(** Lines 18-27. *)
Definition get_clients (h : host) : outcome (list Z) :=
  match check_output h [Some "tmux"; Some "list-clients"; Some "-F";
                        Some "#{client_pid}"; Some "-t"; get_pane h] with
  | Failed e => Failed e
  | Done out =>
      match decode_output out with
      | Failed e => Failed e
      | Done text => ints_of (splitlines text)
      end
  end.

(** The dict comprehension of lines 34-41: each line is split at the
    commas and unpacked into [pid, tty], which fails with [ValueError]
    unless there are exactly two parts. *)
Fixpoint ttys_of (lines : list string) (d : dict) : outcome dict :=
  match lines with
  | [] => Done d
  | pid_tty :: rest =>
      match split_comma pid_tty with
      | [pid; tty] =>
          match py_int pid with
          | Raise e => Failed (Os e)
          | Return n => ttys_of rest (dict_set d n tty)
          end
      | _ => Failed (Os ValueError)
      end
  end.

(** Lines 30-41. *)
Definition get_client_ttys_by_pid (h : host) : outcome dict :=
  match check_output h [Some "tmux"; Some "list-clients"; Some "-F";
                        Some "#{client_pid},#{client_tty}"; Some "-t";
                        get_pane h] with
  | Failed e => Failed e
  | Done out =>
      match decode_output out with
      | Failed e => Failed e
      | Done text => ttys_of (splitlines text) []
      end
  end.

End Clients.

(** One line of the output of [tmux list-clients]. *)
Definition client_line (pid tty : string) : string := pid ++ "," ++ tty.

(** A byte of a line of text: ASCII and no line boundary.  It is plain
    when it is no comma either. *)
Definition is_text (c : ascii) : bool :=
  let n := N_of_ascii c in
  ((n <? 128) && negb (n =? 13) && negb (is_line_boundary c))%N.

Definition is_plain (c : ascii) : bool :=
  is_text c && negb (N_of_ascii c =? 44)%N.

Fixpoint all_text (s : string) : bool :=
  match s with
  | "" => true
  | String c rest => is_text c && all_text rest
  end.

Fixpoint all_plain (s : string) : bool :=
  match s with
  | "" => true
  | String c rest => is_plain c && all_plain rest
  end.

(** The number of commas in a string. *)
Fixpoint commas (s : string) : nat :=
  match s with
  | "" => O
  | String c rest =>
      if (N_of_ascii c =? 44)%N then S (commas rest) else commas rest
  end.

(** The text of the lines, each ended by a newline. *)
Fixpoint unlines (lines : list string) : string :=
  match lines with
  | [] => ""
  | l :: rest => l ++ String "010"%char (unlines rest)
  end.

(** The value the dictionary ends up with for a key: that of the last
    entry with that key. *)
Fixpoint last_value (entries : list (Z * string)) (key : Z) : option string :=
  match entries with
  | [] => None
  | (k, v) :: rest =>
      match last_value rest key with
      | Some v' => Some v'
      | None => if (k =? key)%Z then Some v else None
      end
  end.

(** The dictionary after a run of assignments. *)
Definition assign (d : dict) (entries : list (Z * string)) : dict :=
  fold_left (fun d e => dict_set d (fst e) (snd e)) entries d.

(** A machine in pane [%3] with two clients, one of them listed twice. *)
Definition in_pane : host :=
  {| environ := fun name => if String.eqb name "TMUX_PANE" then Some "%3" else None;
     run := fun argv =>
       match argv with
       | ["tmux"; "list-clients"; "-F"; "#{client_pid}"; "-t"; "%3"] =>
           Done (list_byte_of_string (unlines ["4242"; "4300"; "4242"]))
       | ["tmux"; "list-clients"; "-F"; "#{client_pid},#{client_tty}"; "-t"; "%3"] =>
           Done (list_byte_of_string
                   (unlines ["4242,/dev/pts/1"; "4300,/dev/pts/2";
                             "4242,/dev/pts/7"]))
       | _ => Failed (CalledProcessError 1)
       end |}.

(** The same machine outside tmux. *)
Definition outside : host :=
  {| environ := fun _ => None; run := run in_pane |}.

(** A client whose terminal has a comma in its path. *)
Definition odd_tty : host :=
  {| environ := environ in_pane;
     run := fun argv =>
       Done (list_byte_of_string (unlines ["4242,/dev/pts/1"; "4300,/tmp/a,b"])) |}.

(** [int] on plain decimal text, enough for the examples. *)
Definition int_of_text (s : string) : result Z := int (list_byte_of_string s).

End Tmux.

(** * Properties *)

(** ** The decoder *)

Lemma shift_amount : TTY_NR_BITS - SHIFTED_BITS - FIRST_BITS = 12.
Proof. reflexivity. Qed.

Lemma low_byte_is_mod (n : Z) : Z.land n FIRST_BITS_MASK = n mod 2 ^ 8.
Proof. exact (Z.land_ones n 8 ltac:(lia)). Qed.

Lemma mask_is_shifted_ones : SHIFTED_BITS_MASK = Z.shiftl (Z.ones 12) 20.
Proof. reflexivity. Qed.

Lemma testbit_above_32 (n k : Z) :
  0 <= n < 2 ^ 32 -> 32 <= k -> Z.testbit n k = false.
Proof.
  intros Hn Hk.
  destruct (Z.eq_dec n 0) as [->|Hnz]; [apply Z.bits_0|].
  apply Z.bits_above_log2; [lia|].
  assert (Z.log2 n < 32) by (apply Z.log2_lt_pow2; lia).
  lia.
Qed.

(** On a 32-bit value the mask [0xFFF00000] keeps exactly the bits from
    position 20 upwards. *)
Lemma high_bits_are_quotient (n : Z) :
  0 <= n < 2 ^ 32 ->
  Z.land n SHIFTED_BITS_MASK = Z.shiftl (Z.shiftr n 20) 20.
Proof.
  intros Hn.
  apply Z.bits_inj'. intros k Hk.
  rewrite Z.land_spec, mask_is_shifted_ones.
  destruct (Z.lt_ge_cases k 20) as [Hlow|Hhigh].
  - rewrite !Z.shiftl_spec_low by lia. apply andb_false_r.
  - rewrite !Z.shiftl_spec, Z.shiftr_spec by lia.
    replace (k - 20 + 20) with k by lia.
    destruct (Z.lt_ge_cases k 32) as [Hin|Hout].
    + rewrite Z.ones_spec_low by lia. apply andb_true_r.
    + rewrite Z.ones_spec_high by lia.
      rewrite (testbit_above_32 n k Hn Hout). reflexivity.
Qed.

Lemma high_bits_shifted (n : Z) :
  0 <= n < 2 ^ 32 ->
  Z.shiftr (Z.land n SHIFTED_BITS_MASK) 12 = 2 ^ 8 * (n / 2 ^ 20).
Proof.
  intros Hn.
  rewrite (high_bits_are_quotient n Hn).
  rewrite Z.shiftr_div_pow2, Z.shiftl_mul_pow2, Z.shiftr_div_pow2 by lia.
  replace (2 ^ 20) with (2 ^ 8 * 2 ^ 12) at 2 by reflexivity.
  rewrite Z.mul_assoc, Z.div_mul by lia.
  lia.
Qed.

(** C1.  For every terminal identifier [id] with [0 <= id <= 2^32 - 1],
    [calculate_minor_device_number id] is
    [(id & 0xFF) + ((id & 0xFFF00000) >> 12)].  The function is a total
    function of its argument alone (its result is a plain integer, there
    is no error outcome); on that range the result is the 20-bit number
    whose low byte is the low byte of [id] and whose upper twelve bits are
    bits 20 to 31 of [id]. *)
Theorem calculate_minor_device_number_formula (id : Z) :
  0 <= id <= 2 ^ 32 - 1 ->
  calculate_minor_device_number id
    = Z.land id 0xFF + Z.shiftr (Z.land id 0xFFF00000) 12
  /\ calculate_minor_device_number id = id mod 2 ^ 8 + 2 ^ 8 * (id / 2 ^ 20)
  /\ 0 <= calculate_minor_device_number id < 2 ^ 20.
Proof.
  intros Hid.
  assert (Hr : 0 <= id < 2 ^ 32) by lia.
  unfold calculate_minor_device_number.
  rewrite shift_amount.
  split; [reflexivity|].
  rewrite low_byte_is_mod, (high_bits_shifted id Hr).
  split; [reflexivity|].
  pose proof (Z.mod_pos_bound id (2 ^ 8) ltac:(lia)) as Hl.
  assert (Hq : 0 <= id / 2 ^ 20 < 2 ^ 12).
  { split; [apply Z.div_pos; lia | apply Z.div_lt_upper_bound; lia]. }
  lia.
Qed.

Lemma calculate_minor_device_number_formula_witness :
  calculate_minor_device_number 0x12300045
    = Z.land 0x12300045 0xFF + Z.shiftr (Z.land 0x12300045 0xFFF00000) 12
  /\ calculate_minor_device_number 0x12300045
     = 0x12300045 mod 2 ^ 8 + 2 ^ 8 * (0x12300045 / 2 ^ 20)
  /\ 0 <= calculate_minor_device_number 0x12300045 < 2 ^ 20.
Proof.
  apply (calculate_minor_device_number_formula 0x12300045). lia.
Defined.

(** C2 (as stated).  The identifier [0x00088801] does not decode to 137:
    the byte [0x88] sits in bits 8 to 15, which neither mask keeps. *)
Lemma decode_0x00088801_is_not_137 :
  calculate_minor_device_number 0x00088801 <> 137.
Proof. vm_compute. discriminate. Qed.

(** C2 (amended).  [calculate_minor_device_number 0x00088801] is [0x01 = 1]:
    only the low byte contributes, since bits 20 to 31 of the identifier
    are zero and its byte [0x88] lies in bits 8 to 15. *)
Theorem decode_0x00088801 :
  calculate_minor_device_number 0x00088801 = 0x01
  /\ Z.land 0x00088801 SHIFTED_BITS_MASK = 0
  /\ Z.land (Z.shiftr 0x00088801 8) 0xFF = 0x88.
Proof. repeat split. Qed.

(** ** The matcher *)

Lemma greedy_sound {R} (p : byte -> bool) s :
  forall lo hi (k : bytes -> option R) r,
    greedy p lo hi s k = Some r ->
    exists pre s',
      s = pre ++ s' /\ Forall (fun c => p c = true) pre
      /\ (lo <= List.length pre)%nat /\ within hi (List.length pre)
      /\ k s' = Some r.
Proof.
  assert (Hstop : forall lo hi (t : bytes) (k : bytes -> option R) r,
             match lo with O => k t | S _ => None end = Some r ->
             exists pre s',
               t = pre ++ s' /\ Forall (fun c => p c = true) pre
               /\ (lo <= List.length pre)%nat /\ within hi (List.length pre)
               /\ k s' = Some r).
  { intros lo hi t k r H. destruct lo; [|discriminate].
    exists [], t. repeat split; auto.
    destruct hi; simpl; auto. apply Nat.le_0_l. }
  induction s as [|c s IH]; intros lo hi k r H.
  - simpl in H. now apply Hstop.
  - simpl in H.
    destruct (p c && may_take hi) eqn:Hc; [|now apply Hstop].
    destruct (greedy p (Nat.pred lo) (option_map Nat.pred hi) s k) as [r'|] eqn:Hg;
      [|now apply Hstop].
    inversion H; subst r'. clear H.
    apply andb_prop in Hc as [Hp Hm].
    destruct (IH _ _ _ _ Hg) as (pre & s' & -> & Hall & Hlo & Hhi & Hk).
    exists (c :: pre), s'. repeat split; auto.
    + simpl. lia.
    + destruct hi as [[|h]|]; simpl in *; try discriminate; auto. lia.
Qed.

Lemma lazy_sound {R} (p : byte -> bool) s :
  forall lo (k : bytes -> option R) r,
    lazy p lo s k = Some r ->
    exists pre s',
      s = pre ++ s' /\ Forall (fun c => p c = true) pre
      /\ (lo <= List.length pre)%nat /\ k s' = Some r.
Proof.
  induction s as [|c s IH]; intros lo k r H.
  - destruct lo; simpl in H; [|discriminate].
    destruct (k []) eqn:Hk; [|discriminate].
    exists [], []. repeat split; auto. congruence.
  - assert (Hmore : (if p c then lazy p (Nat.pred lo) s k else None) = Some r ->
                    exists pre s',
                      c :: s = pre ++ s' /\ Forall (fun c => p c = true) pre
                      /\ (lo <= List.length pre)%nat /\ k s' = Some r).
    { destruct (p c) eqn:Hp; [|discriminate]. intros Hl.
      destruct (IH _ _ _ Hl) as (pre & s' & -> & Hall & Hlo & Hk).
      exists (c :: pre), s'. repeat split; auto. simpl. lia. }
    destruct lo; simpl in H.
    + destruct (k (c :: s)) eqn:Hk.
      * exists [], (c :: s). repeat split; auto. congruence.
      * now apply Hmore.
    + now apply Hmore.
Qed.

Lemma firstn_consumed (pre s' : bytes) :
  List.firstn (List.length (pre ++ s') - List.length s') (pre ++ s') = pre.
Proof.
  rewrite length_app, Nat.add_sub, firstn_app, Nat.sub_diag, firstn_all.
  simpl. apply app_nil_r.
Qed.

(** Whatever [exec] answers was produced by its continuation, after a
    prefix of the data that [r] matches. *)
Lemma exec_sound r :
  forall s caps k d,
    exec r s caps k = Some d ->
    exists pre s' g,
      s = pre ++ s' /\ run r pre g /\ k s' (g ++ caps) = Some d.
Proof.
  induction r as [c|p|p lo hi|p lo|r1 IH1 r2 IH2|name r1 IH1];
    intros s caps k d H; simpl in H.
  - destruct s as [|c' s']; [discriminate|].
    destruct (Byte.eqb c' c) eqn:He; [|discriminate].
    apply Byte.byte_dec_bl in He. subst c'.
    exists [c], s', []. repeat split; auto. constructor.
  - destruct s as [|c' s']; [discriminate|].
    destruct (p c') eqn:Hp; [|discriminate].
    exists [c'], s', []. repeat split; auto. now constructor.
  - apply greedy_sound in H as (pre & s' & -> & Hall & Hlo & Hhi & Hk).
    exists pre, s', []. repeat split; auto. now constructor.
  - apply lazy_sound in H as (pre & s' & -> & Hall & Hlo & Hk).
    exists pre, s', []. repeat split; auto. now constructor.
  - apply IH1 in H as (pre1 & s1 & g1 & -> & Hr1 & H).
    apply IH2 in H as (pre2 & s2 & g2 & -> & Hr2 & H).
    exists (pre1 ++ pre2), s2, (g2 ++ g1). repeat split.
    + now rewrite app_assoc.
    + now constructor.
    + now rewrite <- app_assoc.
  - apply IH1 in H as (pre & s' & g & -> & Hr & H).
    rewrite firstn_consumed in H.
    exists pre, s', ((name, pre) :: g). repeat split; auto. now constructor.
Qed.

Lemma search_anchored_sound r data d :
  search_anchored r data = Some d ->
  exists pre rest, data = pre ++ rest /\ run r pre d.
Proof.
  intros H. apply exec_sound in H as (pre & s' & g & -> & Hr & H).
  rewrite app_nil_r in H. inversion H; subst. now exists pre, s'.
Qed.

(** *** Captured integers convert unless they are too long *)

Lemma digits_value_total s :
  Forall (fun c => is_digit c = true) s ->
  forall acc, exists z, digits_value acc s = Some z.
Proof.
  induction 1 as [|c s Hc _ IH]; intros acc; simpl.
  - now exists acc.
  - rewrite Hc. apply IH.
Qed.

Lemma unsigned_value_total s :
  Forall (fun c => is_digit c = true) s -> (1 <= List.length s)%nat ->
  exists z, unsigned_value s = Some z.
Proof.
  intros Hall Hlen. destruct s as [|c s]; [simpl in Hlen; lia|].
  apply digits_value_total. exact Hall.
Qed.

Lemma digit_is_no_sign c :
  is_digit c = true -> (code c =? 45)%N = false /\ (code c =? 43)%N = false.
Proof.
  unfold is_digit. intros H. apply andb_prop in H as [H1 H2].
  apply N.leb_le in H1. split; apply N.eqb_neq; lia.
Qed.

Lemma int_group_run name v g :
  run (int_group name) v g ->
  g = [(name, v)]
  /\ exists z,
      int v = if (List.length (digits_of v) <=? int_max_str_digits)%nat
              then Return z else Raise ValueError.
Proof.
  unfold int_group. intros H.
  inversion H as [| | | | |? ? ? g0 H0]; subst. clear H.
  inversion H0 as [| | | |? ? sg ds g1 g2 H1 H2|]; subst. clear H0.
  inversion H1 as [| |? ? ? ? Hsg _ Hsglen| | |]; subst. clear H1.
  inversion H2 as [| |? ? ? ? Hds Hdslen _| | |]; subst. clear H2.
  split; [reflexivity|].
  destruct (unsigned_value_total ds Hds Hdslen) as [z Hz].
  unfold int.
  destruct sg as [|c [|c' sg]]; simpl in Hsglen; try lia.
  - destruct ds as [|c ds]; [simpl in Hdslen; lia|].
    inversion Hds as [|? ? Hc _]; subst.
    destruct (digit_is_no_sign c Hc) as [E45 E43].
    cbn [app]. rewrite E45, E43, Hz. now exists z.
  - cbn [app].
    destruct (code c =? 45)%N eqn:H45.
    + rewrite Hz. now exists (- z).
    + inversion Hsg as [|? ? Hc _]; subst.
      unfold is_sign in Hc. rewrite H45 in Hc. simpl in Hc. rewrite Hc.
      rewrite Hz. now exists z.
Qed.

Lemma stat_pattern_shape :
  stat_pattern
  = Cat (int_group "pid")
   (Cat (Lit " "%byte)
   (Cat (Lit "("%byte)
   (Cat (Group "comm" (Greedy is_dot 0 (Some MAX_PROCESS_NAME_LENGTH)))
   (Cat (Lit ")"%byte)
   (Cat (Lit " "%byte)
   (Cat (Group "state" (Cls is_dot))
   (Cat (Lit " "%byte)
   (Cat (int_group "ppid")
   (Cat (Lit " "%byte)
   (Cat (int_group "pgrp")
   (Cat (Lit " "%byte)
   (Cat (int_group "session")
   (Cat (Lit " "%byte)
        (int_group "tty_nr")))))))))))))).
Proof. reflexivity. Qed.

Ltac invert_run :=
  repeat match goal with
         | H : run (Cat _ _) _ _ |- _ => inversion H; subst; clear H
         | H : run (Group _ (Greedy _ _ _)) _ _ |- _ => inversion H; subst; clear H
         | H : run (Group _ (Cls _)) _ _ |- _ => inversion H; subst; clear H
         | H : run (Lit _) _ _ |- _ => inversion H; subst; clear H
         | H : run (Cls _) _ _ |- _ => inversion H; subst; clear H
         | H : run (int_group _) _ _ |- _ =>
             apply int_group_run in H; destruct H as [-> [? ?]]
         end.

(** Every record that parses has the fields that [get_pty_slave] reads,
    so that no [KeyError] can follow a successful [get_info]; each of the
    two integers converts unless it has more than [int_max_str_digits]
    digits; and the command name is at most [MAX_PROCESS_NAME_LENGTH]
    bytes long. *)
Lemma parse_stat_fields data info :
  parse_stat data = Return info ->
  (exists tty_nr ppid tty_value ppid_value,
      getitem info "tty_nr" = Return tty_nr
      /\ getitem info "ppid" = Return ppid
      /\ int tty_nr
         = (if (List.length (digits_of tty_nr) <=? int_max_str_digits)%nat
            then Return tty_value else Raise ValueError)
      /\ int ppid
         = (if (List.length (digits_of ppid) <=? int_max_str_digits)%nat
            then Return ppid_value else Raise ValueError))
  /\ exists comm,
      getitem info "comm" = Return comm
      /\ (List.length comm <= MAX_PROCESS_NAME_LENGTH)%nat.
Proof.
  unfold parse_stat.
  destruct (search_anchored stat_pattern data) as [d|] eqn:Hs; [|discriminate].
  intros H. inversion H; subst d. clear H.
  apply search_anchored_sound in Hs as (pre & rest & _ & Hr).
  rewrite stat_pattern_shape in Hr.
  invert_run.
  match goal with
  | H : run (Greedy is_dot _ _) ?c _ |- _ =>
      inversion H as [| |? ? ? ? _ _ Hlen| | |]; subst; clear H
  end.
  cbn [app getitem String.eqb Ascii.eqb Bool.eqb].
  split.
  - do 4 eexists. repeat split; eassumption.
  - eexists. split; [reflexivity|]. exact Hlen.
Qed.

(** ** System calls and the log *)

Lemma logs_nil st : logs st [] = st.
Proof. destruct st. unfold logs. simpl. now rewrite app_nil_r. Qed.

Lemma logs_logs st evs1 evs2 : logs (logs st evs1) evs2 = logs st (evs1 ++ evs2).
Proof. unfold logs. simpl. now rewrite app_assoc. Qed.

Lemma stat_path_not_drivers pid : String.eqb (stat_path pid) drivers_path = false.
Proof.
  unfold stat_path, str.
  destruct (Z.to_int pid) as [u|u]; destruct u; reflexivity.
Qed.

Lemma filter_statted paths : filter is_stat_open (map Statted paths) = [].
Proof. induction paths; simpl; auto. Qed.

Lemma filter_stat_open pid : is_stat_open (Opened (stat_path pid)) = true.
Proof. unfold is_stat_open. now rewrite stat_path_not_drivers. Qed.

(** *** One system call at a time *)

Lemma get_info_ok w pid st data info :
  open_rb w (stat_path pid) = Return data ->
  parse_stat data = Return info ->
  get_info w pid st = (Return info, logs st [Opened (stat_path pid)]).
Proof.
  intros Ho Hp. unfold get_info, bind, read_file, lift.
  now rewrite Ho, Hp.
Qed.

Lemma get_info_unreadable w pid st e :
  open_rb w (stat_path pid) = Raise e ->
  get_info w pid st = (Raise e, logs st [Opened (stat_path pid)]).
Proof.
  intros Ho. unfold get_info, bind, read_file. now rewrite Ho.
Qed.

Lemma get_info_malformed w pid st data :
  open_rb w (stat_path pid) = Return data ->
  search_anchored stat_pattern data = None ->
  get_info w pid st = (Raise AttributeError, logs st [Opened (stat_path pid)]).
Proof.
  intros Ho Hp. unfold get_info, bind, read_file, lift, parse_stat.
  now rewrite Ho, Hp.
Qed.

(** The cache once filled answers every later call, whatever the world. *)
Lemma folders_cached w st folders :
  folders_cache st = Some folders ->
  get_pty_slave_folders w st = (Return folders, st).
Proof. intros Hc. unfold get_pty_slave_folders. now rewrite Hc. Qed.

Lemma folders_fill_cache w st folders st1 :
  get_pty_slave_folders w st = (Return folders, st1) ->
  folders_cache st1 = Some folders.
Proof.
  unfold get_pty_slave_folders.
  destruct (folders_cache st) as [paths|] eqn:Hc.
  - intros H. inversion H; subst. exact Hc.
  - destruct (get_pty_slave_folders_uncached w st) as [[paths|e] st'].
    + intros H. inversion H; subst. reflexivity.
    + discriminate.
Qed.

(** *** The scan *)

Lemma scan_skip w tty_nr minor folder rest st :
  skipped w tty_nr (device_path_of folder minor) ->
  scan_folders w tty_nr minor (folder :: rest) st
  = scan_folders w tty_nr minor rest
                 (logs st [Statted (device_path_of folder minor)]).
Proof.
  intros Hs. simpl.
  unfold bind at 1. unfold try_except_FileNotFoundError, bind, os_stat, ret.
  destruct Hs as [Hs|[rdev [Hs Hne]]]; rewrite Hs; simpl.
  - reflexivity.
  - apply Z.eqb_neq in Hne. rewrite Z.eqb_sym in Hne. rewrite Hne. reflexivity.
Qed.

Lemma scan_accept w tty_nr minor folder rest st :
  stat_rdev w (device_path_of folder minor) = Return tty_nr ->
  scan_folders w tty_nr minor (folder :: rest) st
  = (Return (Some (device_path_of folder minor)),
     logs st [Statted (device_path_of folder minor)]).
Proof.
  intros Hs. simpl.
  unfold bind at 1. unfold try_except_FileNotFoundError, bind, os_stat, ret.
  rewrite Hs, Z.eqb_refl. reflexivity.
Qed.

Lemma scan_error w tty_nr minor folder rest st e :
  stat_rdev w (device_path_of folder minor) = Raise e ->
  is_FileNotFoundError e = false ->
  scan_folders w tty_nr minor (folder :: rest) st
  = (Raise e, logs st [Statted (device_path_of folder minor)]).
Proof.
  intros Hs He. simpl.
  unfold bind at 1. unfold try_except_FileNotFoundError, bind, os_stat, ret.
  rewrite Hs, He. reflexivity.
Qed.

Lemma scan_all_skipped w tty_nr minor folders rest st :
  Forall (skipped w tty_nr) (paths_of folders minor) ->
  scan_folders w tty_nr minor (folders ++ rest) st
  = scan_folders w tty_nr minor rest
                 (logs st (map Statted (paths_of folders minor))).
Proof.
  revert st. induction folders as [|folder folders IH]; intros st Hall.
  - simpl. now rewrite logs_nil.
  - inversion Hall as [|? ? Hs Hrest]; subst.
    change ((folder :: folders) ++ rest) with (folder :: (folders ++ rest)).
    rewrite (scan_skip _ _ _ _ _ _ Hs), (IH _ Hrest), logs_logs.
    reflexivity.
Qed.

Lemma scan_none w tty_nr minor folders st :
  Forall (skipped w tty_nr) (paths_of folders minor) ->
  scan_folders w tty_nr minor folders st
  = (Return None, logs st (map Statted (paths_of folders minor))).
Proof.
  intros Hall.
  rewrite <- (app_nil_r folders) at 1.
  now rewrite (scan_all_skipped _ _ _ _ [] _ Hall).
Qed.

(** *** One level of the ancestry walk *)

Lemma field_int_inv info key z :
  field_int info key = Return z ->
  exists v, getitem info key = Return v /\ int v = Return z.
Proof.
  unfold field_int. destruct (getitem info key) as [v|e]; [|discriminate].
  intros H. now exists v.
Qed.

(** With the directory table at hand and a well-formed record, a call
    reads the record, scans, and then returns, raises or moves on to the
    parent. *)
Lemma level_unfold fuel w pid depth st folders st1 tty_nr ppid :
  get_pty_slave_folders w st = (Return folders, st1) ->
  has_record w pid tty_nr ppid ->
  get_pty_slave_rec (S fuel) w pid depth st
  = match scan_folders w tty_nr (calculate_minor_device_number tty_nr) folders
                       (logs st1 [Opened (stat_path pid)]) with
    | (Return (Some device_path), st3) => (Return (Some device_path), st3)
    | (Return None, st3) =>
        if depth =? 2 then (Return None, st3)
        else get_pty_slave_rec fuel w ppid (depth + 1) st3
    | (Raise e, st3) => (Raise e, st3)
    end.
Proof.
  intros Hf (data & info & Ho & Hp & Ht & Hpp).
  apply field_int_inv in Ht as (vt & Hgt & Hit).
  apply field_int_inv in Hpp as (vp & Hgp & Hip).
  cbn [get_pty_slave_rec].
  unfold bind at 1. rewrite Hf.
  unfold bind at 1. rewrite (get_info_ok _ _ _ _ _ Ho Hp).
  unfold bind at 1. unfold lift at 1. rewrite Hgt.
  unfold bind at 1. unfold lift at 1. rewrite Hit.
  unfold bind at 1.
  destruct (scan_folders _ _ _ _ _) as [[[device_path|]|e] st3]; try reflexivity.
  destruct (depth =? 2); [reflexivity|].
  unfold bind at 1. unfold lift at 1. rewrite Hgp.
  unfold bind at 1. unfold lift at 1. rewrite Hip.
  reflexivity.
Qed.

Lemma level_record_error fuel w pid depth st folders st1 e :
  get_pty_slave_folders w st = (Return folders, st1) ->
  get_info w pid st1 = (Raise e, logs st1 [Opened (stat_path pid)]) ->
  get_pty_slave_rec (S fuel) w pid depth st
  = (Raise e, logs st1 [Opened (stat_path pid)]).
Proof.
  intros Hf Hi.
  cbn [get_pty_slave_rec].
  unfold bind at 1. rewrite Hf.
  unfold bind at 1. rewrite Hi. reflexivity.
Qed.

Lemma level_table_error fuel w pid depth st st1 e :
  get_pty_slave_folders w st = (Raise e, st1) ->
  get_pty_slave_rec (S fuel) w pid depth st = (Raise e, st1).
Proof.
  intros Hf. cbn [get_pty_slave_rec]. unfold bind at 1. now rewrite Hf.
Qed.

Lemma level_no_match fuel w pid depth st folders st1 tty_nr ppid :
  get_pty_slave_folders w st = (Return folders, st1) ->
  has_record w pid tty_nr ppid ->
  no_match w tty_nr folders ->
  get_pty_slave_rec (S fuel) w pid depth st
  = if depth =? 2 then (Return None, after_level st1 pid tty_nr folders)
    else get_pty_slave_rec fuel w ppid (depth + 1)
                           (after_level st1 pid tty_nr folders).
Proof.
  intros Hf Hr Hn.
  rewrite (level_unfold _ _ _ _ _ _ _ _ _ Hf Hr).
  unfold no_match, candidates in Hn.
  rewrite (scan_none _ _ _ _ _ Hn), logs_logs.
  reflexivity.
Qed.

Lemma after_level_cached st1 pid tty_nr folders w :
  folders_cache st1 = Some folders ->
  get_pty_slave_folders w (after_level st1 pid tty_nr folders)
  = (Return folders, after_level st1 pid tty_nr folders).
Proof. intros Hc. now apply folders_cached. Qed.

Lemma recursion_limit_unfold : recursion_limit = S (S (S 997)).
Proof. reflexivity. Qed.

(** ** The status record *)

(** ** The match scan *)

Lemma scan_found_inv w tty_nr minor folders :
  forall st device_path st',
    scan_folders w tty_nr minor folders st = (Return (Some device_path), st') ->
    exists before folder rest,
      folders = before ++ folder :: rest
      /\ device_path = device_path_of folder minor
      /\ stat_rdev w device_path = Return tty_nr
      /\ Forall (skipped w tty_nr) (paths_of before minor)
      /\ st' = logs st (map Statted (paths_of (before ++ [folder]) minor)).
Proof.
  induction folders as [|folder folders IH]; intros st device_path st' H.
  - discriminate.
  - assert (Hskip : skipped w tty_nr (device_path_of folder minor) ->
                    exists before folder0 rest,
                      folder :: folders = before ++ folder0 :: rest
                      /\ device_path = device_path_of folder0 minor
                      /\ stat_rdev w device_path = Return tty_nr
                      /\ Forall (skipped w tty_nr) (paths_of before minor)
                      /\ st' = logs st (map Statted
                                          (paths_of (before ++ [folder0]) minor))).
    { intros Hs. rewrite (scan_skip _ _ _ _ _ _ Hs) in H.
      apply IH in H as (before & folder0 & rest & -> & -> & Hr & Hall & ->).
      exists (folder :: before), folder0, rest. repeat split; auto.
      - simpl. constructor; assumption.
      - now rewrite logs_logs. }
    destruct (stat_rdev w (device_path_of folder minor)) as [rdev|e] eqn:Hs.
    + destruct (Z.eq_dec rdev tty_nr) as [->|Hne].
      * rewrite (scan_accept _ _ _ _ _ _ Hs) in H. inversion H; subst.
        exists [], folder, folders. repeat split; auto.
      * apply Hskip. right. now exists rdev.
    + destruct (is_FileNotFoundError e) eqn:He.
      * apply Hskip. left. destruct e; (discriminate || exact Hs).
      * rewrite (scan_error _ _ _ _ _ _ _ Hs He) in H. discriminate.
Qed.

Lemma scan_found w tty_nr minor before folder rest st :
  stat_rdev w (device_path_of folder minor) = Return tty_nr ->
  Forall (skipped w tty_nr) (paths_of before minor) ->
  scan_folders w tty_nr minor (before ++ folder :: rest) st
  = (Return (Some (device_path_of folder minor)),
     logs st (map Statted (paths_of (before ++ [folder]) minor))).
Proof.
  intros Hr Hall.
  rewrite (scan_all_skipped _ _ _ _ _ _ Hall), (scan_accept _ _ _ _ _ _ Hr).
  rewrite logs_logs. unfold paths_of. now rewrite !map_app.
Qed.

Ltac solve_record :=
  eexists; eexists;
  split; [reflexivity|];
  split; [vm_compute; reflexivity|];
  split; vm_compute; reflexivity.

(** C4.  In the match scan the candidate [folder/minor] is accepted exactly
    when [os.stat] gives it an [st_rdev] equal to the whole terminal
    identifier of the record; a node with any other [st_rdev], be it the
    minor number itself, is passed over.  The scan follows the order of
    the cached table, and the first accepted candidate is what
    [get_pty_slave] returns, with no system call after the [stat] that
    accepted it. *)
Theorem scan_first_rdev_match (w : world) (fuel : nat) (pid depth tty_nr ppid : Z)
        (folders : list string) (st st1 : state) :
  get_pty_slave_folders w st = (Return folders, st1) ->
  has_record w pid tty_nr ppid ->
  let minor := calculate_minor_device_number tty_nr in
  let st2 := logs st1 [Opened (stat_path pid)] in
  (forall folder rest s,
      scan_folders w tty_nr minor (folder :: rest) s
      = (Return (Some (device_path_of folder minor)),
         logs s [Statted (device_path_of folder minor)])
      <-> stat_rdev w (device_path_of folder minor) = Return tty_nr)
  /\ (forall folder rest s rdev,
         stat_rdev w (device_path_of folder minor) = Return rdev ->
         rdev <> tty_nr ->
         scan_folders w tty_nr minor (folder :: rest) s
         = scan_folders w tty_nr minor rest
                        (logs s [Statted (device_path_of folder minor)]))
  /\ (forall device_path st',
         scan_folders w tty_nr minor folders st2 = (Return (Some device_path), st')
         <-> exists before folder rest,
             folders = before ++ folder :: rest
             /\ device_path = device_path_of folder minor
             /\ stat_rdev w device_path = Return tty_nr
             /\ Forall (skipped w tty_nr) (paths_of before minor)
             /\ st' = logs st2 (map Statted (paths_of (before ++ [folder]) minor)))
  /\ (forall device_path st',
         scan_folders w tty_nr minor folders st2 = (Return (Some device_path), st') ->
         get_pty_slave_rec (S fuel) w pid depth st
         = (Return (Some device_path), st')).
Proof.
  intros Hf Hr minor st2. repeat split.
  - intros H.
    apply scan_found_inv in H as (before & folder0 & rest0 & _ & _ & Hs & _).
    exact Hs.
  - intros Hs. now apply scan_accept.
  - intros folder rest s rdev Hs Hne. apply scan_skip. right. now exists rdev.
  - apply scan_found_inv.
  - intros (before & folder & rest & -> & -> & Hs & Hall & ->).
    now apply scan_found.
  - intros device_path st' Hs.
    rewrite (level_unfold _ _ _ _ _ _ _ _ _ Hf Hr).
    fold minor. fold st2. now rewrite Hs.
Qed.

Lemma scan_first_rdev_match_witness :
  get_pty_slave Machine.desktop 4242 initial_state
  = (Return (Some "/dev/pts/1"%string),
     {| folders_cache := Some ["/dev/pts"%string];
        io_log := [Opened "/proc/tty/drivers"; Opened "/proc/4242/stat";
                   Statted "/dev/pts/1"] |}).
Proof.
  unfold get_pty_slave. rewrite recursion_limit_unfold.
  refine (proj2 (proj2 (proj2 (scan_first_rdev_match
                                 Machine.desktop _ 4242 0 34817 4200
                                 ["/dev/pts"%string] initial_state
                                 {| folders_cache := Some ["/dev/pts"%string];
                                    io_log := [Opened "/proc/tty/drivers"] |}
                                 _ _))) _ _ _).
  - vm_compute. reflexivity.
  - solve_record.
  - vm_compute. reflexivity.
Defined.

(** ** Counting lookups *)

Lemma get_info_log w pid st r st2 :
  get_info w pid st = (r, st2) -> st2 = logs st [Opened (stat_path pid)].
Proof.
  unfold get_info, bind, read_file, lift.
  destruct (open_rb w (stat_path pid)); intros H; now inversion H.
Qed.

Lemma scan_log w tty_nr minor folders :
  forall st r st',
    scan_folders w tty_nr minor folders st = (r, st') ->
    exists paths, st' = logs st (map Statted paths).
Proof.
  induction folders as [|folder folders IH]; intros st r st' H.
  - inversion H; subst. exists []. now rewrite logs_nil.
  - assert (Hnext : scan_folders w tty_nr minor folders
                      (logs st [Statted (device_path_of folder minor)]) = (r, st') ->
                    exists paths, st' = logs st (map Statted paths)).
    { intros H'. apply IH in H' as [paths ->].
      exists (device_path_of folder minor :: paths). now rewrite logs_logs. }
    assert (Hstop : (r, st') = (r, logs st [Statted (device_path_of folder minor)]) ->
                    exists paths, st' = logs st (map Statted paths)).
    { intros H'. inversion H'. now exists [device_path_of folder minor]. }
    destruct (stat_rdev w (device_path_of folder minor)) as [rdev|e] eqn:Hs.
    + destruct (Z.eq_dec rdev tty_nr) as [->|Hne].
      * rewrite (scan_accept _ _ _ _ _ _ Hs) in H. inversion H; subst. now apply Hstop.
      * apply Hnext. rewrite <- H. symmetry. apply scan_skip. right. now exists rdev.
    + destruct (is_FileNotFoundError e) eqn:He.
      * apply Hnext. rewrite <- H. symmetry. apply scan_skip. left.
        destruct e; (discriminate || exact Hs).
      * rewrite (scan_error _ _ _ _ _ _ _ Hs He) in H. inversion H; subst.
        now apply Hstop.
Qed.

(** The directory table costs at most one [open], of the drivers file. *)
Lemma folders_log w st r st1 :
  get_pty_slave_folders w st = (r, st1) ->
  io_log st1 = io_log st
  \/ (folders_cache st = None /\ io_log st1 = io_log st ++ [Opened drivers_path]).
Proof.
  unfold get_pty_slave_folders.
  destruct (folders_cache st) as [paths|] eqn:Hc.
  - intros H. inversion H; subst. now left.
  - unfold get_pty_slave_folders_uncached, bind, read_file, lift.
    destruct (open_rb w drivers_path) as [data|e].
    + destruct (collect_folders (readlines data) []);
        intros H; inversion H; subst; right; split; reflexivity.
    + intros H; inversion H; subst; right; split; reflexivity.
Qed.

Lemma folders_log_lookups w st r st1 :
  get_pty_slave_folders w st = (r, st1) ->
  exists evs, io_log st1 = io_log st ++ evs /\ filter is_stat_open evs = [].
Proof.
  intros H. apply folders_log in H as [H|[_ H]].
  - exists []. now rewrite app_nil_r.
  - now exists [Opened drivers_path].
Qed.

(** A call that returns [None] has opened [3 - parent_search_depth] status
    records, its own first. *)
Lemma rec_none_lookups w fuel :
  forall pid depth st st',
    get_pty_slave_rec fuel w pid depth st = (Return None, st') ->
    depth <= 2 ->
    exists evs pids,
      io_log st' = io_log st ++ evs
      /\ filter is_stat_open evs
         = map (fun p => Opened (stat_path p)) (pid :: pids)
      /\ List.length pids = Z.to_nat (2 - depth).
Proof.
  induction fuel as [|fuel IH]; intros pid depth st st' H Hd; [discriminate|].
  cbn [get_pty_slave_rec] in H.
  unfold bind at 1 in H.
  destruct (get_pty_slave_folders w st) as [[folders|e] st1] eqn:Hf; [|discriminate].
  apply folders_log_lookups in Hf as (evs1 & Hl1 & Hn1).
  unfold bind at 1 in H.
  destruct (get_info w pid st1) as [[info|e] st2] eqn:Hi; [|discriminate].
  apply get_info_log in Hi. subst st2.
  unfold bind at 1, lift at 1 in H.
  destruct (getitem info "tty_nr") as [tty_bytes|e]; [|discriminate].
  unfold bind at 1, lift at 1 in H.
  destruct (int tty_bytes) as [tty_nr|e]; [|discriminate].
  unfold bind at 1 in H.
  destruct (scan_folders _ _ _ _ _) as [[[device_path|]|e] st3] eqn:Hs;
    try discriminate.
  apply scan_log in Hs as [paths ->].
  rewrite logs_logs in H.
  destruct (depth =? 2) eqn:Hdepth.
  - apply Z.eqb_eq in Hdepth. subst depth.
    inversion H; subst st'. clear H.
    exists (evs1 ++ Opened (stat_path pid) :: map Statted paths), [].
    cbn [logs io_log]. rewrite Hl1. repeat split.
    + now rewrite <- app_assoc.
    + rewrite filter_app, Hn1. cbn [filter app].
      rewrite filter_stat_open, filter_statted. reflexivity.
  - apply Z.eqb_neq in Hdepth.
    unfold bind at 1, lift at 1 in H.
    destruct (getitem info "ppid") as [ppid_bytes|e]; [|discriminate].
    unfold bind at 1, lift at 1 in H.
    destruct (int ppid_bytes) as [ppid|e]; [|discriminate].
    apply IH in H as (evs & pids & Hl & Hfl & Hlen); [|lia].
    exists ((evs1 ++ Opened (stat_path pid) :: map Statted paths) ++ evs),
           (ppid :: pids).
    repeat split.
    + rewrite Hl. cbn [logs io_log]. rewrite Hl1.
      now rewrite <- !app_assoc.
    + rewrite !filter_app, Hn1, Hfl. cbn [filter app].
      rewrite filter_stat_open, filter_statted. reflexivity.
    + cbn [List.length]. rewrite Hlen.
      replace (2 - depth) with (Z.succ (2 - (depth + 1))) by lia.
      rewrite Z2Nat.inj_succ by lia. reflexivity.
Qed.

(** ** The ancestry walk *)

(** C5.  Pid 1 of [Machine.server] exists and has no controlling
    terminal: its record is readable, no candidate matches, and its
    parent, pid 0, has no record.  [get_pty_slave] does not return [None]
    for it, as its docstring promises when no path was found: it raises
    [FileNotFoundError], which the docstring keeps for a pid without
    process, and it does so after two lookups, not three. *)
Lemma no_terminal_yet_not_None :
  has_record Machine.server 1 0 0
  /\ no_match Machine.server 0 ["/dev/pts"%string]
  /\ open_rb Machine.server (stat_path 0) = Raise FileNotFoundError
  /\ (forall st', get_pty_slave Machine.server 1 initial_state <> (Return None, st'))
  /\ exists st',
      get_pty_slave Machine.server 1 initial_state = (Raise FileNotFoundError, st')
      /\ lookups (io_log st') = 2%nat.
Proof.
  split; [solve_record|].
  split; [constructor; [right; exists 0x8800; split; [reflexivity|discriminate]
                       |constructor]|].
  split; [reflexivity|].
  assert (H : get_pty_slave Machine.server 1 initial_state
              = (Raise FileNotFoundError,
                 {| folders_cache := Some ["/dev/pts"%string];
                    io_log := [Opened "/proc/tty/drivers"; Opened "/proc/1/stat";
                               Statted "/dev/pts/0"; Opened "/proc/0/stat"] |}))
    by (vm_compute; reflexivity).
  split.
  - intros st'. rewrite H. discriminate.
  - eexists. split; [exact H|reflexivity].
Qed.

(** Whenever [get_pty_slave pid] returns [None] it has opened exactly
    three status records: that of [pid], of its parent and of its
    grandparent.  It does return [None] when the directory table is
    obtained, these three records can be read and parse, and every
    candidate of each of the three is absent or has another [st_rdev]. *)
Theorem not_found_after_three_lookups (w : world) (pid : Z) (st : state) :
  (forall st',
      get_pty_slave w pid st = (Return None, st') ->
      exists evs ppid gpid,
        io_log st' = io_log st ++ evs
        /\ filter is_stat_open evs
           = [Opened (stat_path pid); Opened (stat_path ppid);
              Opened (stat_path gpid)]
        /\ lookups evs = 3%nat)
  /\ (forall folders st1 tty0 ppid tty1 gpid tty2 ggpid,
         get_pty_slave_folders w st = (Return folders, st1) ->
         has_record w pid tty0 ppid -> no_match w tty0 folders ->
         has_record w ppid tty1 gpid -> no_match w tty1 folders ->
         has_record w gpid tty2 ggpid -> no_match w tty2 folders ->
         get_pty_slave w pid st
         = (Return None,
            after_level
              (after_level (after_level st1 pid tty0 folders) ppid tty1 folders)
              gpid tty2 folders)).
Proof.
  split.
  - intros st' H.
    apply rec_none_lookups in H as (evs & pids & Hl & Hf & Hlen); [|lia].
    destruct pids as [|ppid [|gpid [|]]]; try discriminate.
    exists evs, ppid, gpid. repeat split; auto.
    unfold lookups. now rewrite Hf.
  - intros folders st1 tty0 ppid tty1 gpid tty2 ggpid Hf H0 N0 H1 N1 H2 N2.
    pose proof (folders_fill_cache _ _ _ _ Hf) as Hc.
    unfold get_pty_slave. rewrite recursion_limit_unfold.
    rewrite (level_no_match _ _ _ _ _ _ _ _ _ Hf H0 N0).
    change (0 =? 2) with false. cbv iota.
    rewrite (level_no_match _ _ _ _ _ _ _ _ _
               (after_level_cached st1 pid tty0 folders w Hc) H1 N1).
    change (0 + 1 =? 2) with false. cbv iota.
    rewrite (level_no_match _ _ _ _ _ _ _ _ _
               (after_level_cached (after_level st1 pid tty0 folders)
                                   ppid tty1 folders w Hc) H2 N2).
    reflexivity.
Qed.

Lemma not_found_after_three_lookups_witness :
  get_pty_slave Machine.detached 300 initial_state
  = (Return None,
     {| folders_cache := Some ["/dev/pts"%string];
        io_log := [Opened "/proc/tty/drivers";
                   Opened "/proc/300/stat"; Statted "/dev/pts/0";
                   Opened "/proc/200/stat"; Statted "/dev/pts/0";
                   Opened "/proc/100/stat"; Statted "/dev/pts/0"] |})
  /\ exists evs ppid gpid,
      [Opened "/proc/tty/drivers";
       Opened "/proc/300/stat"; Statted "/dev/pts/0";
       Opened "/proc/200/stat"; Statted "/dev/pts/0";
       Opened "/proc/100/stat"; Statted "/dev/pts/0"]
      = io_log initial_state ++ evs
      /\ filter is_stat_open evs
         = [Opened (stat_path 300); Opened (stat_path ppid);
            Opened (stat_path gpid)]
      /\ lookups evs = 3%nat.
Proof.
  pose proof (not_found_after_three_lookups Machine.detached 300 initial_state)
    as [Hinv Hrun].
  assert (Hskip : no_match Machine.detached 0 ["/dev/pts"%string]).
  { constructor; [right; exists 0x8800; split; [reflexivity|discriminate]
                 |constructor]. }
  assert (H : get_pty_slave Machine.detached 300 initial_state
              = (Return None,
                 {| folders_cache := Some ["/dev/pts"%string];
                    io_log := [Opened "/proc/tty/drivers";
                               Opened "/proc/300/stat"; Statted "/dev/pts/0";
                               Opened "/proc/200/stat"; Statted "/dev/pts/0";
                               Opened "/proc/100/stat"; Statted "/dev/pts/0"] |})).
  { refine (Hrun ["/dev/pts"%string]
                 {| folders_cache := Some ["/dev/pts"%string];
                    io_log := [Opened "/proc/tty/drivers"] |}
                 0 200 0 100 0 1 _ _ Hskip _ Hskip _ Hskip).
    - vm_compute. reflexivity.
    - solve_record.
    - solve_record.
    - solve_record. }
  split; [exact H|].
  exact (Hinv _ H).
Defined.

(** ** Errors of the status record *)

(** C6 (as stated).  Pid 4242 exists on neither machine, so its status
    record cannot be opened; yet [get_pty_slave 4242] fails with
    [PermissionError] on the first and with [AttributeError] on the
    second, not with [FileNotFoundError]: the directory table is
    enumerated before the record is read. *)
Lemma nonexistent_pid_other_error :
  open_rb Broken.locked (stat_path 4242) = Raise FileNotFoundError
  /\ open_rb Broken.garbled (stat_path 4242) = Raise FileNotFoundError
  /\ fst (get_pty_slave Broken.locked 4242 initial_state) = Raise PermissionError
  /\ fst (get_pty_slave Broken.garbled 4242 initial_state) = Raise AttributeError
  /\ fst (get_pty_slave Broken.locked 4242 initial_state)
     <> Raise FileNotFoundError
  /\ fst (get_pty_slave Broken.garbled 4242 initial_state)
     <> Raise FileNotFoundError.
Proof.
  repeat split; try (vm_compute; reflexivity); vm_compute; discriminate.
Qed.

(** C6 (amended).  For a pid whose status record does not exist,
    [get_info] raises [FileNotFoundError], and [get_pty_slave] never
    returns a value, neither a path nor [None]: it raises.  What it raises
    is [FileNotFoundError], after one lookup, whenever the directory table
    is obtained (from the cache or by enumeration); when enumerating the
    table fails, which comes first, it is that failure. *)
Theorem nonexistent_pid_raises (w : world) (pid : Z) (st : state) :
  open_rb w (stat_path pid) = Raise FileNotFoundError ->
  get_info w pid st = (Raise FileNotFoundError, logs st [Opened (stat_path pid)])
  /\ (forall folders st1,
         get_pty_slave_folders w st = (Return folders, st1) ->
         get_pty_slave w pid st
         = (Raise FileNotFoundError, logs st1 [Opened (stat_path pid)]))
  /\ (forall e st1,
         get_pty_slave_folders w st = (Raise e, st1) ->
         get_pty_slave w pid st = (Raise e, st1))
  /\ (forall found st', get_pty_slave w pid st <> (Return found, st'))
  /\ (forall st' : state,
         (@Raise (option string) FileNotFoundError, st') <> (Return None, st')).
Proof.
  intros Ho.
  pose proof (get_info_unreadable w pid st _ Ho) as Hi.
  assert (Hok : forall folders st1,
             get_pty_slave_folders w st = (Return folders, st1) ->
             get_pty_slave w pid st
             = (Raise FileNotFoundError, logs st1 [Opened (stat_path pid)])).
  { intros folders st1 Hf. unfold get_pty_slave. rewrite recursion_limit_unfold.
    apply (level_record_error _ _ _ _ _ _ _ _ Hf).
    now apply get_info_unreadable. }
  assert (Herr : forall e st1,
             get_pty_slave_folders w st = (Raise e, st1) ->
             get_pty_slave w pid st = (Raise e, st1)).
  { intros e st1 Hf. unfold get_pty_slave. rewrite recursion_limit_unfold.
    now apply level_table_error. }
  repeat split; auto.
  - intros found st' H.
    destruct (get_pty_slave_folders w st) as [[folders|e] st1] eqn:Hf.
    + rewrite (Hok _ _ eq_refl) in H. discriminate.
    + rewrite (Herr _ _ eq_refl) in H. discriminate.
  - intros st'. discriminate.
Qed.

Lemma nonexistent_pid_raises_witness :
  get_pty_slave Machine.desktop 5 initial_state
  = (Raise FileNotFoundError,
     {| folders_cache := Some ["/dev/pts"%string];
        io_log := [Opened "/proc/tty/drivers"; Opened "/proc/5/stat"] |}).
Proof.
  refine (proj1 (proj2 (nonexistent_pid_raises Machine.desktop 5 initial_state _))
                ["/dev/pts"%string]
                {| folders_cache := Some ["/dev/pts"%string];
                   io_log := [Opened "/proc/tty/drivers"] |} _).
  - reflexivity.
  - vm_compute. reflexivity.
Defined.

(** C7 (as stated).  The record of pid 42 opens and does not have the
    expected layout, so that [get_info] raises [AttributeError]; yet
    [get_pty_slave 42] fails with [PermissionError]: the drivers table,
    which may not be read on this machine, is enumerated before the
    record is looked at. *)
Lemma malformed_record_other_error :
  open_rb Locked.host (stat_path 42) = Return newline_record
  /\ search_anchored stat_pattern newline_record = None
  /\ fst (get_info Locked.host 42 initial_state) = Raise AttributeError
  /\ fst (get_pty_slave Locked.host 42 initial_state) = Raise PermissionError
  /\ fst (get_pty_slave Locked.host 42 initial_state) <> Raise AttributeError.
Proof.
  repeat split; try (vm_compute; reflexivity); vm_compute; discriminate.
Qed.

(** C7 (amended).  When the status record opens but its content does not
    have the expected layout, [get_info] raises, after that one [open],
    the error of a failed match ([AttributeError]: [re.search] gave
    [None]), which is not the [FileNotFoundError] of a missing record.
    [get_pty_slave] never returns a value then: whenever the directory
    table is obtained it raises that [AttributeError] without reading
    anything else, and when enumerating the table fails, which comes
    first, it raises that failure. *)
Theorem malformed_record_raises (w : world) (pid : Z) (st : state) (data : bytes) :
  open_rb w (stat_path pid) = Return data ->
  search_anchored stat_pattern data = None ->
  get_info w pid st = (Raise AttributeError, logs st [Opened (stat_path pid)])
  /\ is_FileNotFoundError AttributeError = false
  /\ (forall w' st0,
         open_rb w' (stat_path pid) = Raise FileNotFoundError ->
         fst (get_info w' pid st0) <> fst (get_info w pid st))
  /\ (forall folders st1,
         get_pty_slave_folders w st = (Return folders, st1) ->
         get_pty_slave w pid st
         = (Raise AttributeError, logs st1 [Opened (stat_path pid)]))
  /\ (forall e st1,
         get_pty_slave_folders w st = (Raise e, st1) ->
         get_pty_slave w pid st = (Raise e, st1))
  /\ (forall found st', get_pty_slave w pid st <> (Return found, st')).
Proof.
  intros Ho Hm.
  pose proof (get_info_malformed w pid st data Ho Hm) as Hi.
  assert (Hok : forall folders st1,
             get_pty_slave_folders w st = (Return folders, st1) ->
             get_pty_slave w pid st
             = (Raise AttributeError, logs st1 [Opened (stat_path pid)])).
  { intros folders st1 Hf. unfold get_pty_slave. rewrite recursion_limit_unfold.
    apply (level_record_error _ _ _ _ _ _ _ _ Hf).
    now apply get_info_malformed with data. }
  assert (Herr : forall e st1,
             get_pty_slave_folders w st = (Raise e, st1) ->
             get_pty_slave w pid st = (Raise e, st1)).
  { intros e st1 Hf. unfold get_pty_slave. rewrite recursion_limit_unfold.
    now apply level_table_error. }
  repeat split; auto.
  - intros w' st0 Ho'.
    rewrite Hi, (get_info_unreadable w' pid st0 _ Ho'). discriminate.
  - intros found st' H.
    destruct (get_pty_slave_folders w st) as [[folders|e] st1] eqn:Hf.
    + rewrite (Hok _ _ eq_refl) in H. discriminate.
    + rewrite (Herr _ _ eq_refl) in H. discriminate.
Qed.

Lemma malformed_record_raises_witness :
  let w := Machine.make
             [("/proc/tty/drivers"%string, Return Machine.drivers);
              ("/proc/42/stat"%string, Return newline_record)] [] in
  get_pty_slave w 42 initial_state
  = (Raise AttributeError,
     {| folders_cache := Some ["/dev/pts"%string];
        io_log := [Opened "/proc/tty/drivers"; Opened "/proc/42/stat"] |}).
Proof.
  intros w.
  refine (proj1 (proj2 (proj2 (proj2 (malformed_record_raises
                                        w 42 initial_state newline_record _ _))))
                ["/dev/pts"%string]
                {| folders_cache := Some ["/dev/pts"%string];
                   io_log := [Opened "/proc/tty/drivers"] |} _).
  - reflexivity.
  - vm_compute. reflexivity.
  - vm_compute. reflexivity.
Defined.

(** ** The cache of the directory table *)

(** C8.  Once a call of [get_pty_slave_folders] has returned a list, every
    later call in the same run returns that same list without opening the
    drivers file again, whatever the file holds by then and whatever
    system calls were logged in between: the table is computed at most
    once, and computing it opens the drivers file once. *)
Theorem folders_computed_once (w1 w2 : world) (st st1 : state)
        (folders : list string) :
  get_pty_slave_folders w1 st = (Return folders, st1) ->
  get_pty_slave_folders w2 st1 = (Return folders, st1)
  /\ (forall evs,
         get_pty_slave_folders w2 (logs st1 evs)
         = (Return folders, logs st1 evs))
  /\ (io_log st1 = io_log st
      \/ io_log st1 = io_log st ++ [Opened drivers_path]).
Proof.
  intros H.
  pose proof (folders_fill_cache _ _ _ _ H) as Hc.
  repeat split.
  - now apply folders_cached.
  - intros evs. now apply folders_cached.
  - apply folders_log in H as [H|[_ H]]; auto.
Qed.

Lemma folders_computed_once_witness :
  let st1 := {| folders_cache := Some ["/dev/pts"%string];
                io_log := [Opened "/proc/tty/drivers"] |} in
  get_pty_slave_folders Machine.desktop initial_state
  = (Return ["/dev/pts"%string], st1)
  /\ get_pty_slave_folders Changed.desktop st1 = (Return ["/dev/pts"%string], st1)
  /\ fst (get_pty_slave_folders Changed.desktop initial_state)
     = Return ["/dev/other"%string].
Proof.
  intros st1.
  assert (H : get_pty_slave_folders Machine.desktop initial_state
              = (Return ["/dev/pts"%string], st1)) by (vm_compute; reflexivity).
  split; [exact H|].
  split.
  - exact (proj1 (folders_computed_once Machine.desktop Changed.desktop
                                        initial_state st1 _ H)).
  - vm_compute. reflexivity.
Defined.

(** ** Errors met during the walk and the scan *)

Lemma level_parent_unreadable fuel w pid depth st folders st1 tty_nr ppid e :
  get_pty_slave_folders w st = (Return folders, st1) ->
  has_record w pid tty_nr ppid ->
  no_match w tty_nr folders ->
  depth <> 2 ->
  open_rb w (stat_path ppid) = Raise e ->
  get_pty_slave_rec (S (S fuel)) w pid depth st
  = (Raise e, logs (after_level st1 pid tty_nr folders) [Opened (stat_path ppid)]).
Proof.
  intros Hf Hr Hn Hd Ho.
  rewrite (level_no_match _ _ _ _ _ _ _ _ _ Hf Hr Hn).
  apply Z.eqb_neq in Hd. rewrite Hd.
  apply (level_record_error _ _ _ _ _ folders).
  - apply after_level_cached. now apply folders_fill_cache in Hf.
  - now apply get_info_unreadable.
Qed.

(** C9.  A pid that exists and whose record parses can still make
    [get_pty_slave] raise [FileNotFoundError] instead of returning [None]:
    when no candidate matches at a depth other than 2 the parent's record
    is read unconditionally.  So the call raises when the parent has no
    record (as for the parent 0 of pid 1), after two lookups, and when the
    parent is read without a match and the grandparent has no record,
    after three. *)
Theorem ancestor_without_record_raises (w : world) (pid : Z) (st st1 : state)
        (folders : list string) (tty0 ppid : Z) :
  get_pty_slave_folders w st = (Return folders, st1) ->
  has_record w pid tty0 ppid ->
  no_match w tty0 folders ->
  (open_rb w (stat_path ppid) = Raise FileNotFoundError ->
   get_pty_slave w pid st
   = (Raise FileNotFoundError,
      logs (after_level st1 pid tty0 folders) [Opened (stat_path ppid)]))
  /\ (forall tty1 gpid,
         has_record w ppid tty1 gpid ->
         no_match w tty1 folders ->
         open_rb w (stat_path gpid) = Raise FileNotFoundError ->
         get_pty_slave w pid st
         = (Raise FileNotFoundError,
            logs (after_level (after_level st1 pid tty0 folders) ppid tty1 folders)
                 [Opened (stat_path gpid)]))
  /\ (forall fuel depth,
         depth <> 2 ->
         open_rb w (stat_path ppid) = Raise FileNotFoundError ->
         get_pty_slave_rec (S (S fuel)) w pid depth st
         = (Raise FileNotFoundError,
            logs (after_level st1 pid tty0 folders) [Opened (stat_path ppid)])).
Proof.
  intros Hf H0 N0.
  pose proof (folders_fill_cache _ _ _ _ Hf) as Hc.
  repeat split.
  - intros Ho. unfold get_pty_slave. rewrite recursion_limit_unfold.
    apply (level_parent_unreadable _ _ _ _ _ _ _ _ _ _ Hf H0 N0); [lia|exact Ho].
  - intros tty1 gpid H1 N1 Ho.
    unfold get_pty_slave. rewrite recursion_limit_unfold.
    rewrite (level_no_match _ _ _ _ _ _ _ _ _ Hf H0 N0).
    change (0 =? 2) with false. cbv iota.
    apply (level_parent_unreadable _ _ _ _ _ _ _ _ _ _
             (after_level_cached st1 pid tty0 folders w Hc) H1 N1);
      [lia|exact Ho].
  - intros fuel depth Hd Ho.
    now apply (level_parent_unreadable _ _ _ _ _ _ _ _ _ _ Hf H0 N0).
Qed.

Lemma ancestor_without_record_raises_witness :
  get_pty_slave Machine.server 1 initial_state
  = (Raise FileNotFoundError,
     {| folders_cache := Some ["/dev/pts"%string];
        io_log := [Opened "/proc/tty/drivers"; Opened "/proc/1/stat";
                   Statted "/dev/pts/0"; Opened "/proc/0/stat"] |})
  /\ get_pty_slave Machine.server 77 initial_state
     = (Raise FileNotFoundError,
        {| folders_cache := Some ["/dev/pts"%string];
           io_log := [Opened "/proc/tty/drivers"; Opened "/proc/77/stat";
                      Statted "/dev/pts/0"; Opened "/proc/1/stat";
                      Statted "/dev/pts/0"; Opened "/proc/0/stat"] |}).
Proof.
  assert (Hf : get_pty_slave_folders Machine.server initial_state
               = (Return ["/dev/pts"%string],
                  {| folders_cache := Some ["/dev/pts"%string];
                     io_log := [Opened "/proc/tty/drivers"] |}))
    by (vm_compute; reflexivity).
  assert (H1 : has_record Machine.server 1 0 0) by solve_record.
  assert (H77 : has_record Machine.server 77 0 1) by solve_record.
  assert (Hn : no_match Machine.server 0 ["/dev/pts"%string]).
  { constructor; [right; exists 0x8800; split; [reflexivity|discriminate]
                 |constructor]. }
  split.
  - exact (proj1 (ancestor_without_record_raises
                    Machine.server 1 initial_state _ _ 0 0 Hf H1 Hn) eq_refl).
  - exact (proj1 (proj2 (ancestor_without_record_raises
                           Machine.server 77 initial_state _ _ 0 1 Hf H77 Hn))
                 0 0 H1 Hn eq_refl).
Defined.

Lemma not_FileNotFoundError e :
  e <> FileNotFoundError -> is_FileNotFoundError e = false.
Proof. destruct e; intros H; (reflexivity || contradiction). Qed.

(** C10.  In the scan only [FileNotFoundError] from [os.stat] is
    swallowed: the scan then goes on with the next directory.  Any other
    exception raised by the [stat] of a candidate leaves [get_pty_slave]
    at once: no later directory is examined and no parent record is
    read. *)
Theorem other_stat_failure_propagates (w : world) (fuel : nat) (pid depth : Z)
        (st st1 : state) (tty_nr ppid : Z)
        (before : list string) (folder : string) (rest : list string) (e : exn) :
  get_pty_slave_folders w st = (Return (before ++ folder :: rest), st1) ->
  has_record w pid tty_nr ppid ->
  let minor := calculate_minor_device_number tty_nr in
  Forall (skipped w tty_nr) (paths_of before minor) ->
  stat_rdev w (device_path_of folder minor) = Raise e ->
  (e <> FileNotFoundError ->
   get_pty_slave_rec (S fuel) w pid depth st
   = (Raise e,
      logs st1 (Opened (stat_path pid)
                  :: map Statted (paths_of (before ++ [folder]) minor))))
  /\ (e = FileNotFoundError ->
      forall s,
        scan_folders w tty_nr minor (folder :: rest) s
        = scan_folders w tty_nr minor rest
                       (logs s [Statted (device_path_of folder minor)])).
Proof.
  intros Hf Hr minor Hall Hs. split.
  - intros He. apply not_FileNotFoundError in He.
    rewrite (level_unfold _ _ _ _ _ _ _ _ _ Hf Hr). fold minor.
    rewrite (scan_all_skipped _ _ _ _ _ _ Hall).
    rewrite (scan_error _ _ _ _ _ _ _ Hs He).
    rewrite !logs_logs. unfold paths_of. rewrite !map_app. reflexivity.
  - intros -> s. apply scan_skip. now left.
Qed.

Lemma other_stat_failure_propagates_witness :
  get_pty_slave Restricted.host 500 initial_state
  = (Raise PermissionError,
     {| folders_cache := Some ["/dev/ttyp"; "/dev/pts"; "/dev/vpts"]%string;
        io_log := [Opened "/proc/tty/drivers"; Opened "/proc/500/stat";
                   Statted "/dev/ttyp/3"; Statted "/dev/pts/3"] |}).
Proof.
  unfold get_pty_slave. rewrite recursion_limit_unfold.
  refine (proj1 (other_stat_failure_propagates
                   Restricted.host _ 500 0 initial_state
                   {| folders_cache := Some ["/dev/ttyp"; "/dev/pts"; "/dev/vpts"]%string;
                      io_log := [Opened "/proc/tty/drivers"] |}
                   34819 499 ["/dev/ttyp"%string] "/dev/pts"%string
                   ["/dev/vpts"%string] PermissionError _ _ _ _) _).
  - vm_compute. reflexivity.
  - solve_record.
  - constructor; [left; reflexivity|constructor].
  - reflexivity.
  - discriminate.
Defined.

(** * Further properties *)

(** ** The decoder on any integer *)

Lemma high_mask_mod (n : Z) :
  Z.land n SHIFTED_BITS_MASK = Z.land (n mod 2 ^ 32) SHIFTED_BITS_MASK.
Proof.
  apply Z.bits_inj'. intros k Hk.
  rewrite !Z.land_spec, mask_is_shifted_ones.
  destruct (Z.lt_ge_cases k 32) as [Hin|Hout].
  - now rewrite Z.mod_pow2_bits_low by lia.
  - rewrite Z.shiftl_spec, Z.ones_spec_high by lia.
    now rewrite !andb_false_r.
Qed.

Lemma low_mask_mod (n : Z) :
  Z.land n FIRST_BITS_MASK = Z.land (n mod 2 ^ 32) FIRST_BITS_MASK.
Proof.
  rewrite !low_byte_is_mod.
  rewrite (Z.div_mod n (2 ^ 32)) at 1 by lia.
  replace (2 ^ 32 * (n / 2 ^ 32) + n mod 2 ^ 32)
    with (n mod 2 ^ 32 + (n / 2 ^ 32 * 2 ^ 24) * 2 ^ 8) by lia.
  apply Z.mod_add. lia.
Qed.

Lemma decode_arith (n : Z) :
  0 <= n < 2 ^ 32 ->
  calculate_minor_device_number n = n mod 2 ^ 8 + 2 ^ 8 * (n / 2 ^ 20).
Proof.
  intros Hn. unfold calculate_minor_device_number.
  now rewrite shift_amount, low_byte_is_mod, (high_bits_shifted n Hn).
Qed.

Lemma decode_low_bits (tty_nr : Z) :
  calculate_minor_device_number tty_nr
  = calculate_minor_device_number (tty_nr mod 2 ^ 32)
  /\ 0 <= calculate_minor_device_number tty_nr < 2 ^ 20.
Proof.
  assert (Hm : 0 <= tty_nr mod 2 ^ 32 < 2 ^ 32) by (apply Z.mod_pos_bound; lia).
  assert (He : calculate_minor_device_number tty_nr
               = calculate_minor_device_number (tty_nr mod 2 ^ 32)).
  { unfold calculate_minor_device_number.
    now rewrite (high_mask_mod tty_nr), (low_mask_mod tty_nr). }
  split; [exact He|].
  rewrite He, (decode_arith _ Hm).
  pose proof (Z.mod_pos_bound (tty_nr mod 2 ^ 32) (2 ^ 8) ltac:(lia)) as Hl.
  assert (Hq : 0 <= (tty_nr mod 2 ^ 32) / 2 ^ 20 < 2 ^ 12).
  { split; [apply Z.div_pos; lia | apply Z.div_lt_upper_bound; lia]. }
  lia.
Qed.

(** X1.  [calculate_minor_device_number] accepts every integer, negative
    ones and ones wider than 32 bits included: the result only depends on
    the low 32 bits of the argument and is always a 20-bit number. *)
Theorem decode_any_integer (tty_nr : Z) :
  calculate_minor_device_number tty_nr
  = calculate_minor_device_number (tty_nr mod 2 ^ 32)
  /\ 0 <= calculate_minor_device_number tty_nr < 2 ^ 20.
Proof. exact (decode_low_bits tty_nr). Qed.

(** X2.  The decoder undoes the packing of a device number into a
    [tty_nr]: with the low byte of the minor number in bits 0 to 7, the
    major number in bits 8 to 19 and the rest of the minor number from bit
    20 on, it gives back the minor number, whatever the major number. *)
Theorem decode_packed_device_number (major minor : Z) :
  0 <= major < 2 ^ 12 ->
  0 <= minor < 2 ^ 20 ->
  calculate_minor_device_number
    (minor mod 2 ^ 8 + 2 ^ 8 * major + 2 ^ 20 * (minor / 2 ^ 8))
  = minor.
Proof.
  intros Hmaj Hmin.
  pose proof (Z.mod_pos_bound minor (2 ^ 8) ltac:(lia)) as Hl.
  assert (Hq : 0 <= minor / 2 ^ 8 < 2 ^ 12).
  { split; [apply Z.div_pos; lia | apply Z.div_lt_upper_bound; lia]. }
  set (id := minor mod 2 ^ 8 + 2 ^ 8 * major + 2 ^ 20 * (minor / 2 ^ 8)).
  assert (Hid : 0 <= id < 2 ^ 32) by (unfold id; lia).
  rewrite (decode_arith id Hid).
  assert (Hlow : id mod 2 ^ 8 = minor mod 2 ^ 8).
  { unfold id.
    replace (minor mod 2 ^ 8 + 2 ^ 8 * major + 2 ^ 20 * (minor / 2 ^ 8))
      with (minor mod 2 ^ 8 + (major + 2 ^ 12 * (minor / 2 ^ 8)) * 2 ^ 8) by lia.
    rewrite Z.mod_add by lia. now rewrite Z.mod_mod by lia. }
  assert (Hhigh : id / 2 ^ 20 = minor / 2 ^ 8).
  { unfold id.
    replace (minor mod 2 ^ 8 + 2 ^ 8 * major + 2 ^ 20 * (minor / 2 ^ 8))
      with ((minor mod 2 ^ 8 + 2 ^ 8 * major) + (minor / 2 ^ 8) * 2 ^ 20) by lia.
    rewrite Z.div_add by lia.
    rewrite Z.div_small by lia. lia. }
  rewrite Hlow, Hhigh.
  pose proof (Z.div_mod minor (2 ^ 8) ltac:(lia)). lia.
Qed.

Lemma decode_packed_device_number_witness :
  calculate_minor_device_number
    (300 mod 2 ^ 8 + 2 ^ 8 * 136 + 2 ^ 20 * (300 / 2 ^ 8))
  = 300.
Proof. apply (decode_packed_device_number 136 300); lia. Defined.

(** ** The layout of a parsed record *)

Lemma forallb_Forall {A} (p : A -> bool) (l : list A) :
  forallb p l = true <-> Forall (fun c => p c = true) l.
Proof.
  rewrite forallb_forall, Forall_forall. reflexivity.
Qed.

Lemma int_literal_inv v :
  is_int_literal v = true ->
  exists sg ds,
    v = sg ++ ds
    /\ (sg = [] \/ exists c, sg = [c] /\ is_sign c = true)
    /\ ds <> []
    /\ Forall (fun c => is_digit c = true) ds.
Proof.
  destruct v as [|c ds]; [discriminate|]. unfold is_int_literal.
  destruct (is_sign c) eqn:Hs.
  - intros H. exists [c], ds. destruct ds as [|d ds]; [discriminate|].
    change (forallb is_digit (d :: ds) = true) in H.
    apply forallb_Forall in H.
    repeat split; auto; [right; now exists c | discriminate].
  - intros H. exists [], (c :: ds).
    change (forallb is_digit (c :: ds) = true) in H.
    apply forallb_Forall in H.
    repeat split; auto. discriminate.
Qed.

Lemma digit_not_sign c : is_digit c = true -> is_sign c = false.
Proof.
  intros H. destruct (digit_is_no_sign c H) as [H45 H43].
  unfold is_sign. now rewrite H45, H43.
Qed.

Lemma int_literal_intro sg ds :
  (List.length sg <= 1)%nat ->
  Forall (fun c => is_sign c = true) sg ->
  (1 <= List.length ds)%nat ->
  Forall (fun c => is_digit c = true) ds ->
  is_int_literal (sg ++ ds) = true.
Proof.
  intros Hsg Hsign Hlen Hds.
  destruct ds as [|d ds]; [simpl in Hlen; lia|].
  assert (Hall : forallb is_digit (d :: ds) = true) by now apply forallb_Forall.
  destruct sg as [|c [|c' sg]]; simpl in Hsg; try lia.
  - cbn [app]. unfold is_int_literal.
    inversion Hds as [|? ? Hd _]; subst.
    rewrite (digit_not_sign d Hd). exact Hall.
  - inversion Hsign as [|? ? Hc _]; subst.
    cbn [app]. unfold is_int_literal. rewrite Hc. exact Hall.
Qed.

Lemma int_group_literal name v g :
  run (int_group name) v g ->
  g = [(name, v)] /\ is_int_literal v = true.
Proof.
  unfold int_group. intros H.
  inversion H as [| | | | |? ? ? g0 H0]; subst. clear H.
  inversion H0 as [| | | |? ? sg ds g1 g2 H1 H2|]; subst. clear H0.
  inversion H1 as [| |? ? ? ? Hsg _ Hsglen| | |]; subst. clear H1.
  inversion H2 as [| |? ? ? ? Hds Hdslen _| | |]; subst. clear H2.
  split; [reflexivity|].
  now apply int_literal_intro.
Qed.

(** [int] on a literal: its value, unless it has too many digits. *)
Lemma int_literal_converts v :
  is_int_literal v = true ->
  exists z,
    int v = if (List.length (digits_of v) <=? int_max_str_digits)%nat
            then Return z else Raise ValueError.
Proof.
  intros H. apply int_literal_inv in H as (sg & ds & -> & Hsg & Hne & Hds).
  assert (Hlen : (1 <= List.length ds)%nat).
  { destruct ds; [contradiction|simpl; lia]. }
  destruct (unsigned_value_total ds Hds Hlen) as [z Hz].
  unfold int.
  destruct Hsg as [->|(c & -> & Hc)].
  - destruct ds as [|d ds]; [contradiction|].
    inversion Hds as [|? ? Hd _]; subst.
    destruct (digit_is_no_sign d Hd) as [E45 E43].
    cbn [app]. rewrite E45, E43, Hz. now exists z.
  - cbn [app].
    destruct (code c =? 45)%N eqn:H45.
    + rewrite Hz. now exists (- z).
    + unfold is_sign in Hc. rewrite H45 in Hc. simpl in Hc. rewrite Hc.
      rewrite Hz. now exists z.
Qed.

Lemma int_literal_short v :
  is_int_literal v = true ->
  (List.length (digits_of v) <= int_max_str_digits)%nat ->
  exists z, int v = Return z.
Proof.
  intros H Hlen. destruct (int_literal_converts v H) as [z Hz].
  apply Nat.leb_le in Hlen. rewrite Hlen in Hz. now exists z.
Qed.

Lemma int_literal_long v :
  is_int_literal v = true ->
  (int_max_str_digits < List.length (digits_of v))%nat ->
  int v = Raise ValueError.
Proof.
  intros H Hlen. destruct (int_literal_converts v H) as [z Hz].
  apply Nat.leb_gt in Hlen. now rewrite Hlen in Hz.
Qed.

(** [int] raises nothing but [ValueError], and on a literal only for
    its length. *)
Lemma int_literal_raises v e :
  is_int_literal v = true ->
  int v = Raise e ->
  e = ValueError /\ (int_max_str_digits < List.length (digits_of v))%nat.
Proof.
  intros H Hr. destruct (int_literal_converts v H) as [z Hz].
  rewrite Hz in Hr.
  destruct (List.length (digits_of v) <=? int_max_str_digits)%nat eqn:Hlen;
    [discriminate|].
  apply Nat.leb_gt in Hlen. inversion Hr. auto.
Qed.

Ltac invert_fields :=
  repeat match goal with
         | H : run (Cat _ _) _ _ |- _ => inversion H; subst; clear H
         | H : run (Group _ (Greedy _ _ _)) _ _ |- _ => inversion H; subst; clear H
         | H : run (Group _ (Cls _)) _ _ |- _ => inversion H; subst; clear H
         | H : run (Lit _) _ _ |- _ => inversion H; subst; clear H
         | H : run (Cls _) _ _ |- _ => inversion H; subst; clear H
         | H : run (int_group _) _ _ |- _ =>
             apply int_group_literal in H; destruct H as [-> ?]
         end.

(** A record that parses is the text of seven well-formed fields, and
    the match holds exactly these fields. *)
Lemma parse_stat_shape data info :
  parse_stat data = Return info ->
  exists pid comm state ppid pgrp session tty_nr rest,
    data = record_text pid comm state ppid pgrp session tty_nr ++ rest
    /\ same_entries info (record_dict pid comm state ppid pgrp session tty_nr)
    /\ is_int_literal pid = true
    /\ (List.length comm <= MAX_PROCESS_NAME_LENGTH)%nat
    /\ Forall (fun c => is_dot c = true) comm
    /\ is_dot state = true
    /\ is_int_literal ppid = true
    /\ is_int_literal pgrp = true
    /\ is_int_literal session = true
    /\ is_int_literal tty_nr = true.
Proof.
  unfold parse_stat.
  destruct (search_anchored stat_pattern data) as [d|] eqn:Hs; [|discriminate].
  intros H. inversion H; subst d. clear H.
  apply search_anchored_sound in Hs as (pre & rest & -> & Hr).
  rewrite stat_pattern_shape in Hr.
  invert_fields.
  match goal with
  | H : run (Greedy is_dot _ _) ?c _ |- _ =>
      inversion H as [| |? ? ? ? Hdots _ Hlen| | |]; subst; clear H
  end.
  match goal with
  | |- exists pid comm state ppid pgrp session tty_nr rest0,
      (?p ++ [_] ++ [_] ++ ?c ++ [_] ++ [_] ++ [?s] ++ [_] ++ ?pp ++ [_]
          ++ ?pg ++ [_] ++ ?se ++ [_] ++ ?t) ++ _ = _ /\ _ =>
      exists p, c, s, pp, pg, se, t, rest
  end.
  repeat split; auto.
  intros key. unfold record_dict. cbn [app getitem].
  repeat match goal with
         | |- context [String.eqb ?a key] => destruct (String.eqb a key) eqn:?
         end; try reflexivity;
    repeat match goal with
           | H : String.eqb _ _ = true |- _ => apply String.eqb_eq in H
           end; congruence.
Qed.

Lemma get_info_returns w pid st info st' :
  get_info w pid st = (Return info, st') ->
  st' = logs st [Opened (stat_path pid)]
  /\ exists data, open_rb w (stat_path pid) = Return data
                  /\ parse_stat data = Return info.
Proof.
  intros H. split; [exact (get_info_log _ _ _ _ _ H)|].
  unfold get_info, bind, read_file, lift in H.
  destruct (open_rb w (stat_path pid)) as [data|e]; [|discriminate].
  exists data. split; [reflexivity|]. now inversion H.
Qed.

(** X3.  What [get_info] returns is read off the file as it stands: the
    file starts with a pid, the command name in parentheses, the state and
    four more integers, separated by single blanks, and the dictionary
    holds these seven pieces and nothing else, so that any other key is a
    [KeyError].  The integers are optionally signed decimal numbers; the
    command name has at most 15 bytes, none of them a newline. *)
Theorem get_info_returns_the_fields_of_the_file
        (w : world) (pid : Z) (st st' : state) (info : groupdict) :
  get_info w pid st = (Return info, st') ->
  exists pidb comm state ppid pgrp session tty_nr rest,
    open_rb w (stat_path pid)
    = Return (record_text pidb comm state ppid pgrp session tty_nr ++ rest)
    /\ same_entries info (record_dict pidb comm state ppid pgrp session tty_nr)
    /\ (forall key,
           ~ In key ["pid"; "comm"; "state"; "ppid"; "pgrp"; "session";
                     "tty_nr"]%string ->
           getitem info key = Raise KeyError)
    /\ is_int_literal pidb = true
    /\ (List.length comm <= 15)%nat
    /\ Forall (fun c => c <> x0a) comm
    /\ state <> x0a
    /\ is_int_literal ppid = true
    /\ is_int_literal pgrp = true
    /\ is_int_literal session = true
    /\ is_int_literal tty_nr = true.
Proof.
  intros H. apply get_info_returns in H as (_ & data & Ho & Hp).
  apply parse_stat_shape in Hp
    as (pidb & comm & state & ppid & pgrp & session & tty_nr & rest
        & -> & Hd & H1 & Hlen & Hdots & Hst & H2 & H3 & H4 & H5).
  exists pidb, comm, state, ppid, pgrp, session, tty_nr, rest.
  repeat split; auto.
  - intros key Hnot. rewrite (Hd key). unfold record_dict. cbn [getitem].
    repeat match goal with
           | |- context [String.eqb ?a key] =>
               destruct (String.eqb a key) eqn:?
           end; try reflexivity;
      exfalso; apply Hnot;
      repeat match goal with
             | H : String.eqb _ _ = true |- _ => apply String.eqb_eq in H
             end; subst; simpl; tauto.
  - eapply Forall_impl; [|exact Hdots].
    intros c Hc ->. discriminate.
  - intros ->. discriminate.
Qed.

Lemma get_info_returns_the_fields_of_the_file_witness :
  exists info pidb comm state ppid pgrp session tty_nr rest,
    fst (get_info Machine.desktop 4242 initial_state) = Return info
    /\ open_rb Machine.desktop (stat_path 4242)
       = Return (record_text pidb comm state ppid pgrp session tty_nr ++ rest)
    /\ same_entries info (record_dict pidb comm state ppid pgrp session tty_nr)
    /\ is_int_literal tty_nr = true.
Proof.
  destruct (get_info Machine.desktop 4242 initial_state) as [[info|e] st'] eqn:H;
    [|vm_compute in H; discriminate].
  destruct (get_info_returns_the_fields_of_the_file _ _ _ _ _ H)
    as (pidb & comm & state & ppid & pgrp & session & tty_nr & rest
        & Ho & Hd & _ & _ & _ & _ & _ & _ & _ & _ & Ht).
  exists info, pidb, comm, state, ppid, pgrp, session, tty_nr, rest.
  repeat split; assumption.
Defined.

(** ** [get_parent_pid] *)

Lemma same_entries_field_int info d key :
  same_entries info d -> field_int info key = field_int d key.
Proof. intros H. unfold field_int. now rewrite (H key). Qed.

(** The two fields that [get_pty_slave] converts are literals of the
    record. *)
Lemma parsed_record_fields data info :
  parse_stat data = Return info ->
  exists tty_nr ppid,
    getitem info "tty_nr" = Return tty_nr /\ is_int_literal tty_nr = true
    /\ getitem info "ppid" = Return ppid /\ is_int_literal ppid = true.
Proof.
  intros Hp.
  apply parse_stat_shape in Hp
    as (pidb & comm & state & ppid & pgrp & session & tty_nr & rest
        & _ & Hd & _ & _ & _ & _ & Hppid & _ & _ & Htty).
  exists tty_nr, ppid. rewrite !Hd. repeat split; auto.
Qed.

Lemma has_record_ppid_unique w pid tty1 ppid1 tty2 ppid2 :
  has_record w pid tty1 ppid1 -> has_record w pid tty2 ppid2 ->
  tty1 = tty2 /\ ppid1 = ppid2.
Proof.
  intros (d1 & i1 & Ho1 & Hp1 & Ht1 & Hpp1) (d2 & i2 & Ho2 & Hp2 & Ht2 & Hpp2).
  rewrite Ho1 in Ho2. inversion Ho2; subst d2.
  rewrite Hp1 in Hp2. inversion Hp2; subst i2.
  rewrite Ht1 in Ht2. rewrite Hpp1 in Hpp2.
  inversion Ht2. inversion Hpp2. auto.
Qed.

(** X4.  [get_parent_pid] opens the status record once.  When [get_info]
    raises, it raises the same exception.  When [get_info] returns, the
    record has a [ppid] field, an optionally signed decimal number, so
    that the lookup cannot fail, and [get_parent_pid] gives what [int]
    gives on that field: its value when it has at most 4300 digits,
    [ValueError] when it has more. *)
Theorem get_parent_pid_reads_ppid (w : world) (pid : Z) (st : state) :
  (forall e st',
      get_info w pid st = (Raise e, st') ->
      get_parent_pid w pid st = (Raise e, st'))
  /\ (forall info st',
         get_info w pid st = (Return info, st') ->
         st' = logs st [Opened (stat_path pid)]
         /\ exists ppid,
             getitem info "ppid" = Return ppid
             /\ is_int_literal ppid = true
             /\ get_parent_pid w pid st = (int ppid, st')
             /\ ((List.length (digits_of ppid) <= int_max_str_digits)%nat ->
                 exists z, int ppid = Return z)
             /\ ((int_max_str_digits < List.length (digits_of ppid))%nat ->
                 int ppid = Raise ValueError)).
Proof.
  split.
  - intros e st' Hi. unfold get_parent_pid, bind. now rewrite Hi.
  - intros info st' Hi.
    pose proof (get_info_returns _ _ _ _ _ Hi) as (Hst & data & Ho & Hp).
    split; [exact Hst|].
    destruct (parsed_record_fields data info Hp)
      as (tty_nr & ppid & _ & _ & Hg & Hlit).
    exists ppid. split; [exact Hg|]. split; [exact Hlit|].
    split; [|split].
    + unfold get_parent_pid, bind, lift. rewrite Hi, Hg. reflexivity.
    + now apply int_literal_short.
    + now apply int_literal_long.
Qed.

Lemma get_parent_pid_reads_ppid_witness :
  fst (get_parent_pid Long.detached 7 initial_state) = Raise ValueError.
Proof.
  destruct (get_info Long.detached 7 initial_state) as [[info|e] st'] eqn:Hi;
    [|vm_compute in Hi; discriminate].
  destruct (proj2 (get_parent_pid_reads_ppid Long.detached 7 initial_state)
              info st' Hi)
    as (_ & ppid & Hg & _ & Hpp & _ & Hlong).
  rewrite Hpp. cbn [fst]. apply Hlong.
  vm_compute in Hi. inversion Hi; subst info.
  vm_compute in Hg. inversion Hg; subst ppid.
  vm_compute. reflexivity.
Defined.

(** ** Which match the matcher finds *)

(** A greedy repetition whose every extension fails stops where it is. *)
Lemma greedy_all_fail {R} (p : byte -> bool) (k : bytes -> option R) s :
  forall lo hi,
    (forall mid post, s = mid ++ post -> mid <> [] ->
                      Forall (fun c => p c = true) mid -> k post = None) ->
    greedy p lo hi s k = match lo with O => k s | S _ => None end.
Proof.
  induction s as [|c s IH]; intros lo hi Hfail; [reflexivity|].
  cbn [greedy].
  destruct (p c && may_take hi) eqn:Hc; [|reflexivity].
  apply andb_prop in Hc as [Hp _].
  rewrite IH.
  - assert (Hk : k s = None).
    { apply (Hfail [c] s); [reflexivity|discriminate|now constructor]. }
    rewrite Hk. now destruct (Nat.pred lo).
  - intros mid post -> Hne Hall.
    apply (Hfail (c :: mid) post); [reflexivity|discriminate|now constructor].
Qed.

(** A greedy repetition settles on the longest prefix after which the
    rest of the pattern succeeds. *)
Lemma greedy_first_success {R} (p : byte -> bool) (k : bytes -> option R)
      pre post r :
  forall lo hi,
    Forall (fun c => p c = true) pre ->
    (lo <= List.length pre)%nat ->
    within hi (List.length pre) ->
    k post = Some r ->
    (forall mid post', post = mid ++ post' -> mid <> [] ->
                       Forall (fun c => p c = true) mid -> k post' = None) ->
    greedy p lo hi (pre ++ post) k = Some r.
Proof.
  induction pre as [|c pre IH]; intros lo hi Hall Hlo Hhi Hk Hfail.
  - cbn [app]. rewrite (greedy_all_fail p k post lo hi Hfail).
    simpl in Hlo. now replace lo with O by lia.
  - inversion Hall as [|? ? Hc Hrest]; subst.
    cbn [app greedy]. rewrite Hc.
    assert (Hm : may_take hi = true).
    { destruct hi as [[|h]|]; simpl in *; auto; lia. }
    rewrite Hm. cbn [andb].
    rewrite (IH (Nat.pred lo) (option_map Nat.pred hi)); auto.
    + simpl in Hlo. lia.
    + destruct hi as [[|h]|]; simpl in *; auto; lia.
Qed.

(** In particular it takes a whole run that ends where the class ends. *)
Lemma greedy_whole_run {R} (p : byte -> bool) (k : bytes -> option R)
      pre post r lo hi :
  Forall (fun c => p c = true) pre ->
  (lo <= List.length pre)%nat ->
  within hi (List.length pre) ->
  match post with [] => True | c :: _ => p c = false end ->
  k post = Some r ->
  greedy p lo hi (pre ++ post) k = Some r.
Proof.
  intros Hall Hlo Hhi Hend Hk.
  apply greedy_first_success; auto.
  intros mid post' -> Hne Hmid.
  destruct mid as [|c mid]; [contradiction|].
  inversion Hmid as [|? ? Hc _]; subst.
  cbn [app] in Hend. congruence.
Qed.

(** A lazy repetition settles on the shortest prefix after which the rest
    of the pattern succeeds. *)
Lemma lazy_first_success {R} (p : byte -> bool) (k : bytes -> option R)
      pre post r :
  forall lo,
    Forall (fun c => p c = true) pre ->
    (lo <= List.length pre)%nat ->
    k post = Some r ->
    (forall pre1 pre2, pre = pre1 ++ pre2 -> pre2 <> [] ->
                       (lo <= List.length pre1)%nat ->
                       k (pre2 ++ post) = None) ->
    lazy p lo (pre ++ post) k = Some r.
Proof.
  induction pre as [|c pre IH]; intros lo Hall Hlo Hk Hfail.
  - simpl in Hlo. replace lo with O by lia. cbn [app].
    destruct post; cbn [lazy]; now rewrite Hk.
  - inversion Hall as [|? ? Hc Hrest]; subst.
    cbn [app lazy]. rewrite Hc.
    destruct lo as [|lo].
    + assert (Hk0 : k (c :: pre ++ post) = None).
      { apply (Hfail [] (c :: pre)); [reflexivity|discriminate|simpl; lia]. }
      rewrite Hk0.
      apply IH; auto; [simpl; lia|].
      intros pre1 pre2 -> Hne _.
      apply (Hfail (c :: pre1) pre2); [reflexivity|exact Hne|simpl; lia].
    + cbn [Nat.pred]. apply IH; auto; [simpl in Hlo; lia|].
      intros pre1 pre2 -> Hne Hl.
      apply (Hfail (c :: pre1) pre2); [reflexivity|exact Hne|simpl; lia].
Qed.

Lemma exec_lit_ok c s caps k :
  exec (Lit c) (c :: s) caps k = k s caps.
Proof.
  cbn [exec].
  assert (H : Byte.eqb c c = true) by (apply Byte.byte_dec_lb; reflexivity).
  now rewrite H.
Qed.

Lemma exec_lit_fail c s caps k :
  match s with [] => True | c' :: _ => c' <> c end ->
  exec (Lit c) s caps k = None.
Proof.
  destruct s as [|c' s]; [reflexivity|]. intros Hne. cbn [exec].
  destruct (Byte.eqb c' c) eqn:He; [|reflexivity].
  apply Byte.byte_dec_bl in He. contradiction.
Qed.

(** [[-+]?\d+] takes a whole literal that is not followed by a digit. *)
Lemma exec_int_group_ok name v post caps k r :
  is_int_literal v = true ->
  match post with [] => True | c :: _ => is_digit c = false end ->
  k post ((name, v) :: caps) = Some r ->
  exec (int_group name) (v ++ post) caps k = Some r.
Proof.
  intros Hv Hend Hk.
  apply int_literal_inv in Hv as (sg & ds & -> & Hsg & Hne & Hds).
  unfold int_group. cbn [exec].
  rewrite <- app_assoc.
  assert (Hd1 : (1 <= List.length ds)%nat).
  { destruct ds; [contradiction|simpl; lia]. }
  assert (Hsign : Forall (fun c => is_sign c = true) sg
                  /\ (List.length sg <= 1)%nat).
  { destruct Hsg as [->|(c & -> & Hc)]; split; simpl; auto. }
  destruct Hsign as [Hsign Hlen].
  apply greedy_first_success; auto.
  - apply Nat.le_0_l.
  - apply greedy_whole_run; auto; [exact I|].
    rewrite app_assoc, firstn_consumed. exact Hk.
  - intros mid post' Heq Hmid Hall.
    destruct mid as [|c mid]; [contradiction|].
    destruct ds as [|d ds]; [contradiction|].
    cbn [app] in Heq. inversion Heq; subst.
    inversion Hall as [|? ? Hc _]; subst.
    inversion Hds as [|? ? Hd _]; subst.
    rewrite (digit_not_sign _ Hd) in Hc. discriminate.
Qed.

(** ** Records as the kernel writes them *)

Lemma int_literal_no_close v :
  is_int_literal v = true ->
  Forall (fun c => is_close_paren c = false) v.
Proof.
  intros H. apply int_literal_inv in H as (sg & ds & -> & Hsg & _ & Hds).
  apply Forall_app. split.
  - destruct Hsg as [->|(c & -> & Hc)]; constructor; [|constructor].
    unfold is_sign in Hc. unfold is_close_paren.
    apply orb_prop in Hc as [Hc|Hc]; apply N.eqb_eq in Hc; rewrite Hc; reflexivity.
  - eapply Forall_impl; [|exact Hds].
    intros c Hc. unfold is_digit in Hc. apply andb_prop in Hc as [Hc _].
    apply N.leb_le in Hc. unfold is_close_paren. apply N.eqb_neq. lia.
Qed.

Lemma suffix_head (c0 : byte) tail mid post :
  c0 :: tail = mid ++ post -> mid <> [] ->
  match post with [] => True | c :: _ => In c tail end.
Proof.
  destruct mid as [|m mid]; [contradiction|].
  cbn [app]. intros H _. inversion H; subst.
  destruct post as [|c post]; [exact I|].
  apply in_or_app. right. now left.
Qed.

Lemma close_paren_byte c : is_close_paren c = false -> c <> ")"%byte.
Proof. intros H ->. discriminate. Qed.

Lemma exec_cat r1 r2 s caps k :
  exec (Cat r1 r2) s caps k
  = exec r1 s caps (fun s' caps' => exec r2 s' caps' k).
Proof. reflexivity. Qed.

Lemma exec_group_cls_ok name (p : byte -> bool) c s caps k :
  p c = true ->
  exec (Group name (Cls p)) (c :: s) caps k = k s ((name, [c]) :: caps).
Proof.
  intros Hp. cbn [exec]. rewrite Hp.
  replace (List.length (c :: s) - List.length s)%nat with 1%nat
    by (cbn [List.length]; lia).
  reflexivity.
Qed.

(** A captured greedy repetition takes the longest prefix after which the
    rest of the pattern succeeds, and captures it. *)
Lemma exec_group_greedy_ok name (p : byte -> bool) lo hi pre post caps k r :
  Forall (fun c => p c = true) pre ->
  (lo <= List.length pre)%nat ->
  within hi (List.length pre) ->
  k post ((name, pre) :: caps) = Some r ->
  (forall mid post' caps', post = mid ++ post' -> mid <> [] ->
                           Forall (fun c => p c = true) mid ->
                           k post' caps' = None) ->
  exec (Group name (Greedy p lo hi)) (pre ++ post) caps k = Some r.
Proof.
  intros Hall Hlo Hhi Hk Hfail. cbn [exec].
  apply greedy_first_success; auto.
  - now rewrite firstn_consumed.
  - intros mid post' Heq Hne Hmid. now apply (Hfail mid).
Qed.

(** The match found in a record whose fields are well formed. *)
Lemma parse_stat_well_formed pid comm state ppid pgrp session tty_nr rest :
  is_int_literal pid = true ->
  (List.length comm <= MAX_PROCESS_NAME_LENGTH)%nat ->
  Forall (fun c => is_dot c = true) comm ->
  is_dot state = true ->
  is_close_paren state = false ->
  is_int_literal ppid = true ->
  is_int_literal pgrp = true ->
  is_int_literal session = true ->
  is_int_literal tty_nr = true ->
  Forall (fun c => is_close_paren c = false) rest ->
  match rest with [] => True | c :: _ => is_digit c = false end ->
  parse_stat (record_text pid comm state ppid pgrp session tty_nr ++ rest)
  = Return [("tty_nr"%string, tty_nr); ("session"%string, session);
            ("pgrp"%string, pgrp); ("ppid"%string, ppid);
            ("state"%string, [state]); ("comm"%string, comm);
            ("pid"%string, pid)].
Proof.
  intros Hpid Hlen Hdots Hst Hstc Hppid Hpgrp Hsess Htty Hrest Hend.
  assert (Htail : Forall (fun c => is_close_paren c = false)
                         (" "%byte :: state :: " "%byte :: ppid ++ " "%byte
                            :: pgrp ++ " "%byte :: session ++ " "%byte
                            :: tty_nr ++ rest)).
  { repeat (first [apply Forall_cons; [first [reflexivity|assumption]|]
                  |apply Forall_app; split;
                   [now apply int_literal_no_close|]]).
    exact Hrest. }
  unfold parse_stat, search_anchored. rewrite stat_pattern_shape.
  unfold record_text.
  change (b " (") with [" "%byte; "("%byte].
  change (b ") ") with [")"%byte; " "%byte].
  change (b " ") with [" "%byte].
  rewrite <- !app_assoc. cbn [app].
  match goal with
  | |- match ?e with _ => _ end = _ =>
      assert (He : e = Some [("tty_nr"%string, tty_nr); ("session"%string, session);
                             ("pgrp"%string, pgrp); ("ppid"%string, ppid);
                             ("state"%string, [state]); ("comm"%string, comm);
                             ("pid"%string, pid)]); [|now rewrite He]
  end.
  rewrite exec_cat.
  apply exec_int_group_ok; [exact Hpid|reflexivity|]. cbv beta.
  rewrite exec_cat, exec_lit_ok, exec_cat, exec_lit_ok, exec_cat.
  apply exec_group_greedy_ok; auto.
  - apply Nat.le_0_l.
  - rewrite exec_cat, exec_lit_ok, exec_cat, exec_lit_ok, exec_cat.
    rewrite (exec_group_cls_ok _ _ _ _ _ _ Hst).
    rewrite exec_cat, exec_lit_ok, exec_cat.
    apply exec_int_group_ok; [exact Hppid|reflexivity|]. cbv beta.
    rewrite exec_cat, exec_lit_ok, exec_cat.
    apply exec_int_group_ok; [exact Hpgrp|reflexivity|]. cbv beta.
    rewrite exec_cat, exec_lit_ok, exec_cat.
    apply exec_int_group_ok; [exact Hsess|reflexivity|]. cbv beta.
    rewrite exec_cat, exec_lit_ok.
    apply exec_int_group_ok; [exact Htty|exact Hend|]. reflexivity.
  - intros mid post' caps' Heq Hne _.
    rewrite exec_cat. apply exec_lit_fail.
    pose proof (suffix_head _ _ _ _ Heq Hne) as Hin.
    destruct post' as [|c post']; [exact I|].
    apply close_paren_byte.
    rewrite Forall_forall in Htail. now apply Htail.
Qed.

(** The record of a process, laid out as the kernel does it, parses
    into its seven fields. *)
Lemma get_info_well_formed
      (w : world) (pid : Z) (st : state)
      (pidb comm : bytes) (state : byte) (ppid pgrp session tty_nr rest : bytes) :
  is_int_literal pidb = true ->
  (List.length comm <= 15)%nat ->
  Forall (fun c => c <> x0a) comm ->
  state <> x0a -> state <> ")"%byte ->
  is_int_literal ppid = true ->
  is_int_literal pgrp = true ->
  is_int_literal session = true ->
  is_int_literal tty_nr = true ->
  Forall (fun c => c <> ")"%byte) rest ->
  match rest with [] => True | c :: _ => is_digit c = false end ->
  open_rb w (stat_path pid)
  = Return (record_text pidb comm state ppid pgrp session tty_nr ++ rest) ->
  let info := [("tty_nr"%string, tty_nr); ("session"%string, session);
               ("pgrp"%string, pgrp); ("ppid"%string, ppid);
               ("state"%string, [state]); ("comm"%string, comm);
               ("pid"%string, pidb)] in
  parse_stat (record_text pidb comm state ppid pgrp session tty_nr ++ rest)
  = Return info
  /\ get_info w pid st = (Return info, logs st [Opened (stat_path pid)]).
Proof.
  intros Hpid Hlen Hcomm Hst Hstc Hppid Hpgrp Hsess Htty Hrest Hend Ho info.
  assert (Hnl : forall c, c <> x0a -> is_dot c = true).
  { intros c Hc. unfold is_dot. apply negb_true_iff. apply N.eqb_neq.
    intros Hcode. apply Hc. unfold code in Hcode.
    apply (f_equal Byte.of_N) in Hcode. rewrite Byte.of_to_N in Hcode.
    now inversion Hcode. }
  assert (Hcl : forall c, c <> ")"%byte -> is_close_paren c = false).
  { intros c Hc. unfold is_close_paren. apply N.eqb_neq.
    intros Hcode. apply Hc. unfold code in Hcode.
    apply (f_equal Byte.of_N) in Hcode. rewrite Byte.of_to_N in Hcode.
    now inversion Hcode. }
  assert (Hp : parse_stat (record_text pidb comm state ppid pgrp session tty_nr
                             ++ rest)
               = Return info).
  { apply parse_stat_well_formed; auto.
    - eapply Forall_impl; [|exact Hcomm]. auto.
    - eapply Forall_impl; [|exact Hrest]. auto. }
  split; [exact Hp|]. exact (get_info_ok _ _ _ _ _ Ho Hp).
Qed.

(** C3.  A status record whose command name holds close-parens parses
    with every field in its place.  For any command name of at most 15
    bytes without a newline, whatever else it holds (close-parens, the
    sequence close-paren blank), [get_info] on the record
    [pid (comm) state ppid pgrp session tty_nr] gives back that very
    command name, the state and the four numbers; the state is a byte
    other than a newline or a close-paren, and what follows the seven
    fields holds no close-paren and does not go on with a digit.  The
    record ["42 (my)cmd) S 1 42 42 34816"] is an instance.  Whatever
    record parses, its command name is at most 15 bytes long: the capture
    is bounded. *)
Theorem get_info_close_paren_in_name
        (w : world) (pid : Z) (st : state)
        (pidb comm : bytes) (state : byte) (ppid pgrp session tty_nr rest : bytes) :
  is_int_literal pidb = true ->
  (List.length comm <= 15)%nat ->
  Forall (fun c => c <> x0a) comm ->
  state <> x0a -> state <> ")"%byte ->
  is_int_literal ppid = true ->
  is_int_literal pgrp = true ->
  is_int_literal session = true ->
  is_int_literal tty_nr = true ->
  Forall (fun c => c <> ")"%byte) rest ->
  match rest with [] => True | c :: _ => is_digit c = false end ->
  open_rb w (stat_path pid)
  = Return (record_text pidb comm state ppid pgrp session tty_nr ++ rest) ->
  (exists info,
      get_info w pid st = (Return info, logs st [Opened (stat_path pid)])
      /\ getitem info "pid" = Return pidb
      /\ getitem info "comm" = Return comm
      /\ getitem info "state" = Return [state]
      /\ field_int info "ppid" = int ppid
      /\ field_int info "pgrp" = int pgrp
      /\ field_int info "session" = int session
      /\ field_int info "tty_nr" = int tty_nr)
  /\ forall data info,
      parse_stat data = Return info ->
      exists comm,
        getitem info "comm" = Return comm /\ (List.length comm <= 15)%nat.
Proof.
  intros Hpid Hlen Hcomm Hst Hstc Hppid Hpgrp Hsess Htty Hrest Hend Ho.
  split.
  - destruct (get_info_well_formed w pid st pidb comm state ppid pgrp session
                                   tty_nr rest)
      as [_ Hi]; auto.
    eexists. split; [exact Hi|]. repeat split.
  - intros data info Hp. exact (proj2 (parse_stat_fields data info Hp)).
Qed.

Lemma get_info_close_paren_in_name_witness :
  let w := Machine.make
             [("/proc/42/stat"%string, Return close_paren_record)] [] in
  (exists info,
      get_info w 42 initial_state
      = (Return info, logs initial_state [Opened (stat_path 42)])
      /\ getitem info "pid" = Return (b "42")
      /\ getitem info "comm" = Return (b "my)cmd")
      /\ getitem info "state" = Return (b "S")
      /\ field_int info "ppid" = Return 1
      /\ field_int info "pgrp" = Return 42
      /\ field_int info "session" = Return 42
      /\ field_int info "tty_nr" = Return 34816)
  /\ forall data info,
      parse_stat data = Return info ->
      exists comm,
        getitem info "comm" = Return comm /\ (List.length comm <= 15)%nat.
Proof.
  intros w.
  refine (get_info_close_paren_in_name
            w 42 initial_state (b "42") (b "my)cmd") "S"%byte (b "1") (b "42")
            (b "42") (b "34816") [] _ _ _ _ _ _ _ _ _ _ _ _);
    try reflexivity; try discriminate; try exact I;
    try (vm_compute; lia);
    repeat (constructor; [discriminate|]); constructor.
Defined.

(** X5.  [get_info] recovers the fields of a record laid out as the kernel
    does it, whatever the command name holds (blanks, parentheses, the
    sequence close-paren blank) as long as it has at most 15 bytes and no
    newline: the fields are well-formed integers, the state is one byte
    other than a newline or a close-paren, and what follows the seven
    fields holds no close-paren and does not go on with a digit.  The
    dictionary has these seven entries and no other.  When the [tty_nr]
    and [ppid] fields have at most 4300 digits, the terminal identifier
    and the parent pid that [get_pty_slave] then works with are their
    values. *)
Theorem get_info_reads_kernel_record
        (w : world) (pid : Z) (st : state)
        (pidb comm : bytes) (state : byte) (ppid pgrp session tty_nr rest : bytes) :
  is_int_literal pidb = true ->
  (List.length comm <= 15)%nat ->
  Forall (fun c => c <> x0a) comm ->
  state <> x0a -> state <> ")"%byte ->
  is_int_literal ppid = true ->
  is_int_literal pgrp = true ->
  is_int_literal session = true ->
  is_int_literal tty_nr = true ->
  Forall (fun c => c <> ")"%byte) rest ->
  match rest with [] => True | c :: _ => is_digit c = false end ->
  open_rb w (stat_path pid)
  = Return (record_text pidb comm state ppid pgrp session tty_nr ++ rest) ->
  (exists info,
      get_info w pid st = (Return info, logs st [Opened (stat_path pid)])
      /\ same_entries info (record_dict pidb comm state ppid pgrp session tty_nr))
  /\ ((List.length (digits_of tty_nr) <= int_max_str_digits)%nat ->
      (List.length (digits_of ppid) <= int_max_str_digits)%nat ->
      exists tty_value ppid_value,
        int tty_nr = Return tty_value /\ int ppid = Return ppid_value
        /\ has_record w pid tty_value ppid_value).
Proof.
  intros Hpid Hlen Hcomm Hst Hstc Hppid Hpgrp Hsess Htty Hrest Hend Ho.
  destruct (get_info_well_formed w pid st pidb comm state ppid pgrp session
                                 tty_nr rest)
    as [Hp Hi]; auto.
  split.
  - eexists. split; [exact Hi|].
    intros key. unfold record_dict. cbn [getitem].
    repeat match goal with
           | |- context [String.eqb ?a key] => destruct (String.eqb a key) eqn:?
           end; try reflexivity;
      repeat match goal with
             | H : String.eqb _ _ = true |- _ => apply String.eqb_eq in H
             end; congruence.
  - intros Hshort_tty Hshort_ppid.
    destruct (int_literal_short tty_nr Htty Hshort_tty) as [tty_value Htv].
    destruct (int_literal_short ppid Hppid Hshort_ppid) as [ppid_value Hpv].
    exists tty_value, ppid_value. repeat split; auto.
    eexists. eexists. split; [exact Ho|]. split; [exact Hp|].
    unfold field_int. cbn [getitem]. cbn. auto.
Qed.

Lemma get_info_reads_kernel_record_witness :
  let w := Machine.make
             [("/proc/42/stat"%string, Return close_paren_record)] [] in
  (exists info,
      get_info w 42 initial_state
      = (Return info, logs initial_state [Opened (stat_path 42)])
      /\ same_entries info
           (record_dict (b "42") (b "my)cmd") "S"%byte (b "1") (b "42") (b "42")
                        (b "34816")))
  /\ exists tty_value ppid_value,
      int (b "34816") = Return tty_value /\ int (b "1") = Return ppid_value
      /\ has_record w 42 tty_value ppid_value.
Proof.
  intros w.
  destruct (get_info_reads_kernel_record
              w 42 initial_state (b "42") (b "my)cmd") "S"%byte (b "1") (b "42")
              (b "42") (b "34816") []) as [Hinfo Hconv];
    [> first [reflexivity | discriminate | exact I | vm_compute; lia
             | repeat (constructor; [discriminate|]); constructor] .. | ].
  split; [exact Hinfo|].
  apply Hconv; vm_compute; lia.
Defined.

(** ** The drivers table *)

Lemma driver_pattern_shape :
  driver_pattern
  = Cat (Group "name" (Lazy is_nonspace_or_blank 1))
   (Cat (Greedy (fun c => (code c =? 32)%N) 1 None)
   (Cat (Group "path"
           (Cat (Lit "/"%byte) (Cat (Lit "d"%byte) (Cat (Lit "e"%byte)
           (Cat (Lit "v"%byte) (Cat (Lit "/"%byte)
                (Greedy is_nonspace 1 None)))))))
        (Lit " "%byte))).
Proof. reflexivity. Qed.

Lemma blank_byte c : (code c =? 32)%N = true -> c = " "%byte.
Proof.
  intros H. apply N.eqb_eq in H. unfold code in H.
  apply (f_equal Byte.of_N) in H. rewrite Byte.of_to_N in H. now inversion H.
Qed.

Lemma all_blanks s :
  Forall (fun c => (code c =? 32)%N = true) s -> s = blanks (List.length s).
Proof.
  induction 1 as [|c s Hc _ IH]; [reflexivity|].
  cbn [List.length blanks repeat]. fold (blanks (List.length s)).
  now rewrite <- IH, (blank_byte c Hc).
Qed.

Lemma bytes_eqb_eq x y : bytes_eqb x y = true <-> x = y.
Proof.
  unfold bytes_eqb. destruct (list_eq_dec Byte.byte_eq_dec x y); split; auto.
  discriminate.
Qed.

(** A line that contributes a folder is a [pty_slave] line, and the folder
    is its device path. *)
Lemma driver_line_sound line p :
  driver_line line = Return (Some p) ->
  exists padding dev rest,
    line = b "pty_slave" ++ blanks (S padding) ++ b "/dev/" ++ dev
             ++ " "%byte :: rest
    /\ dev <> []
    /\ Forall (fun c => is_nonspace c = true) dev
    /\ p = string_of_list_byte (b "/dev/" ++ dev).
Proof.
  unfold driver_line.
  destruct (search_anchored driver_pattern line) as [d|] eqn:Hs; [|discriminate].
  apply search_anchored_sound in Hs as (pre & rest & -> & Hr).
  rewrite driver_pattern_shape in Hr.
  repeat match goal with
         | H : run (Cat _ _) _ _ |- _ => inversion H; subst; clear H
         | H : run (Group _ _) _ _ |- _ => inversion H; subst; clear H
         | H : run (Lit _) _ _ |- _ => inversion H; subst; clear H
         end.
  repeat match goal with
         | H : run (Lazy _ _) _ _ |- _ => inversion H; subst; clear H
         | H : run (Greedy _ _ _) _ _ |- _ => inversion H; subst; clear H
         end.
  cbn [app getitem String.eqb Ascii.eqb Bool.eqb].
  match goal with
  | |- context [bytes_eqb ?n _] => destruct (bytes_eqb n (b "pty_slave")) eqn:Hname
  end; [|discriminate].
  apply bytes_eqb_eq in Hname. subst.
  match goal with
  | |- context [decode ?path] => destruct (decode path) as [q|e] eqn:Hd
  end; [|discriminate].
  intros H. inversion H; subst q. clear H.
  unfold decode in Hd.
  match type of Hd with
  | (if ?c then _ else _) = _ => destruct c; [|discriminate]
  end.
  inversion Hd; subst p. clear Hd.
  match goal with
  | Hb : Forall (fun c => (code c =? 32)%N = true) ?s,
    Hl : (1 <= List.length ?s)%nat,
    Hn : Forall (fun c => is_nonspace c = true) ?dev |- _ =>
      exists (Nat.pred (List.length s)), dev, rest;
      rewrite (all_blanks s Hb) at 1;
      replace (S (Nat.pred (List.length s))) with (List.length s) by lia
  end.
  repeat split; auto.
  - change (b "/dev/") with ["/"%byte; "d"%byte; "e"%byte; "v"%byte; "/"%byte].
    cbn [app]. rewrite <- !app_assoc. cbn [app]. rewrite <- !app_assoc.
    reflexivity.
  - intros ->. simpl in *. lia.
Qed.

Lemma collect_folders_sound lines :
  forall acc paths,
    collect_folders lines acc = Return paths ->
    exists new,
      paths = acc ++ new
      /\ Forall is_dev_folder new
      /\ (List.length new <= List.length lines)%nat.
Proof.
  induction lines as [|line lines IH]; intros acc paths H.
  - inversion H; subst. exists []. rewrite app_nil_r. auto.
  - cbn [collect_folders] in H.
    destruct (driver_line line) as [[p|]|e] eqn:Hl; [| |discriminate].
    + apply IH in H as (new & -> & Hall & Hlen).
      exists (p :: new). rewrite <- app_assoc. repeat split; auto.
      * constructor; [|exact Hall].
        apply driver_line_sound in Hl as (padding & dev & rest & _ & Hne & Hdev & ->).
        exists dev. repeat split; auto.
        eapply Forall_impl; [|exact Hdev].
        intros c Hc. unfold is_nonspace in Hc. now apply negb_true_iff in Hc.
      * simpl. lia.
    + apply IH in H as (new & -> & Hall & Hlen).
      exists new. repeat split; auto. simpl. lia.
Qed.

Lemma folders_miss_inv w st folders st1 :
  folders_cache st = None ->
  get_pty_slave_folders w st = (Return folders, st1) ->
  exists data,
    open_rb w drivers_path = Return data
    /\ collect_folders (readlines data) [] = Return folders
    /\ st1 = {| folders_cache := Some folders;
                io_log := io_log st ++ [Opened drivers_path] |}.
Proof.
  intros Hc. unfold get_pty_slave_folders. rewrite Hc.
  unfold get_pty_slave_folders_uncached, bind, read_file, lift.
  destruct (open_rb w drivers_path) as [data|e]; [|discriminate].
  destruct (collect_folders (readlines data) []) as [paths|e] eqn:Hcol;
    [|discriminate].
  intros H. inversion H; subst. now exists data.
Qed.

(** X6.  Every folder that the enumeration of the drivers table yields is
    [/dev/] followed by at least one byte and holds no white space, and
    there are no more folders than the file has lines. *)
Theorem folders_are_device_directories
        (w : world) (st st1 : state) (folders : list string) :
  folders_cache st = None ->
  get_pty_slave_folders w st = (Return folders, st1) ->
  Forall is_dev_folder folders
  /\ exists data,
      open_rb w drivers_path = Return data
      /\ (List.length folders <= List.length (readlines data))%nat.
Proof.
  intros Hc H.
  apply (folders_miss_inv _ _ _ _ Hc) in H as (data & Ho & Hcol & _).
  apply collect_folders_sound in Hcol as (new & -> & Hall & Hlen).
  split; [exact Hall|]. now exists data.
Qed.

Lemma folders_are_device_directories_witness :
  Forall is_dev_folder ["/dev/ttyp"; "/dev/pts"; "/dev/vpts"]%string
  /\ exists data,
      open_rb Restricted.host drivers_path = Return data
      /\ (3 <= List.length (readlines data))%nat.
Proof.
  refine (folders_are_device_directories
            Restricted.host initial_state
            {| folders_cache := Some ["/dev/ttyp"; "/dev/pts"; "/dev/vpts"]%string;
               io_log := [Opened "/proc/tty/drivers"] |} _ _ _).
  - reflexivity.
  - vm_compute. reflexivity.
Defined.

(** *** A table as the kernel writes it *)

Lemma exec_group_unfold name r s caps k :
  exec (Group name r) s caps k
  = exec r s caps
         (fun s' caps' =>
            k s' ((name, List.firstn (List.length s - List.length s') s) :: caps')).
Proof. reflexivity. Qed.

Lemma exec_greedy_whole_run (p : byte -> bool) lo hi pre post caps k r :
  Forall (fun c => p c = true) pre ->
  (lo <= List.length pre)%nat ->
  within hi (List.length pre) ->
  match post with [] => True | c :: _ => p c = false end ->
  k post caps = Some r ->
  exec (Greedy p lo hi) (pre ++ post) caps k = Some r.
Proof.
  intros Hall Hlo Hhi Hend Hk. cbn [exec]. now apply greedy_whole_run.
Qed.

Lemma exec_group_lazy_ok name (p : byte -> bool) lo pre post caps k r :
  Forall (fun c => p c = true) pre ->
  (lo <= List.length pre)%nat ->
  k post ((name, pre) :: caps) = Some r ->
  (forall pre1 pre2 caps', pre = pre1 ++ pre2 -> pre2 <> [] ->
                           (lo <= List.length pre1)%nat ->
                           k (pre2 ++ post) caps' = None) ->
  exec (Group name (Lazy p lo)) (pre ++ post) caps k = Some r.
Proof.
  intros Hall Hlo Hk Hfail. cbn [exec].
  apply lazy_first_success; auto.
  - now rewrite firstn_consumed.
  - intros pre1 pre2 Heq Hne Hl. now apply (Hfail pre1 pre2).
Qed.

Lemma nonspace_not_blank c : is_nonspace c = true -> (code c =? 32)%N = false.
Proof.
  unfold is_nonspace, is_space. intros H. apply negb_true_iff in H.
  now apply orb_false_iff in H as [H _].
Qed.

Lemma blanks_are_blank n :
  Forall (fun c => (code c =? 32)%N = true) (blanks n).
Proof. induction n; constructor; auto. Qed.

Lemma blanks_length n : List.length (blanks n) = n.
Proof. apply repeat_length. Qed.

(** The match found in a line of the table. *)
Lemma driver_search_rendered e :
  entry_ok e ->
  search_anchored driver_pattern (render_entry e)
  = Some [("path"%string, entry_path e); ("name"%string, drv_name e)].
Proof.
  intros (Hne & Hname & Hdne & Hdev & _ & _).
  unfold search_anchored, render_entry. rewrite driver_pattern_shape.
  rewrite exec_cat.
  apply exec_group_lazy_ok.
  - eapply Forall_impl; [|exact Hname].
    intros c Hc. unfold is_nonspace_or_blank. now rewrite Hc.
  - destruct (drv_name e); [contradiction|simpl; lia].
  - rewrite exec_cat.
    apply exec_greedy_whole_run;
      [apply blanks_are_blank|rewrite blanks_length; lia|exact I|reflexivity|].
    rewrite exec_cat, exec_group_unfold.
    change (b "/dev/") with ["/"%byte; "d"%byte; "e"%byte; "v"%byte; "/"%byte].
    change (b " ") with [" "%byte].
    cbn [app].
    rewrite exec_cat, exec_lit_ok, exec_cat, exec_lit_ok, exec_cat, exec_lit_ok,
      exec_cat, exec_lit_ok, exec_cat, exec_lit_ok.
    apply exec_greedy_whole_run;
      [exact Hdev
      |destruct (drv_dev e); [contradiction|simpl; lia]
      |exact I
      |reflexivity
      |].
    change ("/"%byte :: "d"%byte :: "e"%byte :: "v"%byte :: "/"%byte
              :: drv_dev e ++ " "%byte :: drv_rest e ++ [x0a])
      with (entry_path e ++ (" "%byte :: drv_rest e ++ [x0a])).
    rewrite firstn_consumed, exec_lit_ok. reflexivity.
  - intros pre1 pre2 caps' Heq Hne2 _.
    rewrite exec_cat. cbn [exec].
    rewrite greedy_all_fail; [reflexivity|].
    intros mid post Hsplit Hmid Hall.
    destruct mid as [|m mid]; [contradiction|].
    destruct pre2 as [|c pre2]; [contradiction|].
    cbn [app] in Hsplit. inversion Hsplit; subst m.
    inversion Hall as [|? ? Hb _]; subst.
    assert (Hc : is_nonspace c = true).
    { rewrite Heq in Hname. apply Forall_app in Hname as [_ Hname].
      now inversion Hname. }
    rewrite (nonspace_not_blank c Hc) in Hb. discriminate.
Qed.

Lemma driver_line_rendered e :
  entry_ok e ->
  driver_line (render_entry e)
  = Return (if is_pty_slave e
            then Some (string_of_list_byte (entry_path e))
            else None).
Proof.
  intros Hok. unfold driver_line.
  rewrite (driver_search_rendered e Hok).
  cbn [getitem String.eqb Ascii.eqb Bool.eqb].
  fold (is_pty_slave e).
  destruct (is_pty_slave e) eqn:Hp; [|reflexivity].
  destruct Hok as (_ & _ & _ & _ & _ & Hutf).
  unfold decode. now rewrite (Hutf Hp).
Qed.

Lemma collect_folders_rendered entries :
  Forall entry_ok entries ->
  forall acc,
    collect_folders (map render_entry entries) acc
    = Return (acc ++ pty_slave_paths entries).
Proof.
  induction 1 as [|e entries He _ IH]; intros acc.
  - cbn. now rewrite app_nil_r.
  - cbn [map collect_folders]. rewrite (driver_line_rendered e He).
    unfold pty_slave_paths. cbn [filter].
    destruct (is_pty_slave e).
    + rewrite IH. cbn [map]. rewrite <- app_assoc. reflexivity.
    + apply IH.
Qed.

Lemma readlines_line l data :
  Forall (fun c => c <> x0a) l ->
  readlines (l ++ x0a :: data) = (l ++ [x0a]) :: readlines data.
Proof.
  induction 1 as [|c l Hc _ IH]; [reflexivity|].
  cbn [app readlines]. rewrite IH.
  destruct (code c =? 10)%N eqn:Hnl; [|reflexivity].
  exfalso. apply Hc. apply N.eqb_eq in Hnl. unfold code in Hnl.
  apply (f_equal Byte.of_N) in Hnl. rewrite Byte.of_to_N in Hnl.
  now inversion Hnl.
Qed.

Lemma nonspace_not_newline c : is_nonspace c = true -> c <> x0a.
Proof. intros H ->. discriminate. Qed.

Lemma readlines_rendered entries :
  Forall entry_ok entries ->
  readlines (List.concat (map render_entry entries)) = map render_entry entries.
Proof.
  induction 1 as [|e entries He _ IH]; [reflexivity|].
  cbn [map List.concat].
  destruct He as (_ & Hname & _ & Hdev & Hrest & _).
  unfold render_entry at 1.
  replace ((drv_name e ++ blanks (S (drv_padding e)) ++ b "/dev/" ++ drv_dev e
              ++ b " " ++ drv_rest e ++ [x0a])
             ++ List.concat (map render_entry entries))
    with ((drv_name e ++ blanks (S (drv_padding e)) ++ b "/dev/" ++ drv_dev e
             ++ b " " ++ drv_rest e)
            ++ x0a :: List.concat (map render_entry entries))
    by (rewrite <- !app_assoc; reflexivity).
  rewrite readlines_line, IH.
  - unfold render_entry. now rewrite <- !app_assoc.
  - repeat (apply Forall_app; split).
    + eapply Forall_impl; [|exact Hname]. apply nonspace_not_newline.
    + eapply Forall_impl; [|apply blanks_are_blank].
      intros c Hc ->. discriminate.
    + repeat (constructor; [discriminate|]). constructor.
    + eapply Forall_impl; [|exact Hdev]. apply nonspace_not_newline.
    + repeat (constructor; [discriminate|]). constructor.
    + exact Hrest.
Qed.

(** X7.  From a drivers table written line by line as name, padding,
    [/dev/] path, blank and further columns, the enumeration returns the
    paths of the lines whose name is [pty_slave], in the order of the
    file, opens the file once and stores the list. *)
Theorem folders_of_kernel_table
        (w : world) (st : state) (entries : list driver_entry) :
  Forall entry_ok entries ->
  folders_cache st = None ->
  open_rb w drivers_path = Return (List.concat (map render_entry entries)) ->
  get_pty_slave_folders w st
  = (Return (pty_slave_paths entries),
     {| folders_cache := Some (pty_slave_paths entries);
        io_log := io_log st ++ [Opened drivers_path] |}).
Proof.
  intros Hok Hc Ho.
  unfold get_pty_slave_folders. rewrite Hc.
  unfold get_pty_slave_folders_uncached, bind, read_file, lift.
  rewrite Ho, (readlines_rendered entries Hok).
  now rewrite (collect_folders_rendered entries Hok []).
Qed.

Ltac solve_entry :=
  split; [discriminate|];
  split; [repeat (constructor; [reflexivity|]); constructor|];
  split; [discriminate|];
  split; [repeat (constructor; [reflexivity|]); constructor|];
  split; [repeat (constructor; [discriminate|]); constructor|];
  intros _; reflexivity.

Ltac solve_entries := repeat (constructor; [solve_entry|]); constructor.

Lemma folders_of_kernel_table_witness :
  get_pty_slave_folders Machine.desktop initial_state
  = (Return ["/dev/pts"%string],
     {| folders_cache := Some ["/dev/pts"%string];
        io_log := [Opened "/proc/tty/drivers"] |}).
Proof.
  refine (folders_of_kernel_table Machine.desktop initial_state Table.entries
                                  _ _ _).
  - solve_entries.
  - reflexivity.
  - vm_compute. reflexivity.
Defined.

(** ** The walk, whatever its outcome *)

(** One call of [get_pty_slave] on a record that parses: the two
    conversions and the scan in between. *)
Lemma level_step fuel w pid depth st folders st1 data info :
  get_pty_slave_folders w st = (Return folders, st1) ->
  open_rb w (stat_path pid) = Return data ->
  parse_stat data = Return info ->
  get_pty_slave_rec (S fuel) w pid depth st
  = match field_int info "tty_nr" with
    | Raise e => (Raise e, logs st1 [Opened (stat_path pid)])
    | Return tty_nr =>
        match scan_folders w tty_nr (calculate_minor_device_number tty_nr)
                           folders (logs st1 [Opened (stat_path pid)]) with
        | (Return (Some device_path), st3) => (Return (Some device_path), st3)
        | (Return None, st3) =>
            if depth =? 2 then (Return None, st3)
            else match field_int info "ppid" with
                 | Raise e => (Raise e, st3)
                 | Return ppid => get_pty_slave_rec fuel w ppid (depth + 1) st3
                 end
        | (Raise e, st3) => (Raise e, st3)
        end
    end.
Proof.
  intros Hf Ho Hp.
  destruct (parsed_record_fields data info Hp)
    as (vt & vp & Hgt & _ & Hgp & _).
  unfold field_int. rewrite Hgt, Hgp.
  cbn [get_pty_slave_rec].
  unfold bind at 1. rewrite Hf.
  unfold bind at 1. rewrite (get_info_ok _ _ _ _ _ Ho Hp).
  unfold bind at 1. unfold lift at 1. rewrite Hgt.
  unfold bind at 1. unfold lift at 1.
  destruct (int vt) as [tty_nr|e]; [|reflexivity].
  unfold bind at 1.
  destruct (scan_folders _ _ _ _ _) as [[[device_path|]|e] st3]; try reflexivity.
  destruct (depth =? 2); [reflexivity|].
  unfold bind at 1. unfold lift at 1. rewrite Hgp.
  unfold bind at 1. unfold lift at 1.
  destruct (int vp) as [ppid|e]; reflexivity.
Qed.

(** A field of a parsed record that does not convert has too many
    digits, and the exception is [ValueError]. *)
Lemma field_too_long w pid data info key e :
  key = "tty_nr"%string \/ key = "ppid"%string ->
  open_rb w (stat_path pid) = Return data ->
  parse_stat data = Return info ->
  field_int info key = Raise e ->
  e = ValueError /\ too_long w pid key.
Proof.
  intros Hkey Ho Hp Hr.
  destruct (parsed_record_fields data info Hp)
    as (vt & vp & Hgt & Hlt & Hgp & Hlp).
  unfold field_int in Hr.
  destruct Hkey as [->| ->].
  - rewrite Hgt in Hr. destruct (int_literal_raises vt e Hlt Hr) as [-> Hlen].
    split; [reflexivity|]. exists data, info, vt. auto.
  - rewrite Hgp in Hr. destruct (int_literal_raises vp e Hlp Hr) as [-> Hlen].
    split; [reflexivity|]. exists data, info, vp. auto.
Qed.

(** What one call of [get_pty_slave] does, case by case. *)
Lemma level_inv fuel w pid depth st r st' :
  get_pty_slave_rec (S fuel) w pid depth st = (r, st') ->
  (exists e, get_pty_slave_folders w st = (Raise e, st') /\ r = Raise e)
  \/ exists folders st1,
      get_pty_slave_folders w st = (Return folders, st1)
      /\ ((exists e, get_info w pid st1 = (Raise e, st') /\ r = Raise e)
          \/ (too_long w pid "tty_nr" /\ r = Raise ValueError
              /\ st' = logs st1 [Opened (stat_path pid)])
          \/ exists tty_nr,
              has_tty w pid tty_nr
              /\ exists rs st3,
                  scan_folders w tty_nr (calculate_minor_device_number tty_nr)
                               folders (logs st1 [Opened (stat_path pid)])
                  = (rs, st3)
                  /\ match rs with
                     | Raise e => r = Raise e /\ st' = st3
                     | Return (Some path) => r = Return (Some path) /\ st' = st3
                     | Return None =>
                         (depth = 2 /\ r = Return None /\ st' = st3)
                         \/ (depth <> 2 /\ too_long w pid "ppid"
                             /\ r = Raise ValueError /\ st' = st3)
                         \/ (depth <> 2
                             /\ exists ppid,
                                 has_record w pid tty_nr ppid
                                 /\ get_pty_slave_rec fuel w ppid (depth + 1) st3
                                    = (r, st'))
                     end).
Proof.
  intros H.
  destruct (get_pty_slave_folders w st) as [[folders|e] st1] eqn:Hf.
  - right. exists folders, st1. split; [reflexivity|].
    destruct (get_info w pid st1) as [[info|e] st2] eqn:Hi.
    + right.
      apply get_info_returns in Hi as (-> & data & Ho & Hp).
      rewrite (level_step _ _ _ _ _ _ _ _ _ Hf Ho Hp) in H.
      destruct (field_int info "tty_nr") as [tty_nr|e] eqn:Ht.
      * right. exists tty_nr. split; [now exists data, info|].
        destruct (scan_folders _ _ _ _ _) as [[[path|]|e] st3] eqn:Hs.
        -- exists (Return (Some path)), st3. split; [reflexivity|].
           now inversion H.
        -- exists (Return None), st3. split; [reflexivity|].
           destruct (depth =? 2) eqn:Hd.
           ++ apply Z.eqb_eq in Hd. left. now inversion H.
           ++ apply Z.eqb_neq in Hd. right.
              destruct (field_int info "ppid") as [ppid|e] eqn:Hpp.
              ** right. split; [exact Hd|]. exists ppid.
                 split; [now exists data, info|exact H].
              ** left. destruct (field_too_long w pid data info "ppid" e)
                   as [-> Hlong]; auto.
                 inversion H. auto.
        -- exists (Raise e), st3. split; [reflexivity|]. now inversion H.
      * left. destruct (field_too_long w pid data info "tty_nr" e)
          as [-> Hlong]; auto.
        inversion H. auto.
    + left. exists e.
      pose proof (get_info_log _ _ _ _ _ Hi) as ->.
      rewrite (level_record_error _ _ _ _ _ _ _ _ Hf Hi) in H.
      now inversion H.
  - left. exists e. rewrite (level_table_error _ _ _ _ _ _ _ Hf) in H.
    now inversion H.
Qed.

Lemma scan_log_bound w tty_nr minor folders :
  forall st r st',
    scan_folders w tty_nr minor folders st = (r, st') ->
    exists paths,
      st' = logs st (map Statted paths)
      /\ (List.length paths <= List.length folders)%nat.
Proof.
  induction folders as [|folder folders IH]; intros st r st' H.
  - inversion H; subst. exists []. rewrite logs_nil. auto.
  - assert (Hnext : scan_folders w tty_nr minor folders
                      (logs st [Statted (device_path_of folder minor)]) = (r, st') ->
                    exists paths,
                      st' = logs st (map Statted paths)
                      /\ (List.length paths <= List.length (folder :: folders))%nat).
    { intros H'. apply IH in H' as (paths & -> & Hlen).
      exists (device_path_of folder minor :: paths).
      rewrite logs_logs. split; [reflexivity|simpl; lia]. }
    assert (Hstop : (r, st') = (r, logs st [Statted (device_path_of folder minor)]) ->
                    exists paths,
                      st' = logs st (map Statted paths)
                      /\ (List.length paths <= List.length (folder :: folders))%nat).
    { intros H'. inversion H'. exists [device_path_of folder minor].
      split; [reflexivity|simpl; lia]. }
    destruct (stat_rdev w (device_path_of folder minor)) as [rdev|e] eqn:Hs.
    + destruct (Z.eq_dec rdev tty_nr) as [->|Hne].
      * rewrite (scan_accept _ _ _ _ _ _ Hs) in H. inversion H; subst.
        now apply Hstop.
      * apply Hnext. rewrite <- H. symmetry. apply scan_skip. right. now exists rdev.
    + destruct (is_FileNotFoundError e) eqn:He.
      * apply Hnext. rewrite <- H. symmetry. apply scan_skip. left.
        destruct e; (discriminate || exact Hs).
      * rewrite (scan_error _ _ _ _ _ _ _ Hs He) in H. inversion H; subst.
        now apply Hstop.
Qed.

Lemma stat_calls_app evs1 evs2 :
  stat_calls (evs1 ++ evs2) = (stat_calls evs1 + stat_calls evs2)%nat.
Proof. unfold stat_calls. now rewrite filter_app, length_app. Qed.

Lemma drivers_opens_app evs1 evs2 :
  drivers_opens (evs1 ++ evs2) = (drivers_opens evs1 + drivers_opens evs2)%nat.
Proof. unfold drivers_opens. now rewrite filter_app, length_app. Qed.

Lemma lookups_append evs1 evs2 :
  lookups (evs1 ++ evs2) = (lookups evs1 + lookups evs2)%nat.
Proof. unfold lookups. now rewrite filter_app, length_app. Qed.

Lemma stat_calls_statted paths :
  stat_calls (map Statted paths) = List.length paths.
Proof.
  unfold stat_calls. induction paths; simpl; auto.
Qed.

Lemma drivers_opens_statted paths : drivers_opens (map Statted paths) = 0%nat.
Proof. unfold drivers_opens. induction paths; simpl; auto. Qed.

Lemma lookups_statted paths : lookups (map Statted paths) = 0%nat.
Proof. unfold lookups. now rewrite filter_statted. Qed.

Lemma level_events pid paths :
  lookups (Opened (stat_path pid) :: map Statted paths) = 1%nat
  /\ drivers_opens (Opened (stat_path pid) :: map Statted paths) = 0%nat
  /\ stat_calls (Opened (stat_path pid) :: map Statted paths)
     = List.length paths.
Proof.
  repeat split.
  - change (Opened (stat_path pid) :: map Statted paths)
      with ([Opened (stat_path pid)] ++ map Statted paths).
    rewrite lookups_append, lookups_statted. unfold lookups. cbn [filter].
    now rewrite filter_stat_open.
  - change (Opened (stat_path pid) :: map Statted paths)
      with ([Opened (stat_path pid)] ++ map Statted paths).
    rewrite drivers_opens_app, drivers_opens_statted.
    unfold drivers_opens. cbn [filter is_drivers_open].
    now rewrite stat_path_not_drivers.
  - change (Opened (stat_path pid) :: map Statted paths)
      with ([Opened (stat_path pid)] ++ map Statted paths).
    now rewrite stat_calls_app, stat_calls_statted.
Qed.

(** The events of getting the table: none from the cache, one [open]
    otherwise. *)
Lemma folders_events w st r st1 :
  get_pty_slave_folders w st = (r, st1) ->
  exists evs,
    io_log st1 = io_log st ++ evs
    /\ lookups evs = 0%nat /\ stat_calls evs = 0%nat
    /\ (drivers_opens evs <= 1)%nat
    /\ (folders_cache st <> None -> drivers_opens evs = 0%nat).
Proof.
  intros H. apply folders_log in H as [H|[Hc H]].
  - exists []. rewrite app_nil_r. repeat split; auto.
  - exists [Opened drivers_path]. repeat split; auto.
    intros Hne. contradiction.
Qed.

(** Whatever a call does, it opens at most [3 - parent_search_depth]
    status records and at most once the drivers table, never when the
    cache is filled, and examines each folder at most once per record. *)
Lemma rec_bound w fuel :
  forall pid depth st r st',
    depth <= 2 ->
    get_pty_slave_rec fuel w pid depth st = (r, st') ->
    exists evs,
      io_log st' = io_log st ++ evs
      /\ (lookups evs <= Z.to_nat (3 - depth))%nat
      /\ (drivers_opens evs <= 1)%nat
      /\ (folders_cache st <> None -> drivers_opens evs = 0%nat)
      /\ (forall folders st1,
             get_pty_slave_folders w st = (Return folders, st1) ->
             (stat_calls evs <= Z.to_nat (3 - depth) * List.length folders)%nat)
      /\ (forall e st1,
             get_pty_slave_folders w st = (Raise e, st1) ->
             stat_calls evs = 0%nat).
Proof.
  induction fuel as [|fuel IH]; intros pid depth st r st' Hd H.
  { inversion H; subst. exists []. rewrite app_nil_r.
    repeat split; auto; intros;
      unfold lookups, stat_calls, drivers_opens; cbn [filter List.length];
      apply Nat.le_0_l. }
  assert (HN : Z.to_nat (3 - depth) = S (Z.to_nat (3 - (depth + 1)))).
  { replace (3 - depth) with (Z.succ (3 - (depth + 1))) by lia.
    apply Z2Nat.inj_succ. lia. }
  assert (Hone : forall evs1 st1 paths folders,
             get_pty_slave_folders w st = (Return folders, st1) ->
             io_log st1 = io_log st ++ evs1 ->
             lookups evs1 = 0%nat -> stat_calls evs1 = 0%nat ->
             (drivers_opens evs1 <= 1)%nat ->
             (folders_cache st <> None -> drivers_opens evs1 = 0%nat) ->
             (List.length paths <= List.length folders)%nat ->
             exists evs,
               io_log (logs st1 (Opened (stat_path pid) :: map Statted paths))
               = io_log st ++ evs
               /\ (lookups evs <= Z.to_nat (3 - depth))%nat
               /\ (drivers_opens evs <= 1)%nat
               /\ (folders_cache st <> None -> drivers_opens evs = 0%nat)
               /\ (forall folders0 st0,
                      get_pty_slave_folders w st = (Return folders0, st0) ->
                      (stat_calls evs
                       <= Z.to_nat (3 - depth) * List.length folders0)%nat)
               /\ (forall e st0,
                      get_pty_slave_folders w st = (Raise e, st0) ->
                      stat_calls evs = 0%nat)).
  { intros evs1 st1 paths folders Hf Hl1 Hlk Hsc Hdo Hdc Hlen.
    destruct (level_events pid paths) as (El & Ed & Es).
    exists (evs1 ++ Opened (stat_path pid) :: map Statted paths).
    cbn [logs io_log]. rewrite Hl1, <- app_assoc.
    rewrite lookups_append, drivers_opens_app, stat_calls_app, El, Ed, Es, Hlk, Hsc.
    repeat split; auto; try lia.
    - intros Hc. rewrite (Hdc Hc). reflexivity.
    - intros folders0 st0 Hf0. rewrite Hf in Hf0.
      inversion Hf0 as [[Hfo Hst0]]. rewrite <- Hfo.
      rewrite HN, Nat.mul_succ_l.
      remember (Z.to_nat (3 - (depth + 1)) * List.length folders)%nat as X.
      clear HeqX. lia.
    - intros e st0 Hf0. rewrite Hf in Hf0. discriminate. }
  apply level_inv in H
    as [(e & Hf & ->)
       |(folders & st1 & Hf
         & [(e & Hi & ->)
           |[(_ & _ & ->)
            |(tty_nr & Hrec & rs & st3 & Hs & Hcase)]])].
  - pose proof (folders_events _ _ _ _ Hf) as (evs & Hl & Hlk & Hsc & Hdo & Hdc).
    exists evs. rewrite Hlk, Hsc.
    split; [exact Hl|]. split; [apply Nat.le_0_l|].
    split; [exact Hdo|]. split; [exact Hdc|].
    split; [|reflexivity].
    intros folders st1 Hf0. rewrite Hf in Hf0. discriminate.
  - pose proof (folders_events _ _ _ _ Hf) as (evs1 & Hl1 & Hlk & Hsc & Hdo & Hdc).
    pose proof (get_info_log _ _ _ _ _ Hi) as ->.
    apply (Hone evs1 st1 [] folders); auto. apply Nat.le_0_l.
  - pose proof (folders_events _ _ _ _ Hf) as (evs1 & Hl1 & Hlk & Hsc & Hdo & Hdc).
    apply (Hone evs1 st1 [] folders); auto. apply Nat.le_0_l.
  - pose proof (folders_events _ _ _ _ Hf) as (evs1 & Hl1 & Hlk & Hsc & Hdo & Hdc).
    apply scan_log_bound in Hs as (paths & -> & Hlen).
    rewrite logs_logs in *. cbn [app] in *.
    destruct rs as [[path|]|e].
    + destruct Hcase as [_ ->]. now apply (Hone evs1 st1 paths folders).
    + destruct Hcase as [(_ & _ & ->)|[(_ & _ & _ & ->)|(Hne & ppid & _ & Hrec')]].
      * now apply (Hone evs1 st1 paths folders).
      * now apply (Hone evs1 st1 paths folders).
      * pose proof (folders_fill_cache _ _ _ _ Hf) as Hc.
        destruct (Hone evs1 st1 paths folders Hf Hl1 Hlk Hsc Hdo Hdc Hlen)
          as (evsA & HlA & HkA & HdA & HcA & HsA & HeA).
        apply IH in Hrec' as (evsB & HlB & HkB & HdB & HcB & HsB & _); [|lia].
        assert (HdB0 : drivers_opens evsB = 0%nat).
        { apply HcB. cbn [logs folders_cache]. rewrite Hc. discriminate. }
        assert (HsB' : (stat_calls evsB
                        <= Z.to_nat (3 - (depth + 1)) * List.length folders)%nat).
        { apply (HsB folders (logs st1 (Opened (stat_path pid) :: map Statted paths))).
          now apply folders_cached. }
        destruct (level_events pid paths) as (El & Ed & Es).
        assert (HevsA : evsA = evs1 ++ Opened (stat_path pid) :: map Statted paths).
        { cbn [logs io_log] in HlA. rewrite Hl1, <- app_assoc in HlA.
          now apply app_inv_head in HlA. }
        assert (HkA1 : lookups evsA = 1%nat).
        { rewrite HevsA, lookups_append, Hlk, El. reflexivity. }
        assert (HsA1 : stat_calls evsA = List.length paths).
        { rewrite HevsA, stat_calls_app, Hsc, Es. reflexivity. }
        exists (evsA ++ evsB).
        rewrite HlB, HlA, <- app_assoc.
        rewrite lookups_append, drivers_opens_app, stat_calls_app, HdB0.
        split; [reflexivity|].
        split; [rewrite HN; lia|].
        split; [lia|].
        split; [intros Hc0; rewrite (HcA Hc0); reflexivity|].
        split.
        -- intros folders0 st0 Hf0. rewrite Hf in Hf0.
           inversion Hf0 as [[Hfo Hst0]]. rewrite <- Hfo.
           rewrite HN, Nat.mul_succ_l.
      remember (Z.to_nat (3 - (depth + 1)) * List.length folders)%nat as X.
      clear HeqX. lia.
        -- intros e st0 Hf0. rewrite Hf in Hf0. discriminate.
    + destruct Hcase as [_ ->]. now apply (Hone evs1 st1 paths folders).
Qed.

Lemma scan_keeps_cache w tty_nr minor folders st r st' :
  scan_folders w tty_nr minor folders st = (r, st') ->
  folders_cache st' = folders_cache st.
Proof. intros H. apply scan_log in H as [paths ->]. reflexivity. Qed.

(** Once the table was obtained it is what the cache holds at the end. *)
Lemma rec_cache w fuel :
  forall pid depth st r st' folders st1,
    get_pty_slave_folders w st = (Return folders, st1) ->
    get_pty_slave_rec fuel w pid depth st = (r, st') ->
    fuel <> O ->
    folders_cache st' = Some folders.
Proof.
  induction fuel as [|fuel IH]; intros pid depth st r st' folders st1 Hf H Hfuel;
    [contradiction|].
  pose proof (folders_fill_cache _ _ _ _ Hf) as Hc.
  apply level_inv in H
    as [(e & Hf' & _)
       |(folders' & st1' & Hf'
         & [(e & Hi & _)
           |[(_ & _ & Hst)
            |(tty_nr & _ & rs & st3 & Hs & Hcase)]])];
    rewrite Hf in Hf'; [discriminate| | |]; inversion Hf'; subst folders' st1'.
  - now rewrite (get_info_log _ _ _ _ _ Hi).
  - now rewrite Hst.
  - pose proof (scan_keeps_cache _ _ _ _ _ _ _ Hs) as Hk.
    cbn [logs folders_cache] in Hk.
    destruct rs as [[path|]|e].
    + destruct Hcase as [_ ->]. congruence.
    + destruct Hcase as [(_ & _ & ->)|[(_ & _ & _ & ->)|(_ & ppid & _ & Hrec)]];
        [congruence|congruence|].
      destruct fuel as [|fuel']; [inversion Hrec; subst; congruence|].
      apply (IH _ _ _ _ _ folders st3) in Hrec; auto.
      apply folders_cached. congruence.
    + destruct Hcase as [_ ->]. congruence.
Qed.

(** A path that is returned is a candidate of the process or of one of
    its ancestors within reach, with the [st_rdev] of that one's terminal
    identifier. *)
Lemma rec_found_sound w fuel :
  forall pid depth st path st',
    depth <= 2 ->
    get_pty_slave_rec fuel w pid depth st = (Return (Some path), st') ->
    exists q tty_nr folders folder,
      within_hops w (Z.to_nat (2 - depth)) pid q
      /\ has_tty w q tty_nr
      /\ folders_cache st' = Some folders
      /\ In folder folders
      /\ path = device_path_of folder (calculate_minor_device_number tty_nr)
      /\ stat_rdev w path = Return tty_nr.
Proof.
  induction fuel as [|fuel IH]; intros pid depth st path st' Hd H; [discriminate|].
  apply level_inv in H
    as [(e & _ & He)
       |(folders & st1 & Hf
         & [(e & _ & He)
           |[(_ & He & _)
            |(tty_nr & Hrec & rs & st3 & Hs & Hcase)]])];
    try discriminate.
  pose proof (folders_fill_cache _ _ _ _ Hf) as Hc.
  pose proof (scan_keeps_cache _ _ _ _ _ _ _ Hs) as Hk.
  cbn [logs folders_cache] in Hk.
  destruct rs as [[path'|]|e].
  - destruct Hcase as [Hr ->]. inversion Hr; subst path'.
    apply scan_found_inv in Hs
      as (before & folder & rest & -> & Hp & Hst & _ & _).
    exists pid, tty_nr, (before ++ folder :: rest), folder.
    repeat split; auto.
    + constructor.
    + congruence.
    + apply in_or_app. right. now left.
  - destruct Hcase as [(_ & Hr & _)|[(_ & _ & Hr & _)|(Hne & ppid & Hrec' & Hrest)]];
      [discriminate|discriminate|].
    apply IH in Hrest
      as (q & tty' & folders' & folder & Hhops & Hq & Hcache & Hin & Hp & Hst);
      [|lia].
    exists q, tty', folders', folder. repeat split; auto.
    replace (Z.to_nat (2 - depth)) with (S (Z.to_nat (2 - (depth + 1)))).
    + now apply hops_up with tty_nr ppid.
    + rewrite <- Z2Nat.inj_succ by lia. f_equal. lia.
  - destruct Hcase as [Hr _]. discriminate.
Qed.

(** Started deeper than 2 the walk has no end of its own. *)
Lemma rec_deep_never_none w fuel :
  forall pid depth st st',
    2 < depth ->
    get_pty_slave_rec fuel w pid depth st <> (Return None, st').
Proof.
  induction fuel as [|fuel IH]; intros pid depth st st' Hd H; [discriminate|].
  apply level_inv in H
    as [(e & _ & He)
       |(folders & st1 & Hf
         & [(e & _ & He)
           |[(_ & He & _)
            |(tty_nr & Hrec & rs & st3 & Hs & Hcase)]])];
    try discriminate.
  destruct rs as [[path'|]|e].
  - destruct Hcase as [Hr _]. discriminate.
  - destruct Hcase as [(Heq & _)|[(_ & _ & Hr & _)|(_ & ppid & _ & Hrest)]];
      [lia|discriminate|].
    apply IH in Hrest; [contradiction|lia].
  - destruct Hcase as [Hr _]. discriminate.
Qed.

(** X8.  Whatever [get_pty_slave] answers, it has opened at most three
    status records and examined each folder of the table at most three
    times, and it has opened the drivers table at most once: not at all
    when the cache was filled, although it asks for the table at every
    level of the walk.  When it ends without a table it has looked at no
    status record and no device node. *)
Theorem get_pty_slave_bounded_work
        (w : world) (pid : Z) (st st' : state) (r : result (option string)) :
  get_pty_slave w pid st = (r, st') ->
  exists evs,
    io_log st' = io_log st ++ evs
    /\ (lookups evs <= 3)%nat
    /\ (drivers_opens evs <= 1)%nat
    /\ (folders_cache st <> None -> drivers_opens evs = 0%nat)
    /\ (forall folders,
           folders_cache st' = Some folders ->
           (stat_calls evs <= 3 * List.length folders)%nat)
    /\ (folders_cache st' = None ->
        lookups evs = 0%nat /\ stat_calls evs = 0%nat).
Proof.
  intros H. unfold get_pty_slave in H.
  pose proof (rec_bound w recursion_limit pid 0 st r st' ltac:(lia) H)
    as (evs & Hl & Hk & Hd & Hc & Hs & He).
  exists evs. change (Z.to_nat (3 - 0)) with 3%nat in *.
  repeat split; auto.
  - intros folders Hcache.
    destruct (get_pty_slave_folders w st) as [[folders0|e] st1] eqn:Hf.
    + assert (Hcache' : folders_cache st' = Some folders0).
      { apply (rec_cache w recursion_limit pid 0 st r st' folders0 st1); auto.
        discriminate. }
      rewrite Hcache in Hcache'. inversion Hcache'; subst.
      now apply (Hs folders0 st1).
    + rewrite (He e st1 eq_refl). apply Nat.le_0_l.
  - destruct (get_pty_slave_folders w st) as [[folders0|e] st1] eqn:Hf.
    + assert (Hcache' : folders_cache st' = Some folders0).
      { apply (rec_cache w recursion_limit pid 0 st r st' folders0 st1); auto.
        discriminate. }
      congruence.
    + rewrite recursion_limit_unfold in H.
      rewrite (level_table_error _ _ _ _ _ _ _ Hf) in H.
      inversion H; subst.
      apply folders_events in Hf as (evs' & Hl' & Hlk & _).
      rewrite Hl' in Hl. apply app_inv_head in Hl. now subst.
  - destruct (get_pty_slave_folders w st) as [[folders0|e] st1] eqn:Hf.
    + assert (Hcache' : folders_cache st' = Some folders0).
      { apply (rec_cache w recursion_limit pid 0 st r st' folders0 st1); auto.
        discriminate. }
      congruence.
    + now apply (He e st1).
Qed.

Lemma get_pty_slave_bounded_work_witness :
  exists evs,
    [Opened "/proc/tty/drivers"; Opened "/proc/900/stat"; Statted "/dev/pts/0";
     Opened "/proc/4242/stat"; Statted "/dev/pts/1"]
    = io_log initial_state ++ evs
    /\ (lookups evs <= 3)%nat
    /\ (drivers_opens evs <= 1)%nat.
Proof.
  assert (H : get_pty_slave Nested.host 900 initial_state
              = (Return (Some "/dev/pts/1"%string),
                 {| folders_cache := Some ["/dev/pts"%string];
                    io_log := [Opened "/proc/tty/drivers"; Opened "/proc/900/stat";
                               Statted "/dev/pts/0"; Opened "/proc/4242/stat";
                               Statted "/dev/pts/1"] |}))
    by (vm_compute; reflexivity).
  destruct (get_pty_slave_bounded_work _ _ _ _ _ H)
    as (evs & Hl & Hk & Hd & _).
  exists evs. auto.
Defined.

(** X9.  A path that [get_pty_slave] returns is never an arbitrary one:
    it is a folder of the table joined with the decoded minor number of
    the process itself, of its parent or of its grandparent, and the node
    at that path has as [st_rdev] the terminal identifier of that very
    process.  Of the process whose terminal is returned only the
    [tty_nr] was converted; the ones below it on the way had their
    [ppid] converted too. *)
Theorem get_pty_slave_returns_a_terminal_of_the_family
        (w : world) (pid : Z) (st st' : state) (path : string) :
  get_pty_slave w pid st = (Return (Some path), st') ->
  exists q tty_nr folders folder,
    within_hops w 2 pid q
    /\ has_tty w q tty_nr
    /\ folders_cache st' = Some folders
    /\ In folder folders
    /\ path = device_path_of folder (calculate_minor_device_number tty_nr)
    /\ stat_rdev w path = Return tty_nr.
Proof.
  intros H. unfold get_pty_slave in H.
  exact (rec_found_sound w recursion_limit pid 0 st path st' ltac:(lia) H).
Qed.

Lemma get_pty_slave_returns_a_terminal_of_the_family_witness :
  exists q tty_nr folders folder,
    within_hops Nested.host 2 900 q
    /\ has_tty Nested.host q tty_nr
    /\ Some ["/dev/pts"%string] = Some folders
    /\ In folder folders
    /\ "/dev/pts/1"%string
       = device_path_of folder (calculate_minor_device_number tty_nr)
    /\ stat_rdev Nested.host "/dev/pts/1" = Return tty_nr.
Proof.
  assert (H : get_pty_slave Nested.host 900 initial_state
              = (Return (Some "/dev/pts/1"%string),
                 {| folders_cache := Some ["/dev/pts"%string];
                    io_log := [Opened "/proc/tty/drivers"; Opened "/proc/900/stat";
                               Statted "/dev/pts/0"; Opened "/proc/4242/stat";
                               Statted "/dev/pts/1"] |}))
    by (vm_compute; reflexivity).
  exact (get_pty_slave_returns_a_terminal_of_the_family _ _ _ _ _ H).
Defined.

(** The terminal of a process is found whatever its [ppid] field holds:
    the record of pid 7 of [Long.attached] has a [ppid] of 4301 digits,
    which [int] refuses, and [get_pty_slave] returns its terminal without
    ever converting that field. *)
Lemma terminal_found_before_ppid_is_read :
  fst (get_pty_slave Long.attached 7 initial_state)
  = Return (Some "/dev/pts/0"%string)
  /\ has_tty Long.attached 7 34816
  /\ too_long Long.attached 7 "ppid"
  /\ forall tty_nr ppid, ~ has_record Long.attached 7 tty_nr ppid.
Proof.
  assert (Hp : parse_stat Long.record
               = Return [("tty_nr"%string, b "34816"); ("session"%string, b "7");
                         ("pgrp"%string, b "7"); ("ppid"%string, Long.digits);
                         ("state"%string, b "S"); ("comm"%string, b "job");
                         ("pid"%string, b "7")])
    by (vm_compute; reflexivity).
  split; [vm_compute; reflexivity|].
  split; [|split].
  - eexists. eexists. split; [reflexivity|]. split; [exact Hp|].
    vm_compute. reflexivity.
  - eexists. eexists. exists Long.digits.
    split; [reflexivity|]. split; [exact Hp|].
    split; [reflexivity|]. split; [vm_compute; reflexivity|].
    vm_compute. lia.
  - intros tty_nr ppid (data & info & Ho & Hp' & _ & Hpp).
    change (open_rb Long.attached (stat_path 7)) with (Return Long.record) in Ho.
    inversion Ho; subst data. rewrite Hp in Hp'. inversion Hp'; subst info.
    vm_compute in Hpp. discriminate.
Qed.

(** X10.  The walk stops only where [parent_search_depth] is exactly 2.
    Called with a greater depth, [get_pty_slave] never returns [None]: it
    goes from parent to parent until a candidate matches or something
    raises. *)
Theorem deeper_start_never_returns_None
        (w : world) (fuel : nat) (pid depth : Z) (st st' : state)
        (r : result (option string)) :
  2 < depth ->
  get_pty_slave_rec fuel w pid depth st = (r, st') ->
  r <> Return None.
Proof.
  intros Hd H ->. exact (rec_deep_never_none w fuel pid depth st st' Hd H).
Qed.

Lemma deeper_start_never_returns_None_witness :
  get_pty_slave_rec 10 Machine.detached 300 3 initial_state
  = (Raise FileNotFoundError,
     {| folders_cache := Some ["/dev/pts"%string];
        io_log := [Opened "/proc/tty/drivers";
                   Opened "/proc/300/stat"; Statted "/dev/pts/0";
                   Opened "/proc/200/stat"; Statted "/dev/pts/0";
                   Opened "/proc/100/stat"; Statted "/dev/pts/0";
                   Opened "/proc/1/stat"; Statted "/dev/pts/0";
                   Opened "/proc/0/stat"] |})
  /\ Raise FileNotFoundError <> @Return (option string) None.
Proof.
  assert (H : get_pty_slave_rec 10 Machine.detached 300 3 initial_state
              = (Raise FileNotFoundError,
                 {| folders_cache := Some ["/dev/pts"%string];
                    io_log := [Opened "/proc/tty/drivers";
                               Opened "/proc/300/stat"; Statted "/dev/pts/0";
                               Opened "/proc/200/stat"; Statted "/dev/pts/0";
                               Opened "/proc/100/stat"; Statted "/dev/pts/0";
                               Opened "/proc/1/stat"; Statted "/dev/pts/0";
                               Opened "/proc/0/stat"] |}))
    by (vm_compute; reflexivity).
  split; [exact H|].
  exact (deeper_start_never_returns_None
           Machine.detached 10 300 3 _ _ _ ltac:(lia) H).
Defined.

(** X11.  The walk does find the terminal of an ancestor: when no
    candidate of the process matches and its parent has one that does,
    [get_pty_slave] returns the parent's device path after two lookups;
    when the parent has none either and the grandparent has one, it
    returns the grandparent's after three. *)
Theorem ancestor_terminal_is_returned
        (w : world) (pid : Z) (st st1 : state) (folders : list string)
        (tty0 ppid : Z) (before : list string) (folder : string)
        (rest : list string) :
  get_pty_slave_folders w st = (Return folders, st1) ->
  has_record w pid tty0 ppid ->
  no_match w tty0 folders ->
  folders = before ++ folder :: rest ->
  (forall tty1 gpid,
      has_record w ppid tty1 gpid ->
      let minor := calculate_minor_device_number tty1 in
      Forall (skipped w tty1) (paths_of before minor) ->
      stat_rdev w (device_path_of folder minor) = Return tty1 ->
      get_pty_slave w pid st
      = (Return (Some (device_path_of folder minor)),
         logs (after_level st1 pid tty0 folders)
              (Opened (stat_path ppid)
                 :: map Statted (paths_of (before ++ [folder]) minor))))
  /\ (forall tty1 gpid tty2 ggpid,
         has_record w ppid tty1 gpid ->
         no_match w tty1 folders ->
         has_record w gpid tty2 ggpid ->
         let minor := calculate_minor_device_number tty2 in
         Forall (skipped w tty2) (paths_of before minor) ->
         stat_rdev w (device_path_of folder minor) = Return tty2 ->
         get_pty_slave w pid st
         = (Return (Some (device_path_of folder minor)),
            logs (after_level (after_level st1 pid tty0 folders) ppid tty1 folders)
                 (Opened (stat_path gpid)
                    :: map Statted (paths_of (before ++ [folder]) minor)))).
Proof.
  intros Hf H0 N0 Hfold. subst folders.
  pose proof (folders_fill_cache _ _ _ _ Hf) as Hc.
  split.
  - intros tty1 gpid H1 minor Hall Hst.
    unfold get_pty_slave. rewrite recursion_limit_unfold.
    rewrite (level_no_match _ _ _ _ _ _ _ _ _ Hf H0 N0).
    change (0 =? 2) with false. cbv iota.
    rewrite (level_unfold _ _ _ _ _ _ _ _ _
               (after_level_cached st1 pid tty0 _ w Hc) H1).
    fold minor.
    rewrite (scan_found _ _ _ _ _ _ _ Hst Hall), logs_logs. reflexivity.
  - intros tty1 gpid tty2 ggpid H1 N1 H2 minor Hall Hst.
    unfold get_pty_slave. rewrite recursion_limit_unfold.
    rewrite (level_no_match _ _ _ _ _ _ _ _ _ Hf H0 N0).
    change (0 =? 2) with false. cbv iota.
    rewrite (level_no_match _ _ _ _ _ _ _ _ _
               (after_level_cached st1 pid tty0 _ w Hc) H1 N1).
    change (0 + 1 =? 2) with false. cbv iota.
    rewrite (level_unfold _ _ _ _ _ _ _ _ _
               (after_level_cached (after_level st1 pid tty0 _)
                                   ppid tty1 _ w Hc) H2).
    fold minor.
    rewrite (scan_found _ _ _ _ _ _ _ Hst Hall), logs_logs. reflexivity.
Qed.

Lemma ancestor_terminal_is_returned_witness :
  get_pty_slave Nested.host 900 initial_state
  = (Return (Some "/dev/pts/1"%string),
     {| folders_cache := Some ["/dev/pts"%string];
        io_log := [Opened "/proc/tty/drivers"; Opened "/proc/900/stat";
                   Statted "/dev/pts/0"; Opened "/proc/4242/stat";
                   Statted "/dev/pts/1"] |}).
Proof.
  refine (proj1 (ancestor_terminal_is_returned
                   Nested.host 900 initial_state
                   {| folders_cache := Some ["/dev/pts"%string];
                      io_log := [Opened "/proc/tty/drivers"] |}
                   ["/dev/pts"%string] 0 4242 [] "/dev/pts"%string [] _ _ _ _)
                34817 4200 _ _ _).
  - vm_compute. reflexivity.
  - solve_record.
  - constructor; [right; exists 0x8800; split; [reflexivity|discriminate]
                 |constructor].
  - reflexivity.
  - solve_record.
  - constructor.
  - reflexivity.
Defined.

(** ** The scan does not depend on the state *)

Lemma scan_state_indep w tty_nr minor folders :
  forall st r st',
    scan_folders w tty_nr minor folders st = (r, st') ->
    exists paths,
      st' = logs st (map Statted paths)
      /\ forall st0,
          scan_folders w tty_nr minor folders st0
          = (r, logs st0 (map Statted paths)).
Proof.
  induction folders as [|folder folders IH]; intros st r st' H.
  - inversion H; subst. exists []. split; [now rewrite logs_nil|].
    intros st0. now rewrite logs_nil.
  - assert (Hnext : skipped w tty_nr (device_path_of folder minor) ->
                    exists paths,
                      st' = logs st (map Statted paths)
                      /\ forall st0,
                          scan_folders w tty_nr minor (folder :: folders) st0
                          = (r, logs st0 (map Statted paths))).
    { intros Hsk. rewrite (scan_skip _ _ _ _ _ _ Hsk) in H.
      apply IH in H as (paths & -> & Hall).
      exists (device_path_of folder minor :: paths). split.
      - now rewrite logs_logs.
      - intros st0. rewrite (scan_skip _ _ _ _ _ _ Hsk), Hall, logs_logs.
        reflexivity. }
    destruct (stat_rdev w (device_path_of folder minor)) as [rdev|e] eqn:Hs.
    + destruct (Z.eq_dec rdev tty_nr) as [->|Hne].
      * rewrite (scan_accept _ _ _ _ _ _ Hs) in H. inversion H; subst.
        exists [device_path_of folder minor]. split; [reflexivity|].
        intros st0. now rewrite (scan_accept _ _ _ _ _ _ Hs).
      * apply Hnext. right. now exists rdev.
    + destruct (is_FileNotFoundError e) eqn:He.
      * apply Hnext. left. destruct e; (discriminate || exact Hs).
      * rewrite (scan_error _ _ _ _ _ _ _ Hs He) in H. inversion H; subst.
        exists [device_path_of folder minor]. split; [reflexivity|].
        intros st0. now rewrite (scan_error _ _ _ _ _ _ _ Hs He).
Qed.

Lemma scan_none_inv w tty_nr minor folders :
  forall st st',
    scan_folders w tty_nr minor folders st = (Return None, st') ->
    Forall (skipped w tty_nr) (paths_of folders minor).
Proof.
  induction folders as [|folder folders IH]; intros st st' H; [constructor|].
  assert (Hnext : skipped w tty_nr (device_path_of folder minor) ->
                  Forall (skipped w tty_nr) (paths_of (folder :: folders) minor)).
  { intros Hsk. rewrite (scan_skip _ _ _ _ _ _ Hsk) in H.
    constructor; [exact Hsk|]. exact (IH _ _ H). }
  destruct (stat_rdev w (device_path_of folder minor)) as [rdev|e] eqn:Hs.
  - destruct (Z.eq_dec rdev tty_nr) as [->|Hne].
    + rewrite (scan_accept _ _ _ _ _ _ Hs) in H. discriminate.
    + apply Hnext. right. now exists rdev.
  - destruct (is_FileNotFoundError e) eqn:He.
    + apply Hnext. left. destruct e; (discriminate || exact Hs).
    + rewrite (scan_error _ _ _ _ _ _ _ Hs He) in H. discriminate.
Qed.

(** X12.  The answer depends on the terminal identifier, not on the pid:
    two processes whose records carry the same [tty_nr], one of whose
    candidates is not simply passed over, get the same answer from
    [get_pty_slave], which is a device path or an exception. *)
Theorem same_terminal_same_answer
        (w : world) (pid1 pid2 : Z) (st st1 : state) (folders : list string)
        (tty_nr ppid1 ppid2 : Z) :
  get_pty_slave_folders w st = (Return folders, st1) ->
  has_record w pid1 tty_nr ppid1 ->
  has_record w pid2 tty_nr ppid2 ->
  ~ no_match w tty_nr folders ->
  fst (get_pty_slave w pid1 st) = fst (get_pty_slave w pid2 st)
  /\ fst (get_pty_slave w pid1 st) <> Return None.
Proof.
  intros Hf H1 H2 Hno.
  unfold get_pty_slave. rewrite recursion_limit_unfold.
  rewrite (level_unfold _ _ _ _ _ _ _ _ _ Hf H1).
  rewrite (level_unfold _ _ _ _ _ _ _ _ _ Hf H2).
  destruct (scan_folders w tty_nr (calculate_minor_device_number tty_nr) folders
                         (logs st1 [Opened (stat_path pid1)]))
    as [r s'] eqn:Hs.
  destruct (scan_state_indep _ _ _ _ _ _ _ Hs) as (paths & -> & Hall).
  rewrite (Hall (logs st1 [Opened (stat_path pid2)])).
  destruct r as [[path|]|e]; cbn [fst].
  - split; [reflexivity|discriminate].
  - exfalso. apply Hno. exact (scan_none_inv _ _ _ _ _ _ Hs).
  - split; [reflexivity|discriminate].
Qed.

Lemma same_terminal_same_answer_witness :
  fst (get_pty_slave Nested.host 4242 initial_state)
  = fst (get_pty_slave Nested.host 4300 initial_state)
  /\ fst (get_pty_slave Nested.host 4242 initial_state) <> Return None.
Proof.
  refine (same_terminal_same_answer
            Nested.host 4242 4300 initial_state
            {| folders_cache := Some ["/dev/pts"%string];
               io_log := [Opened "/proc/tty/drivers"] |}
            ["/dev/pts"%string] 34817 4200 4242 _ _ _ _).
  - vm_compute. reflexivity.
  - solve_record.
  - solve_record.
  - intros Hn. inversion Hn as [|? ? Hsk _]; subst.
    destruct Hsk as [Hsk|(rdev & Hsk & Hne)].
    + vm_compute in Hsk. discriminate.
    + vm_compute in Hsk. inversion Hsk; subst. now apply Hne.
Defined.

(** X13.  Where no [pty_slave] driver is registered the table is empty:
    [get_pty_slave] then examines no device node at all and cannot return
    a path, only [None] or an exception. *)
Theorem empty_table_no_path
        (w : world) (pid : Z) (st st1 st' : state) (r : result (option string)) :
  get_pty_slave_folders w st = (Return [], st1) ->
  get_pty_slave w pid st = (r, st') ->
  (forall path, r <> Return (Some path))
  /\ exists evs, io_log st' = io_log st ++ evs /\ stat_calls evs = 0%nat.
Proof.
  intros Hf H. unfold get_pty_slave in H. split.
  - intros path ->.
    pose proof (rec_cache w recursion_limit pid 0 st _ st' [] st1 Hf H
                          ltac:(discriminate)) as Hc.
    apply rec_found_sound in H
      as (q & tty_nr & folders & folder & _ & _ & Hc' & Hin & _); [|lia].
    rewrite Hc in Hc'. inversion Hc'; subst. contradiction.
  - pose proof (rec_bound w recursion_limit pid 0 st r st' ltac:(lia) H)
      as (evs & Hl & _ & _ & _ & Hs & _).
    exists evs. split; [exact Hl|].
    specialize (Hs [] st1 Hf). rewrite Nat.mul_0_r in Hs. lia.
Qed.

Lemma empty_table_no_path_witness :
  (forall path,
      fst (get_pty_slave Bare.host 1 initial_state) <> Return (Some path))
  /\ fst (get_pty_slave Bare.host 1 initial_state) = Raise FileNotFoundError.
Proof.
  destruct (get_pty_slave Bare.host 1 initial_state) as [r st'] eqn:H.
  assert (Hf : get_pty_slave_folders Bare.host initial_state
               = (Return [], {| folders_cache := Some [];
                                io_log := [Opened "/proc/tty/drivers"] |}))
    by (vm_compute; reflexivity).
  split.
  - exact (proj1 (empty_table_no_path _ _ _ _ _ _ Hf H)).
  - vm_compute in H. now inversion H.
Defined.

(** ** When the enumeration fails *)

Lemma driver_search_shape line d :
  search_anchored driver_pattern line = Some d ->
  exists name path, d = [("path"%string, path); ("name"%string, name)].
Proof.
  intros Hs.
  apply search_anchored_sound in Hs as (pre & rest & -> & Hr).
  rewrite driver_pattern_shape in Hr.
  repeat match goal with
         | H : run (Cat _ _) _ _ |- _ => inversion H; subst; clear H
         | H : run (Group _ _) _ _ |- _ => inversion H; subst; clear H
         | H : run (Lit _) _ _ |- _ => inversion H; subst; clear H
         end.
  repeat match goal with
         | H : run (Lazy _ _) _ _ |- _ => inversion H; subst; clear H
         | H : run (Greedy _ _ _) _ _ |- _ => inversion H; subst; clear H
         end.
  cbn [app]. eauto.
Qed.

Lemma driver_line_errors line e :
  driver_line line = Raise e ->
  (e = AttributeError /\ search_anchored driver_pattern line = None)
  \/ e = UnicodeDecodeError.
Proof.
  unfold driver_line.
  destruct (search_anchored driver_pattern line) as [d|] eqn:Hs.
  - destruct (driver_search_shape line d Hs) as (name & path & ->).
    cbn [getitem String.eqb Ascii.eqb Bool.eqb].
    destruct (bytes_eqb name (b "pty_slave")); [|discriminate].
    unfold decode. destruct (utf8_valid path); [discriminate|].
    intros H. inversion H. now right.
  - intros H. inversion H. left. auto.
Qed.

Lemma collect_folders_errors lines :
  forall acc e,
    collect_folders lines acc = Raise e ->
    e = AttributeError \/ e = UnicodeDecodeError.
Proof.
  induction lines as [|line lines IH]; intros acc e H; [discriminate|].
  cbn [collect_folders] in H.
  destruct (driver_line line) as [[p|]|e'] eqn:Hl.
  - exact (IH _ _ H).
  - exact (IH _ _ H).
  - inversion H; subst.
    apply driver_line_errors in Hl as [[-> _]| ->]; auto.
Qed.

Lemma folders_miss_log w st r st1 :
  folders_cache st = None ->
  get_pty_slave_folders w st = (r, st1) ->
  io_log st1 = io_log st ++ [Opened drivers_path].
Proof.
  intros Hc. unfold get_pty_slave_folders. rewrite Hc.
  unfold get_pty_slave_folders_uncached, bind, read_file, lift.
  destruct (open_rb w drivers_path) as [data|e].
  - destruct (collect_folders (readlines data) []);
      intros H; inversion H; reflexivity.
  - intros H; inversion H; reflexivity.
Qed.

(** X14.  The enumeration of the drivers table can fail in three ways
    only: the file cannot be read, a line does not have the expected
    layout ([AttributeError]), or the path of a [pty_slave] line is not
    valid UTF-8 ([UnicodeDecodeError]).  A failed enumeration has opened
    the file once and leaves the cache empty, so that the next call opens
    the file again. *)
Theorem enumeration_failure
        (w : world) (st st1 : state) (e : exn) :
  get_pty_slave_folders w st = (Raise e, st1) ->
  (open_rb w drivers_path = Raise e
   \/ e = AttributeError \/ e = UnicodeDecodeError)
  /\ folders_cache st = None
  /\ st1 = logs st [Opened drivers_path]
  /\ forall w2 r st2,
      get_pty_slave_folders w2 st1 = (r, st2) ->
      io_log st2 = io_log st ++ [Opened drivers_path; Opened drivers_path].
Proof.
  intros H.
  assert (Hc : folders_cache st = None).
  { unfold get_pty_slave_folders in H.
    destruct (folders_cache st); [discriminate|reflexivity]. }
  assert (Hst : st1 = logs st [Opened drivers_path]
                /\ (open_rb w drivers_path = Raise e
                    \/ e = AttributeError \/ e = UnicodeDecodeError)).
  { unfold get_pty_slave_folders in H. rewrite Hc in H.
    unfold get_pty_slave_folders_uncached, bind, read_file, lift in H.
    destruct (open_rb w drivers_path) as [data|e0].
    - destruct (collect_folders (readlines data) []) as [paths|e0] eqn:Hcol;
        [discriminate|].
      inversion H; subst. split; [reflexivity|].
      right. exact (collect_folders_errors _ _ _ Hcol).
    - inversion H; subst. split; [reflexivity|]. now left. }
  destruct Hst as [-> Hwhy].
  repeat split; auto.
  intros w2 r st2 H2.
  apply folders_miss_log in H2; [|exact Hc].
  rewrite H2. cbn [logs io_log]. now rewrite <- app_assoc.
Qed.

Lemma enumeration_failure_witness :
  (open_rb Broken.garbled drivers_path = Raise AttributeError
   \/ AttributeError = AttributeError \/ AttributeError = UnicodeDecodeError)
  /\ folders_cache initial_state = None
  /\ logs initial_state [Opened drivers_path]
     = logs initial_state [Opened drivers_path]
  /\ forall w2 r st2,
      get_pty_slave_folders w2 (logs initial_state [Opened drivers_path])
      = (r, st2) ->
      io_log st2
      = io_log initial_state ++ [Opened drivers_path; Opened drivers_path].
Proof.
  refine (enumeration_failure Broken.garbled initial_state _ AttributeError _).
  vm_compute. reflexivity.
Defined.

(** ** The shape of the answer *)

(** X15.  Starting with an empty cache, a path that [get_pty_slave]
    returns is always [/dev/], a directory name without white space, a
    slash and a decimal number below [2^20]. *)
Theorem returned_path_shape
        (w : world) (pid : Z) (st st' : state) (path : string) :
  folders_cache st = None ->
  get_pty_slave w pid st = (Return (Some path), st') ->
  exists folder minor,
    is_dev_folder folder
    /\ 0 <= minor < 2 ^ 20
    /\ path = (folder ++ "/" ++ str minor)%string.
Proof.
  intros Hc H. unfold get_pty_slave in H.
  destruct (get_pty_slave_folders w st) as [[folders0|e] st1] eqn:Hf.
  - pose proof (rec_cache w recursion_limit pid 0 st _ st' folders0 st1 Hf H
                          ltac:(discriminate)) as Hcache.
    apply rec_found_sound in H
      as (q & tty_nr & folders & folder & _ & _ & Hc' & Hin & Hp & _); [|lia].
    rewrite Hcache in Hc'. inversion Hc'; subst folders.
    apply (folders_miss_inv _ _ _ _ Hc) in Hf as (data & _ & Hcol & _).
    apply collect_folders_sound in Hcol as (new & Hnew & Hall & _).
    cbn [app] in Hnew. subst new.
    rewrite Forall_forall in Hall.
    exists folder, (calculate_minor_device_number tty_nr).
    split; [now apply Hall|].
    split; [exact (proj2 (decode_low_bits tty_nr))|exact Hp].
  - rewrite recursion_limit_unfold in H.
    rewrite (level_table_error _ _ _ _ _ _ _ Hf) in H. discriminate.
Qed.

Lemma returned_path_shape_witness :
  exists folder minor,
    is_dev_folder folder
    /\ 0 <= minor < 2 ^ 20
    /\ "/dev/pts/1"%string = (folder ++ "/" ++ str minor)%string.
Proof.
  refine (returned_path_shape
            Machine.desktop 4242 initial_state
            {| folders_cache := Some ["/dev/pts"%string];
               io_log := [Opened "/proc/tty/drivers"; Opened "/proc/4242/stat";
                          Statted "/dev/pts/1"] |}
            "/dev/pts/1"%string _ _).
  - reflexivity.
  - vm_compute. reflexivity.
Defined.

(** ** When the answer is [None], and where exceptions come from *)

Lemma rec_none_inv w fuel :
  forall pid depth st st',
    depth <= 2 ->
    get_pty_slave_rec fuel w pid depth st = (Return None, st') ->
    exists folders st1 tty_nr,
      get_pty_slave_folders w st = (Return folders, st1)
      /\ has_tty w pid tty_nr
      /\ no_match w tty_nr folders
      /\ (depth = 2
          \/ (depth <> 2
              /\ exists ppid fuel',
                  has_record w pid tty_nr ppid
                  /\ fuel = S fuel'
                  /\ get_pty_slave_rec fuel' w ppid (depth + 1)
                                       (after_level st1 pid tty_nr folders)
                     = (Return None, st'))).
Proof.
  intros pid depth st st' Hd H.
  destruct fuel as [|fuel]; [discriminate|].
  apply level_inv in H
    as [(e & _ & He)
       |(folders & st1 & Hf
         & [(e & _ & He)
           |[(_ & He & _)
            |(tty_nr & Hrec & rs & st3 & Hs & Hcase)]])];
    try discriminate.
  destruct rs as [[path|]|e]; try (destruct Hcase as [Hr _]; discriminate).
  exists folders, st1, tty_nr.
  pose proof (scan_none_inv _ _ _ _ _ _ Hs) as Hn.
  repeat split; auto.
  rewrite (scan_none _ _ _ _ _ Hn), logs_logs in Hs.
  inversion Hs as [Hst3].
  destruct Hcase as [(-> & _ & _)|[(_ & _ & Hr & _)|(Hne & ppid & Hrec' & Hrest)]];
    [now left|discriminate|].
  right. split; [exact Hne|]. exists ppid, fuel.
  split; [exact Hrec'|]. split; [reflexivity|].
  rewrite <- Hst3 in Hrest. exact Hrest.
Qed.

(** The last level of the walk asks nothing of the [ppid]. *)
Lemma level_last fuel w pid st folders st1 tty_nr :
  get_pty_slave_folders w st = (Return folders, st1) ->
  has_tty w pid tty_nr ->
  no_match w tty_nr folders ->
  get_pty_slave_rec (S fuel) w pid 2 st
  = (Return None, after_level st1 pid tty_nr folders).
Proof.
  intros Hf (data & info & Ho & Hp & Ht) Hn.
  rewrite (level_step _ _ _ _ _ _ _ _ _ Hf Ho Hp), Ht.
  unfold no_match, candidates in Hn.
  rewrite (scan_none _ _ _ _ _ Hn), logs_logs.
  reflexivity.
Qed.

(** X16.  [get_pty_slave] returns [None] in one situation only: the
    table is obtained, and the process, its parent and its grandparent all
    have a record that can be read and parses, without any candidate that
    matches.  Of the process and its parent both the [tty_nr] and the
    [ppid] convert; of the grandparent, where the walk ends, the [tty_nr]
    does, and the [ppid] is not looked at. *)
Theorem None_exactly_when_three_generations_fail
        (w : world) (pid : Z) (st : state) :
  (exists st', get_pty_slave w pid st = (Return None, st'))
  <-> exists folders st1 tty0 ppid tty1 gpid tty2,
      get_pty_slave_folders w st = (Return folders, st1)
      /\ has_record w pid tty0 ppid /\ no_match w tty0 folders
      /\ has_record w ppid tty1 gpid /\ no_match w tty1 folders
      /\ has_tty w gpid tty2 /\ no_match w tty2 folders.
Proof.
  split.
  - intros [st' H]. unfold get_pty_slave in H.
    apply rec_none_inv in H
      as (folders & st1 & tty0 & Hf & _ & N0
          & [Hd|(_ & ppid & f1 & H0 & _ & H)]);
      [lia| |lia].
    pose proof (folders_fill_cache _ _ _ _ Hf) as Hc.
    apply rec_none_inv in H
      as (folders1 & st2 & tty1 & Hf1 & _ & N1
          & [Hd|(_ & gpid & f2 & H1 & _ & H)]);
      [lia| |lia].
    rewrite (after_level_cached st1 pid tty0 folders w Hc) in Hf1.
    inversion Hf1; subst folders1 st2.
    apply rec_none_inv in H
      as (folders2 & st3 & tty2 & Hf2 & H2 & N2 & _); [|lia].
    rewrite (after_level_cached (after_level st1 pid tty0 folders)
                                ppid tty1 folders w Hc) in Hf2.
    inversion Hf2; subst folders2 st3.
    exists folders, st1, tty0, ppid, tty1, gpid, tty2. auto 10.
  - intros (folders & st1 & tty0 & ppid & tty1 & gpid & tty2
            & Hf & H0 & N0 & H1 & N1 & H2 & N2).
    pose proof (folders_fill_cache _ _ _ _ Hf) as Hc.
    eexists. unfold get_pty_slave. rewrite recursion_limit_unfold.
    rewrite (level_no_match _ _ _ _ _ _ _ _ _ Hf H0 N0).
    change (0 =? 2) with false. cbv iota.
    rewrite (level_no_match _ _ _ _ _ _ _ _ _
               (after_level_cached st1 pid tty0 folders w Hc) H1 N1).
    change (0 + 1 =? 2) with false. cbv iota.
    change (0 + 1 + 1) with 2.
    rewrite (level_last _ _ _ _ _ _ _
               (after_level_cached (after_level st1 pid tty0 folders)
                                   ppid tty1 folders w Hc) H2 N2).
    reflexivity.
Qed.

(** The walk ends at the grandparent without reading its [ppid]: in
    [Long.chain] that field has 4301 digits, which [int] refuses, and
    [get_pty_slave] still answers [None]. *)
Lemma None_before_ppid_is_read :
  fst (get_pty_slave Long.chain 9 initial_state) = Return None
  /\ has_record Long.chain 9 0 8
  /\ has_record Long.chain 8 0 7
  /\ has_tty Long.chain 7 34816
  /\ forall tty_nr ppid, ~ has_record Long.chain 7 tty_nr ppid.
Proof.
  assert (Hp : parse_stat Long.record
               = Return [("tty_nr"%string, b "34816"); ("session"%string, b "7");
                         ("pgrp"%string, b "7"); ("ppid"%string, Long.digits);
                         ("state"%string, b "S"); ("comm"%string, b "job");
                         ("pid"%string, b "7")])
    by (vm_compute; reflexivity).
  split; [vm_compute; reflexivity|].
  split; [solve_record|]. split; [solve_record|].
  split.
  - eexists. eexists. split; [reflexivity|]. split; [exact Hp|].
    vm_compute. reflexivity.
  - intros tty_nr ppid (data & info & Ho & Hp' & _ & Hpp).
    change (open_rb Long.chain (stat_path 7)) with (Return Long.record) in Ho.
    inversion Ho; subst data. rewrite Hp in Hp'. inversion Hp'; subst info.
    vm_compute in Hpp. discriminate.
Qed.

Lemma scan_raise_inv w tty_nr minor folders :
  forall st e st',
    scan_folders w tty_nr minor folders st = (Raise e, st') ->
    exists folder,
      In folder folders
      /\ stat_rdev w (device_path_of folder minor) = Raise e
      /\ e <> FileNotFoundError.
Proof.
  induction folders as [|folder folders IH]; intros st e st' H; [discriminate|].
  assert (Hnext : skipped w tty_nr (device_path_of folder minor) ->
                  exists folder0,
                    In folder0 (folder :: folders)
                    /\ stat_rdev w (device_path_of folder0 minor) = Raise e
                    /\ e <> FileNotFoundError).
  { intros Hsk. rewrite (scan_skip _ _ _ _ _ _ Hsk) in H.
    apply IH in H as (folder0 & Hin & Hs & Hne).
    exists folder0. repeat split; auto. now right. }
  destruct (stat_rdev w (device_path_of folder minor)) as [rdev|e0] eqn:Hs.
  - destruct (Z.eq_dec rdev tty_nr) as [->|Hne].
    + rewrite (scan_accept _ _ _ _ _ _ Hs) in H. discriminate.
    + apply Hnext. right. now exists rdev.
  - destruct (is_FileNotFoundError e0) eqn:He.
    + apply Hnext. left. destruct e0; (discriminate || exact Hs).
    + rewrite (scan_error _ _ _ _ _ _ _ Hs He) in H. inversion H; subst e0.
      exists folder. repeat split; auto; [now left|].
      intros ->. discriminate.
Qed.

Lemma get_info_raise_inv w pid st e st' :
  get_info w pid st = (Raise e, st') ->
  open_rb w (stat_path pid) = Raise e
  \/ exists data,
      open_rb w (stat_path pid) = Return data
      /\ search_anchored stat_pattern data = None
      /\ e = AttributeError.
Proof.
  unfold get_info, bind, read_file, lift, parse_stat.
  destruct (open_rb w (stat_path pid)) as [data|e0].
  - destruct (search_anchored stat_pattern data) eqn:Hs; [discriminate|].
    intros H. inversion H. right. now exists data.
  - intros H. inversion H. now left.
Qed.

Lemma rec_raise_origin w fuel :
  forall pid depth st e st',
    depth <= 2 ->
    (Z.to_nat (3 - depth) <= fuel)%nat ->
    get_pty_slave_rec fuel w pid depth st = (Raise e, st') ->
    (exists st1, get_pty_slave_folders w st = (Raise e, st1))
    \/ (exists q, within_hops w (Z.to_nat (2 - depth)) pid q
                  /\ open_rb w (stat_path q) = Raise e)
    \/ (exists q data,
           within_hops w (Z.to_nat (2 - depth)) pid q
           /\ open_rb w (stat_path q) = Return data
           /\ search_anchored stat_pattern data = None
           /\ e = AttributeError)
    \/ (exists q,
           within_hops w (Z.to_nat (2 - depth)) pid q
           /\ (too_long w q "tty_nr" \/ too_long w q "ppid")
           /\ e = ValueError)
    \/ (exists q tty_nr folders st1 folder,
           within_hops w (Z.to_nat (2 - depth)) pid q
           /\ has_tty w q tty_nr
           /\ get_pty_slave_folders w st = (Return folders, st1)
           /\ In folder folders
           /\ stat_rdev w (device_path_of folder
                                          (calculate_minor_device_number tty_nr))
              = Raise e
           /\ e <> FileNotFoundError).
Proof.
  induction fuel as [|fuel IH]; intros pid depth st e st' Hd Hfuel H.
  { exfalso.
    assert (Z.to_nat (3 - depth) = S (Z.to_nat (2 - depth))).
    { rewrite <- Z2Nat.inj_succ by lia. f_equal. lia. }
    lia. }
  assert (HS : Z.to_nat (2 - depth) = S (Z.to_nat (2 - (depth + 1)))
               \/ depth = 2).
  { destruct (Z.eq_dec depth 2) as [->|Hne]; [now right|left].
    rewrite <- Z2Nat.inj_succ by lia. f_equal. lia. }
  apply level_inv in H
    as [(e0 & Hf & He)
       |(folders & st1 & Hf
         & [(e0 & Hi & He)
           |[(Hlong & He & _)
            |(tty_nr & Hrec & rs & st3 & Hs & Hcase)]])].
  - inversion He; subst e0. left. now exists st'.
  - inversion He; subst e0.
    apply get_info_raise_inv in Hi as [Ho|(data & Ho & Hm & ->)].
    + right. left. exists pid. split; [constructor|exact Ho].
    + right. right. left. exists pid, data. repeat split; auto. constructor.
  - inversion He; subst e.
    right. right. right. left. exists pid.
    split; [constructor|]. split; [now left|reflexivity].
  - destruct rs as [[path|]|e0].
    + destruct Hcase as [Hr _]. discriminate.
    + destruct Hcase
        as [(_ & Hr & _)|[(_ & Hlong & Hr & _)|(Hne & ppid & Hrec' & Hrest)]];
        [discriminate| |].
      * inversion Hr; subst e.
        right. right. right. left. exists pid.
        split; [constructor|]. split; [now right|reflexivity].
      * pose proof (folders_fill_cache _ _ _ _ Hf) as Hc.
        pose proof (scan_keeps_cache _ _ _ _ _ _ _ Hs) as Hk.
        cbn [logs folders_cache] in Hk.
        assert (Hf3 : get_pty_slave_folders w st3 = (Return folders, st3)).
        { apply folders_cached. congruence. }
        destruct HS as [HS|HS]; [|contradiction].
        apply IH in Hrest
          as [(s & Hbad)
             |[(q & Hq & Ho)
              |[(q & data & Hq & Ho & Hm & He)
               |[(q & Hq & Hlong & He)
                |(q & tty' & folders' & st1' & folder & Hq & Ht & Hf' & Hin
                  & Hst & Hne')]]]].
        -- rewrite Hf3 in Hbad. discriminate.
        -- right. left. exists q. split; [|exact Ho].
           rewrite HS. now apply hops_up with tty_nr ppid.
        -- right. right. left. exists q, data. repeat split; auto.
           rewrite HS. now apply hops_up with tty_nr ppid.
        -- right. right. right. left. exists q. repeat split; auto.
           rewrite HS. now apply hops_up with tty_nr ppid.
        -- right. right. right. right.
           rewrite Hf3 in Hf'. inversion Hf'; subst folders' st1'.
           exists q, tty', folders, st1, folder. repeat split; auto.
           rewrite HS. now apply hops_up with tty_nr ppid.
        -- lia.
        -- assert (Z.to_nat (3 - depth) = S (Z.to_nat (3 - (depth + 1)))).
           { rewrite <- Z2Nat.inj_succ by lia. f_equal. lia. }
           lia.
    + destruct Hcase as [Hr _]. inversion Hr; subst e0.
      apply scan_raise_inv in Hs as (folder & Hin & Hst & Hne).
      right. right. right. right.
      exists pid, tty_nr, folders, st1, folder. repeat split; auto.
      constructor.
Qed.

(** X17.  An exception that leaves [get_pty_slave] has one of five
    origins: the enumeration of the table failed; the record of the
    process, of its parent or of its grandparent could not be opened; one
    of these records does not have the expected layout
    ([AttributeError]); the [tty_nr] or the [ppid] of one of these
    records has more than 4300 digits ([ValueError] of [int]); or
    [os.stat] failed, otherwise than with [FileNotFoundError], on a
    candidate, a folder of the table joined with the decoded minor number
    of one of these processes.  Looking up the fields of a record that
    parsed, and the depth of the recursion, never raise. *)
Theorem exceptions_have_five_origins
        (w : world) (pid : Z) (st st' : state) (e : exn) :
  get_pty_slave w pid st = (Raise e, st') ->
  raised_by w st pid e.
Proof.
  intros H. unfold get_pty_slave in H.
  apply rec_raise_origin in H; [exact H|lia|].
  rewrite recursion_limit_unfold. change (Z.to_nat (3 - 0)) with 3%nat. lia.
Qed.

Lemma exceptions_have_five_origins_witness :
  raised_by Long.detached initial_state 7 ValueError.
Proof.
  refine (exceptions_have_five_origins
            Long.detached 7 initial_state
            {| folders_cache := Some ["/dev/pts"%string];
               io_log := [Opened "/proc/tty/drivers"; Opened "/proc/7/stat";
                          Statted "/dev/pts/0"] |}
            ValueError _).
  vm_compute. reflexivity.
Defined.

(** ** Paths *)

Lemma str_inj (a c : Z) : str a = str c -> a = c.
Proof.
  unfold str. intros H.
  assert (Hnn : forall z, Z.to_int z <> Decimal.Pos Decimal.Nil
                          /\ Z.to_int z <> Decimal.Neg Decimal.Nil).
  { intros [|p|p]; split; try discriminate; cbn [Z.to_int]; intros Hp;
      inversion Hp as [Hq]; exact (DecimalPos.Unsigned.to_uint_nonnil _ Hq). }
  apply (f_equal NilZero.int_of_string) in H.
  rewrite !NilZero.isi in H by apply Hnn.
  inversion H as [Hi].
  rewrite <- (DecimalZ.of_to a), <- (DecimalZ.of_to c). now rewrite Hi.
Qed.

Lemma string_length_append (s t : string) :
  String.length (s ++ t) = (String.length s + String.length t)%nat.
Proof. induction s as [|a s IH]; simpl; auto. Qed.

Lemma string_append_inv_tail (s1 s2 t : string) :
  (s1 ++ t = s2 ++ t)%string -> s1 = s2.
Proof.
  revert s2. induction s1 as [|a s1 IH]; intros [|a2 s2] H.
  - reflexivity.
  - apply (f_equal String.length) in H. simpl in H.
    rewrite string_length_append in H. lia.
  - apply (f_equal String.length) in H. simpl in H.
    rewrite string_length_append in H. lia.
  - simpl in H. inversion H; subst. f_equal. now apply IH.
Qed.

Lemma string_append_inv_head (s t1 t2 : string) :
  (s ++ t1 = s ++ t2)%string -> t1 = t2.
Proof.
  induction s as [|a s IH]; simpl; intros H; [exact H|].
  inversion H. now apply IH.
Qed.

(** X18.  Paths are formed without collisions: two pids have the same
    status file only if they are equal, and within one folder two minor
    numbers have the same candidate path only if they are equal. *)
Theorem paths_do_not_collide :
  (forall pid1 pid2, stat_path pid1 = stat_path pid2 -> pid1 = pid2)
  /\ (forall folder minor1 minor2,
         device_path_of folder minor1 = device_path_of folder minor2 ->
         minor1 = minor2).
Proof.
  split.
  - intros pid1 pid2 H. unfold stat_path in H.
    apply string_append_inv_head in H.
    apply string_append_inv_tail in H.
    now apply str_inj.
  - intros folder minor1 minor2 H. unfold device_path_of in H.
    apply string_append_inv_head in H.
    apply string_append_inv_head in H.
    now apply str_inj.
Qed.

(** * The tmux clients *)

Import Tmux.

Lemma code_of_ascii c : code (byte_of_ascii c) = N_of_ascii c.
Proof.
  unfold code. apply Byte.to_of_N. symmetry. apply byte_of_ascii_via_N.
Qed.

Lemma list_byte_of_string_cons c s :
  list_byte_of_string (String c s) = byte_of_ascii c :: list_byte_of_string s.
Proof. reflexivity. Qed.

Lemma text_is_ascii c : is_text c = true -> (N_of_ascii c <? 128)%N = true.
Proof.
  unfold is_text. intros H.
  apply andb_prop in H as [H _]. now apply andb_prop in H as [H _].
Qed.

Lemma all_text_append s t :
  all_text (s ++ t) = all_text s && all_text t.
Proof.
  induction s as [|c s IH]; [reflexivity|].
  cbn [append all_text]. now rewrite IH, andb_assoc.
Qed.

Lemma plain_is_text c : is_plain c = true -> is_text c = true.
Proof. unfold is_plain. intros H. now apply andb_prop in H as [H _]. Qed.

Lemma all_plain_text s : all_plain s = true -> all_text s = true.
Proof.
  induction s as [|c s IH]; [reflexivity|]. cbn [all_plain all_text].
  intros H. apply andb_prop in H as [Hc Hs].
  now rewrite (plain_is_text c Hc), IH.
Qed.

(** Lines of text decode to themselves. *)
Lemma utf8_valid_line l rest :
  all_text l = true ->
  utf8_valid (list_byte_of_string rest) = true ->
  utf8_valid (list_byte_of_string (l ++ rest)) = true.
Proof.
  intros Hl Hrest. induction l as [|c l IH]; [exact Hrest|].
  cbn [all_text] in Hl. apply andb_prop in Hl as [Hc Hl].
  cbn [append]. rewrite list_byte_of_string_cons. cbn [utf8_valid].
  rewrite code_of_ascii.
  replace (N_of_ascii c <? 128)%N with true by (symmetry; now apply text_is_ascii).
  now apply IH.
Qed.

Lemma utf8_valid_unlines lines :
  Forall (fun l => all_text l = true) lines ->
  utf8_valid (list_byte_of_string (unlines lines)) = true.
Proof.
  induction 1 as [|l lines Hl _ IH]; [reflexivity|].
  cbn [unlines]. apply utf8_valid_line; [exact Hl|].
  rewrite list_byte_of_string_cons. exact IH.
Qed.

Lemma decode_unlines lines :
  Forall (fun l => all_text l = true) lines ->
  decode_output (list_byte_of_string (unlines lines)) = Done (unlines lines).
Proof.
  intros H. unfold decode_output, decode.
  now rewrite (utf8_valid_unlines lines H), string_of_list_byte_of_string.
Qed.

Lemma append_push cur c s : (push cur c ++ s = cur ++ String c s)%string.
Proof.
  unfold push. induction cur as [|a cur IH]; [reflexivity|].
  cbn [append]. now rewrite IH.
Qed.

Lemma text_not_special c :
  is_text c = true ->
  (N_of_ascii c =? 13)%N = false
  /\ is_line_boundary c = false
  /\ (N_of_ascii c =? 0xC2)%N = false
  /\ (N_of_ascii c =? 0xE2)%N = false.
Proof.
  unfold is_text. intros H.
  apply andb_prop in H as [H Hb]. apply andb_prop in H as [Ha Hcr].
  apply negb_true_iff in Hb. apply negb_true_iff in Hcr.
  apply N.ltb_lt in Ha.
  repeat split; auto; apply N.eqb_neq; lia.
Qed.

(** [splitlines] gives back the lines of a text whose lines end with a
    newline. *)
Lemma splitlines_from_line l :
  all_text l = true ->
  forall cur rest,
    splitlines_from cur (l ++ String "010"%char rest)
    = (cur ++ l)%string :: splitlines_from "" rest.
Proof.
  intros Hl. induction l as [|c l IH]; intros cur rest.
  - cbn. f_equal. induction cur as [|a cur IHc]; [reflexivity|].
    cbn [append]. now rewrite <- IHc.
  - cbn [all_text] in Hl. apply andb_prop in Hl as [Hc Hl].
    destruct (text_not_special c Hc) as (H13 & Hb & HC2 & HE2).
    cbn [append splitlines_from]. rewrite H13, Hb, HC2, HE2.
    rewrite (IH Hl). now rewrite append_push.
Qed.

Lemma splitlines_unlines lines :
  Forall (fun l => all_text l = true) lines ->
  splitlines (unlines lines) = lines.
Proof.
  unfold splitlines. induction 1 as [|l lines Hl _ IH]; [reflexivity|].
  cbn [unlines]. rewrite (splitlines_from_line l Hl). cbn [append].
  now rewrite IH.
Qed.

Lemma split_from_plain s :
  all_plain s = true ->
  forall cur,
    (forall rest, split_from cur (s ++ String ","%char rest)
                  = (cur ++ s)%string :: split_from "" rest)
    /\ split_from cur s = [(cur ++ s)%string].
Proof.
  intros Hs. induction s as [|c s IH]; intros cur.
  - assert (Hnil : (cur ++ "")%string = cur).
    { induction cur as [|a cur IHc]; [reflexivity|]. cbn [append]. now rewrite IHc. }
    rewrite Hnil. split; reflexivity.
  - cbn [all_plain] in Hs. apply andb_prop in Hs as [Hc Hs].
    unfold is_plain in Hc. apply andb_prop in Hc as [_ Hc].
    apply negb_true_iff in Hc.
    destruct (IH Hs (push cur c)) as [IH1 IH2].
    cbn [append split_from]. rewrite Hc.
    split; [intros rest; rewrite IH1|rewrite IH2]; now rewrite append_push.
Qed.

Lemma split_client_line pid tty :
  all_plain pid = true -> all_plain tty = true ->
  split_comma (client_line pid tty) = [pid; tty].
Proof.
  intros Hp Ht. unfold split_comma, client_line.
  change ("," ++ tty)%string with (String ","%char tty).
  rewrite (proj1 (split_from_plain pid Hp "")).
  now rewrite (proj2 (split_from_plain tty Ht "")).
Qed.

Lemma split_from_length s :
  forall cur, List.length (split_from cur s) = S (commas s).
Proof.
  induction s as [|c s IH]; intros cur; [reflexivity|].
  cbn [split_from commas].
  destruct (N_of_ascii c =? 44)%N; cbn [List.length]; now rewrite IH.
Qed.

Lemma plain_line_is_text pid tty :
  all_plain pid = true -> all_plain tty = true ->
  all_text (client_line pid tty) = true.
Proof.
  intros Hp Ht. unfold client_line.
  change ("," ++ tty)%string with (String ","%char tty).
  rewrite all_text_append, (all_plain_text pid Hp). cbn [all_text andb].
  now rewrite (all_plain_text tty Ht).
Qed.

Lemma dict_get_set d k v key :
  dict_get (dict_set d k v) key = if (k =? key)%Z then Some v else dict_get d key.
Proof.
  induction d as [|[k0 v0] d IH]; [reflexivity|].
  cbn [dict_set dict_get].
  destruct (Z.eqb_spec k0 k) as [->|Hk]; cbn [dict_get].
  - now destruct (k =? key)%Z.
  - rewrite IH. destruct (Z.eqb_spec k0 key) as [->|Hk0]; [|reflexivity].
    destruct (Z.eqb_spec k key); [congruence|reflexivity].
Qed.

Lemma dict_set_keys d k v x :
  In x (map fst (dict_set d k v)) <-> x = k \/ In x (map fst d).
Proof.
  induction d as [|[k0 v0] d IH]; cbn [dict_set map fst In].
  - intuition.
  - destruct (Z.eqb_spec k0 k) as [->|Hk]; cbn [map fst In]; [intuition|].
    rewrite IH. intuition.
Qed.

Lemma dict_set_NoDup d k v :
  NoDup (map fst d) -> NoDup (map fst (dict_set d k v)).
Proof.
  induction d as [|[k0 v0] d IH]; cbn [dict_set map fst]; intros Hd.
  - constructor; [intros []|constructor].
  - inversion Hd as [|? ? Hin Hd']; subst.
    destruct (Z.eqb_spec k0 k) as [->|Hk]; cbn [map fst].
    + now constructor.
    + constructor; [|now apply IH].
      rewrite dict_set_keys. intros [->|Hin']; contradiction.
Qed.

Lemma assign_get entries :
  forall d key,
    dict_get (assign d entries) key
    = match last_value entries key with
      | Some v => Some v
      | None => dict_get d key
      end.
Proof.
  unfold assign.
  induction entries as [|[k v] entries IH]; intros d key; [reflexivity|].
  cbn [fold_left last_value fst snd]. rewrite IH, dict_get_set.
  destruct (last_value entries key); [reflexivity|].
  now destruct (k =? key)%Z.
Qed.

Lemma assign_NoDup entries :
  forall d, NoDup (map fst d) -> NoDup (map fst (assign d entries)).
Proof.
  unfold assign.
  induction entries as [|[k v] entries IH]; intros d Hd; [exact Hd|].
  cbn [fold_left]. apply IH. now apply dict_set_NoDup.
Qed.

Lemma assign_keys entries :
  forall d x,
    In x (map fst (assign d entries))
    <-> In x (map fst d) \/ In x (map fst entries).
Proof.
  unfold assign.
  induction entries as [|[k v] entries IH]; intros d x; cbn [fold_left map fst In].
  - intuition.
  - rewrite IH, dict_set_keys. intuition.
Qed.

(** The lines of well-formed clients fill the dictionary one after the
    other. *)
Lemma ttys_of_lines py_int (clients : list (string * string)) :
  forall (pids : list Z) d,
    Forall (fun c => all_plain (fst c) = true /\ all_plain (snd c) = true) clients ->
    Forall2 (fun c n => py_int (fst c) = Return n) clients pids ->
    ttys_of py_int (map (fun c => client_line (fst c) (snd c)) clients) d
    = Done (assign d (combine pids (map snd clients))).
Proof.
  induction clients as [|[pid tty] clients IH]; intros pids d Hplain Hint.
  - inversion Hint. reflexivity.
  - inversion Hint as [|? n ? pids' Hn Hint']; subst.
    inversion Hplain as [|? ? [Hp Ht] Hplain']; subst.
    cbn [map fst snd ttys_of combine] in *.
    rewrite (split_client_line pid tty Hp Ht), Hn.
    now rewrite (IH pids' _ Hplain' Hint').
Qed.

Lemma client_lines_text (clients : list (string * string)) :
  Forall (fun c => all_plain (fst c) = true /\ all_plain (snd c) = true) clients ->
  Forall (fun l => all_text l = true)
         (map (fun c => client_line (fst c) (snd c)) clients).
Proof.
  induction 1 as [|c clients [Hp Ht] _ IH]; cbn [map]; constructor; auto.
  now apply plain_line_is_text.
Qed.

(** Unpacking fails unless the line has exactly one comma. *)
Lemma unpack_fails {A} (parts : list string) (ok : string -> string -> A) (ko : A) :
  List.length parts <> 2%nat ->
  match parts with
  | [pid; tty] => ok pid tty
  | _ => ko
  end = ko.
Proof.
  destruct parts as [|a [|b [|c parts]]]; cbn [List.length]; intros H;
    try reflexivity; congruence.
Qed.

Lemma ttys_of_app py_int good :
  forall d d' rest,
    ttys_of py_int good d = Done d' ->
    ttys_of py_int (good ++ rest) d = ttys_of py_int rest d'.
Proof.
  induction good as [|l good IH]; intros d d' rest H.
  - cbn in H. injection H as <-. reflexivity.
  - cbn [ttys_of app] in *.
    destruct (split_comma l) as [|pid [|tty [|x parts]]]; try discriminate.
    destruct (py_int pid); [|discriminate]. now apply IH.
Qed.

Lemma ints_of_lines py_int (lines : list string) :
  forall pids,
    Forall2 (fun l n => py_int l = Return n) lines pids ->
    ints_of py_int lines = Done pids.
Proof.
  induction lines as [|l lines IH]; intros pids H; inversion H as [|? n ? pids' Hn H']; subst.
  - reflexivity.
  - cbn [ints_of]. now rewrite Hn, (IH pids' H').
Qed.

Lemma ints_of_app_fail py_int good :
  forall pids bad e rest,
    Forall2 (fun l n => py_int l = Return n) good pids ->
    py_int bad = Raise e ->
    ints_of py_int (good ++ bad :: rest) = Failed (Os e).
Proof.
  induction good as [|l good IH]; intros pids bad e rest H Hbad;
    inversion H as [|? n ? pids' Hn H']; subst; cbn [ints_of app].
  - now rewrite Hbad.
  - now rewrite Hn, (IH pids' bad e rest H' Hbad).
Qed.

(** X19.  Outside tmux, where the environment has no [TMUX_PANE],
    [is_used] answers [False], and [get_clients] and
    [get_client_ttys_by_pid] both raise [TypeError] whatever the [tmux]
    command would do: the missing pane is refused as an argument before
    anything is run. *)
Theorem outside_tmux_nothing_is_run :
  forall py_int (h : host),
    environ h "TMUX_PANE"%string = None ->
    is_used h = false
    /\ get_clients py_int h = Failed TypeError
    /\ get_client_ttys_by_pid py_int h = Failed TypeError.
Proof.
  intros py_int h Henv.
  unfold is_used, get_clients, get_client_ttys_by_pid, check_output, get_pane.
  rewrite Henv. repeat split.
Qed.

Lemma outside_tmux_nothing_is_run_witness :
  is_used outside = false
  /\ get_client_ttys_by_pid int_of_text outside = Failed TypeError.
Proof.
  destruct (outside_tmux_nothing_is_run int_of_text outside eq_refl)
    as (Hu & _ & Ht).
  split; [exact Hu|exact Ht].
Defined.

(** X20.  When [tmux] prints one [pid,tty] line per client, with no
    comma or line break inside a pid or a tty, [get_client_ttys_by_pid]
    returns a dictionary with one entry per pid; looking a pid up gives
    the tty of the last line with that pid, and a pid that is on no line
    is not a key. *)
Theorem client_ttys_last_line_wins :
  forall py_int (h : host) pane (clients : list (string * string)) (pids : list Z),
    get_pane h = Some pane ->
    run h ["tmux"; "list-clients"; "-F"; "#{client_pid},#{client_tty}";
           "-t"; pane]%string
    = Done (list_byte_of_string
              (unlines (map (fun c => client_line (fst c) (snd c)) clients))) ->
    Forall (fun c => all_plain (fst c) = true /\ all_plain (snd c) = true) clients ->
    Forall2 (fun c n => py_int (fst c) = Return n) clients pids ->
    exists d,
      get_client_ttys_by_pid py_int h = Done d
      /\ NoDup (map fst d)
      /\ (forall key, dict_get d key
                      = last_value (combine pids (map snd clients)) key)
      /\ (forall key, In key (map fst d) <-> In key pids).
Proof.
  intros py_int h pane clients pids Hpane Hrun Hplain Hint.
  exists (assign [] (combine pids (map snd clients))).
  split; [|split; [|split]].
  - unfold get_client_ttys_by_pid, check_output. rewrite Hpane.
    cbn [all_strings option_map]. rewrite Hrun.
    rewrite (decode_unlines _ (client_lines_text clients Hplain)).
    rewrite (splitlines_unlines _ (client_lines_text clients Hplain)).
    now apply ttys_of_lines.
  - apply assign_NoDup. constructor.
  - intros key. rewrite assign_get. now destruct (last_value _ key).
  - intros key. rewrite assign_keys. cbn [map In].
    assert (Hlen : List.length pids = List.length (map snd clients)).
    { rewrite length_map. symmetry. eapply Forall2_length; eauto. }
    assert (Hfst : map fst (combine pids (map snd clients)) = pids).
    { clear -Hlen. revert Hlen. generalize (map snd clients) as ttys.
      induction pids as [|n pids IH]; intros [|t ttys] Hlen;
        try discriminate; [reflexivity|].
      cbn [combine map fst]. f_equal. apply IH. now injection Hlen. }
    rewrite Hfst. intuition.
Qed.

Lemma client_ttys_last_line_wins_witness :
  exists d,
    get_client_ttys_by_pid int_of_text in_pane = Done d
    /\ dict_get d 4242 = Some "/dev/pts/7"%string
    /\ dict_get d 4300 = Some "/dev/pts/2"%string.
Proof.
  destruct (client_ttys_last_line_wins int_of_text in_pane "%3"%string
              [("4242", "/dev/pts/1"); ("4300", "/dev/pts/2");
               ("4242", "/dev/pts/7")]%string
              [4242; 4300; 4242] eq_refl eq_refl)
    as (d & Hd & _ & Hget & _).
  - repeat constructor.
  - repeat constructor.
  - exists d. split; [exact Hd|]. split; rewrite Hget; reflexivity.
Defined.

(** Text followed by anything: the text is valid, so that the whole
    decodes exactly when what follows does, and the lines of the text
    come first. *)
Lemma utf8_valid_text_app s tail :
  all_text s = true ->
  utf8_valid (list_byte_of_string s ++ tail) = utf8_valid tail.
Proof.
  induction s as [|c s IH]; intros H; [reflexivity|].
  cbn [all_text] in H. apply andb_prop in H as [Hc Hs].
  rewrite list_byte_of_string_cons. cbn [app utf8_valid].
  rewrite code_of_ascii, (text_is_ascii c Hc). now apply IH.
Qed.

Lemma list_byte_of_string_app s t :
  list_byte_of_string (s ++ t)
  = (list_byte_of_string s ++ list_byte_of_string t)%list.
Proof.
  induction s as [|c s IH]; [reflexivity|].
  cbn [append]. rewrite !list_byte_of_string_cons, IH. reflexivity.
Qed.

Lemma string_of_list_byte_app (a c : bytes) :
  string_of_list_byte (a ++ c)
  = (string_of_list_byte a ++ string_of_list_byte c)%string.
Proof.
  unfold string_of_list_byte.
  induction a as [|x a IH]; [reflexivity|].
  cbn [app map string_of_list_ascii append]. now rewrite IH.
Qed.

Lemma string_app_assoc (s t u : string) :
  ((s ++ t) ++ u = s ++ (t ++ u))%string.
Proof. induction s as [|c s IH]; [reflexivity|]. cbn [append]. now rewrite IH. Qed.

Lemma utf8_valid_unlines_app lines tail :
  Forall (fun l => all_text l = true) lines ->
  utf8_valid (list_byte_of_string (unlines lines) ++ tail) = utf8_valid tail.
Proof.
  induction 1 as [|l lines Hl _ IH]; [reflexivity|].
  cbn [unlines]. rewrite list_byte_of_string_app, <- app_assoc.
  rewrite (utf8_valid_text_app l _ Hl).
  rewrite list_byte_of_string_cons. cbn [app utf8_valid].
  rewrite code_of_ascii. exact IH.
Qed.

Lemma decode_unlines_app lines tail :
  Forall (fun l => all_text l = true) lines ->
  decode_output (list_byte_of_string (unlines lines) ++ tail)
  = if utf8_valid tail
    then Done (unlines lines ++ string_of_list_byte tail)%string
    else Failed (Os UnicodeDecodeError).
Proof.
  intros H. unfold decode_output, decode.
  rewrite (utf8_valid_unlines_app lines tail H).
  destruct (utf8_valid tail); [|reflexivity].
  now rewrite string_of_list_byte_app, string_of_list_byte_of_string.
Qed.

Lemma splitlines_unlines_app lines rest :
  Forall (fun l => all_text l = true) lines ->
  splitlines (unlines lines ++ rest) = (lines ++ splitlines rest)%list.
Proof.
  unfold splitlines. induction 1 as [|l lines Hl _ IH]; [reflexivity|].
  cbn [unlines]. rewrite string_app_assoc. cbn [append].
  rewrite (splitlines_from_line l Hl). cbn [append app].
  now rewrite IH.
Qed.

(** X21.  A line that does not have exactly one comma, for instance the
    line of a client whose tty path contains a comma, or an empty line,
    makes [get_client_ttys_by_pid] fail when the lines before it are
    well formed, whatever bytes follow that line: with [ValueError] when
    they are valid UTF-8, and with the [UnicodeDecodeError] of
    [decode()], which runs on the whole output first, when they are
    not. *)
Theorem client_line_with_other_commas :
  forall py_int (h : host) pane (clients : list (string * string)) (pids : list Z)
         (bad : string) (tail : bytes),
    get_pane h = Some pane ->
    run h ["tmux"; "list-clients"; "-F"; "#{client_pid},#{client_tty}";
           "-t"; pane]%string
    = Done (list_byte_of_string
              (unlines (map (fun c => client_line (fst c) (snd c)) clients
                        ++ [bad]))
            ++ tail)%list ->
    Forall (fun c => all_plain (fst c) = true /\ all_plain (snd c) = true) clients ->
    Forall2 (fun c n => py_int (fst c) = Return n) clients pids ->
    all_text bad = true ->
    commas bad <> 1%nat ->
    get_client_ttys_by_pid py_int h
    = Failed (Os (if utf8_valid tail then ValueError else UnicodeDecodeError)).
Proof.
  intros py_int h pane clients pids bad tail Hpane Hrun Hplain Hint Hbad Hcommas.
  assert (Htext : Forall (fun l => all_text l = true)
                         (map (fun c => client_line (fst c) (snd c)) clients
                          ++ [bad])).
  { apply Forall_app. split; [now apply client_lines_text|].
    constructor; [exact Hbad|constructor]. }
  unfold get_client_ttys_by_pid, check_output. rewrite Hpane.
  cbn [all_strings option_map]. rewrite Hrun.
  rewrite (decode_unlines_app _ tail Htext).
  destruct (utf8_valid tail); [|reflexivity].
  rewrite (splitlines_unlines_app _ _ Htext), <- app_assoc. cbn [app].
  rewrite (ttys_of_app py_int _ [] _ _
             (ttys_of_lines py_int clients pids [] Hplain Hint)).
  cbn [ttys_of]. apply unpack_fails.
  unfold split_comma. rewrite split_from_length. lia.
Qed.

Lemma client_line_with_other_commas_witness :
  get_client_ttys_by_pid int_of_text odd_tty = Failed (Os ValueError).
Proof.
  apply (client_line_with_other_commas int_of_text odd_tty "%3"%string
           [("4242", "/dev/pts/1")]%string [4242]
           "4300,/tmp/a,b"%string [] eq_refl eq_refl).
  - repeat constructor.
  - repeat constructor.
  - reflexivity.
  - cbn. lia.
Defined.

(** X22.  When [tmux] prints one pid per line, [get_clients] returns the
    pids in the order of the lines, a pid as often as it is listed. *)
Theorem get_clients_one_per_line :
  forall py_int (h : host) pane (lines : list string) (pids : list Z),
    get_pane h = Some pane ->
    run h ["tmux"; "list-clients"; "-F"; "#{client_pid}"; "-t"; pane]%string
    = Done (list_byte_of_string (unlines lines)) ->
    Forall (fun l => all_text l = true) lines ->
    Forall2 (fun l n => py_int l = Return n) lines pids ->
    get_clients py_int h = Done pids.
Proof.
  intros py_int h pane lines pids Hpane Hrun Htext Hint.
  unfold get_clients, check_output. rewrite Hpane.
  cbn [all_strings option_map]. rewrite Hrun.
  rewrite (decode_unlines _ Htext), (splitlines_unlines _ Htext).
  now apply ints_of_lines.
Qed.

Lemma get_clients_one_per_line_witness :
  get_clients int_of_text in_pane = Done [4242; 4300; 4242].
Proof.
  apply (get_clients_one_per_line int_of_text in_pane "%3"%string
           ["4242"; "4300"; "4242"]%string [4242; 4300; 4242] eq_refl eq_refl).
  - repeat constructor.
  - repeat constructor.
Defined.

(** X23.  The first line [int] refuses makes [get_clients] raise the
    exception of [int]; the lines after it are not looked at. *)
Theorem get_clients_first_bad_line :
  forall py_int (h : host) pane (good : list string) (pids : list Z)
         (bad : string) (e : exn) (rest : list string),
    get_pane h = Some pane ->
    run h ["tmux"; "list-clients"; "-F"; "#{client_pid}"; "-t"; pane]%string
    = Done (list_byte_of_string (unlines (good ++ bad :: rest))) ->
    Forall (fun l => all_text l = true) (good ++ bad :: rest) ->
    Forall2 (fun l n => py_int l = Return n) good pids ->
    py_int bad = Raise e ->
    get_clients py_int h = Failed (Os e).
Proof.
  intros py_int h pane good pids bad e rest Hpane Hrun Htext Hint Hbad.
  unfold get_clients, check_output. rewrite Hpane.
  cbn [all_strings option_map]. rewrite Hrun.
  rewrite (decode_unlines _ Htext), (splitlines_unlines _ Htext).
  eapply ints_of_app_fail; eauto.
Qed.

Lemma get_clients_first_bad_line_witness :
  get_clients int_of_text odd_tty = Failed (Os ValueError).
Proof.
  apply (get_clients_first_bad_line int_of_text odd_tty "%3"%string
           [] [] "4242,/dev/pts/1"%string ValueError ["4300,/tmp/a,b"%string]
           eq_refl eq_refl).
  - repeat constructor.
  - constructor.
  - reflexivity.
Defined.
